(** * collect.py: the co-change collection pipeline

    A shallow embedding of [src/collect.py].  The script reads a list of
    projects from [projects.csv] and, for every row, clones the repository,
    checks out the pinned revision, runs the dependency extractor, dumps the
    change history into a database and attaches the dependency file to it.

    The script is effectful: it reads and creates files and runs external
    programs.  The embedding threads an explicit [World] (a file system and
    a trace of what was printed and run) through a state-and-exception
    monad; the external programs, the working directory of the process and
    the two library decoders the script relies on are the fields of an
    environment [Env], so every statement holds for every behaviour of the
    tools. *)

From stdpp Require Import gmap strings list.
From Stdlib Require Import ZArith Ascii.

Open Scope string_scope.
Open Scope list_scope.

(** ** Strings, as the script and [pathlib] use them *)

Definition is_sep (c : ascii) : bool := Ascii.eqb c "/".

(** [s[:1] == "/"] *)
Definition startswith_sep (s : string) : bool :=
  match s with
  | String c _ => is_sep c
  | EmptyString => false
  end.

(** [s.endswith("/")] *)
Fixpoint endswith_sep (s : string) : bool :=
  match s with
  | EmptyString => false
  | String c EmptyString => is_sep c
  | String _ s' => endswith_sep s'
  end.

(** [s.split("/")]: never empty, [""] for the empty string. *)
Fixpoint split_sep (s : string) : list string :=
  match s with
  | EmptyString => [EmptyString]
  | String c s' =>
      if is_sep c then EmptyString :: split_sep s'
      else match split_sep s' with
           | x :: xs => String c x :: xs
           | [] => [String c EmptyString]
           end
  end.

(** ["/".join(l)] *)
Fixpoint join_sep (l : list string) : string :=
  match l with
  | [] => ""
  | [x] => x
  | x :: xs => x +:+ "/" +:+ join_sep xs
  end.

(** [str.isspace] on one character (code points below 256). *)
Definition isspace (c : ascii) : bool :=
  let n := nat_of_ascii c in
  (((9 <=? n) && (n <=? 13)) || ((28 <=? n) && (n <=? 32))
   || (n =? 133) || (n =? 160))%nat.

Fixpoint lstrip (s : string) : string :=
  match s with
  | String c s' => if isspace c then lstrip s' else s
  | EmptyString => EmptyString
  end.

Fixpoint rstrip (s : string) : string :=
  match s with
  | EmptyString => EmptyString
  | String c s' =>
      match rstrip s' with
      | EmptyString => if isspace c then EmptyString else String c EmptyString
      | r => String c r
      end
  end.

(** [s.strip()] *)
Definition strip (s : string) : string := rstrip (lstrip s).

(** ** [pathlib] paths on a POSIX system

    A path is its root ([""], ["/"] or ["//"]) and the list of its
    components; the drive is always empty on POSIX. *)

Record Path := mkPath { root : string; tail : list string }.

#[global] Instance Path_eq_dec : EqDecision Path.
Proof. solve_decision. Defined.

#[global] Instance Path_countable : Countable Path.
Proof.
  refine (inj_countable' (fun p => (root p, tail p))
                         (fun t => mkPath t.1 t.2) _).
  by intros [].
Defined.

(** [posixpath.join(a, b)]: an absolute [b] discards [a]. *)
Definition posix_join2 (a b : string) : string :=
  if startswith_sep b then b
  else if (String.length a =? 0)%nat || endswith_sep a then a +:+ b
  else a +:+ "/" +:+ b.

(** [posixpath.join] of a first segment and the remaining ones. *)
Definition posix_join (a : string) (ps : list string) : string :=
  foldl posix_join2 a ps.

(** [posixpath.splitroot(p)], without the (empty) drive: exactly two leading
    slashes are a root of their own. *)
Definition splitroot (p : string) : string * string :=
  match p with
  | String c1 r1 =>
      if is_sep c1 then
        match r1 with
        | String c2 r2 =>
            if is_sep c2 then
              if startswith_sep r2 then ("/", r1) else ("//", r2)
            else ("/", r1)
        | EmptyString => ("/", r1)
        end
      else ("", p)
  | EmptyString => ("", p)
  end.

Definition keep_part (x : string) : bool :=
  negb (String.eqb x "") && negb (String.eqb x ".").

(** [PurePath._parse_path]: empty and ["."] components are dropped. *)
Definition parse_path (path : string) : Path :=
  match path with
  | EmptyString => mkPath "" []
  | _ => let '(r, rel) := splitroot path in
         mkPath r (List.filter keep_part (split_sep rel))
  end.

(** The constructor [Path] applied to its segments. *)
Definition Path_ (segments : list string) : Path :=
  match segments with
  | [] => parse_path ""
  | a :: ps => parse_path (posix_join a ps)
  end.

(** [str(path)] *)
Definition str (p : Path) : string :=
  let s := root p +:+ join_sep (tail p) in
  if (String.length s =? 0)%nat then "." else s.

(** [path.is_absolute()] *)
Definition is_absolute (p : Path) : bool := negb (String.eqb (root p) "").

(** [path.parent] *)
Definition parent (p : Path) : Path :=
  match tail p with
  | [] => p
  | t => mkPath (root p) (removelast t)
  end.

(** ** Constants and the project descriptor *)

Definition PROJECTS_CSV : Path := Path_ ["projects.csv"].
Definition PROJECTS_DIR : Path := Path_ ["projects"].
Definition DEPS_DIR : Path := Path_ ["deps"].
Definition DBS_DIR : Path := Path_ ["dbs"].
Definition DEPENDS_JAR : Path := Path_ ["depends.jar"].
Definition COCHANGE_TOOL_BIN : Path := Path_ ["cochange-tool"].

Record Project := mkProject { name : string; url : string; rev : string }.

(** ** The path resolvers *)

Definition get_project_path (project_name : string) : Path :=
  Path_ [str PROJECTS_DIR; project_name].

Definition get_db_path (project_name : string) : Path :=
  Path_ [str DBS_DIR; project_name +:+ ".db"].

Definition get_dep_path (project_name : string) : Path :=
  Path_ [str DEPS_DIR; project_name +:+ "-deps-structure.json"].

(** ** The world the script runs in *)

(** A node of the file system: a directory, or a regular file with its
    text. *)
Inductive Node := Dir | File (data : string).

(** The error numbers the script can meet; Python turns each into a subclass
    of [OSError]. *)
Inductive Errno := ENOENT | ENOTDIR | EISDIR | EEXIST | EACCES | ENOEXEC.

(** The exceptions of the model: those the script raises when its table
    is text and no string it handles holds a NUL character.  Outside that
    domain the script raises others, which the model leaves out: a
    [ValueError] from [subprocess.run] or from [mkdir] when an argument or
    a path holds a NUL character, and a [UnicodeDecodeError] or a
    [csv.Error] while the rows of [projects.csv] are read, when the file
    is not text in the encoding of the locale or the reader refuses a
    line.  So no statement below rests on these four being the only
    classes. *)
Inductive Exc :=
| OSError (errno : Errno)
| CalledProcessError (returncode : Z)
| UnicodeDecodeError
| IndexError.

Abbreviation FileNotFoundError := (OSError ENOENT).
Abbreviation NotADirectoryError := (OSError ENOTDIR).
Abbreviation IsADirectoryError := (OSError EISDIR).
Abbreviation FileExistsError := (OSError EEXIST).

(** What is observable of a run: the lines printed and the programs the
    script asked the system to start, with their working directory. *)
Inductive Event :=
| Print (msg : string)
| Run (args : list string) (cwd : option Path).

Record World := mkWorld { fs : gmap Path Node; trace : list Event }.

(** What starting a program gives: it ran and exited with a status, having
    written [out] on its standard output, or it could not be started. *)
Inductive Outcome :=
| Exited (returncode : Z) (out : list Byte.byte)
| Failed (errno : Errno).

(** The environment of the process: its working directory, the external
    programs (any function of the call and of the world; a program may
    change the file system at will), [bytes.decode("UTF-8")] ([None] when
    the bytes are not valid) and [csv.reader] on the text of a file. *)
Record Env := mkEnv {
  getcwd : string;
  program : list string -> option Path -> bool -> World ->
            Outcome * gmap Path Node;
  utf8_decode : list Byte.byte -> option string;
  csv_reader : string -> list (list string)
}.

(** ** The monad of the script: state and exceptions *)

Inductive Result (A : Type) := Ok (a : A) | Raise (e : Exc).
Arguments Ok {A} a.
Arguments Raise {A} e.

Definition M (A : Type) : Type := World -> Result A * World.

#[global] Instance M_ret : MRet M := fun A a w => (Ok a, w).

#[global] Instance M_bind : MBind M := fun A B f c w =>
  match c w with
  | (Ok a, w') => f a w'
  | (Raise e, w') => (Raise e, w')
  end.

#[global] Instance M_throw : MThrow Exc M := fun A e w => (Raise e, w).

(** [try: c except OSError as e: h e]; other exceptions pass through. *)
Definition try_except_OSError {A} (c : M A) (h : Errno -> M A) : M A :=
  fun w =>
    match c w with
    | (Raise (OSError n), w') => h n w'
    | r => r
    end.

Definition log (e : Event) : M unit :=
  fun w => (Ok tt, mkWorld (fs w) (trace w ++ [e])).

Definition print (msg : string) : M unit := log (Print msg).

(** [subprocess.CompletedProcess] *)
Record CompletedProcess := mkCompleted {
  returncode : Z;
  stdout : option (list Byte.byte)
}.

(** [res.check_returncode()] *)
Definition check_returncode (res : CompletedProcess) : M unit :=
  if decide (returncode res = 0%Z) then mret tt
  else mthrow (CalledProcessError (returncode res)).

(** [r[i]] on a row of the table *)
Definition getitem (r : list string) (i : nat) : M string :=
  match r !! i with
  | Some x => mret x
  | None => mthrow IndexError
  end.

(** [[f(r) for r in rows]] *)
Fixpoint comprehension {A B} (f : A -> M B) (rows : list A) : M (list B) :=
  match rows with
  | [] => mret []
  | r :: rs => x ← f r; xs ← comprehension f rs; mret (x :: xs)
  end.

(** [Project(r[0], r[1], r[2])] *)
Definition Project_of_row (r : list string) : M Project :=
  a ← getitem r 0; b ← getitem r 1; c ← getitem r 2; mret (mkProject a b c).

Section Collect.

Context (E : Env).

(** [path.absolute()] *)
Definition absolute (p : Path) : Path :=
  if is_absolute p then p else Path_ [getcwd E; str p].

(** The node a path names, relative paths being resolved against the
    working directory; the root directory always exists. *)
Definition stat (p : Path) (w : World) : option Node :=
  let a := absolute p in
  match tail a with
  | [] => Some Dir
  | _ => fs w !! a
  end.

(** [path.exists()] *)
Definition exists_ (p : Path) : M bool :=
  fun w => (Ok (match stat p w with Some _ => true | None => false end), w).

(** [path.is_dir()] *)
Definition is_dir (p : Path) : M bool :=
  fun w => (Ok (match stat p w with Some Dir => true | _ => false end), w).

(** [os.mkdir(p)]: one directory, its parent must be there. *)
Definition os_mkdir (p : Path) : M unit :=
  fun w =>
    let a := absolute p in
    match tail a with
    | [] => (Raise FileExistsError, w)
    | _ =>
        match stat (parent a) w with
        | None => (Raise FileNotFoundError, w)
        | Some (File _) => (Raise NotADirectoryError, w)
        | Some Dir =>
            match fs w !! a with
            | Some _ => (Raise FileExistsError, w)
            | None => (Ok tt, mkWorld (<[a := Dir]> (fs w)) (trace w))
            end
        end
    end.

(** [path.mkdir(parents=False, exist_ok=True)] *)
Definition mkdir_leaf (p : Path) : M unit :=
  try_except_OSError (os_mkdir p)
    (fun n =>
       match n with
       | ENOENT => mthrow (OSError n)
       | _ => d ← is_dir p; if d : bool then mret tt else mthrow (OSError n)
       end).

(** [path.mkdir(parents=True, exist_ok=True)], on the components of the
    path last first: a missing parent is made first, then the directory. *)
Fixpoint mkdir_parents (r : string) (rtail : list string) : M unit :=
  let self := mkPath r (reverse rtail) in
  try_except_OSError (os_mkdir self)
    (fun n =>
       match n with
       | ENOENT =>
           match rtail with
           | [] => mthrow (OSError n)
           | _ :: rparent => mkdir_parents r rparent;; mkdir_leaf self
           end
       | _ => d ← is_dir self; if d : bool then mret tt else mthrow (OSError n)
       end).

Definition mkdir (p : Path) : M unit :=
  mkdir_parents (root p) (reverse (tail p)).

(** [open(p)] followed by reading the whole text *)
Definition open_read (p : Path) : M string :=
  fun w =>
    match stat p w with
    | None => (Raise FileNotFoundError, w)
    | Some Dir => (Raise IsADirectoryError, w)
    | Some (File data) => (Ok data, w)
    end.

(** [subprocess.run(args, cwd=cwd)], with [stdout=PIPE] when [capture]: the
    call is recorded, a working directory that is not there fails the
    call before the program starts, and the exit status is returned in the
    result, never raised. *)
Definition sp_run (args : list string) (cwd : option Path) (capture : bool)
  : M CompletedProcess :=
  fun w =>
    let w1 := mkWorld (fs w) (trace w ++ [Run args cwd]) in
    let start :=
      match program E args cwd capture w1 with
      | (Exited rc out, fs') =>
          (Ok (mkCompleted rc (if capture then Some out else None)),
           mkWorld fs' (trace w1))
      | (Failed n, fs') => (Raise (OSError n), mkWorld fs' (trace w1))
      end in
    match cwd with
    | None => start
    | Some d =>
        match stat d w with
        | Some Dir => start
        | Some (File _) => (Raise NotADirectoryError, w1)
        | None => (Raise FileNotFoundError, w1)
        end
    end.

(** ** The script *)

Definition load_projects : M (list Project) :=
  file ← open_read PROJECTS_CSV;
  comprehension Project_of_row (csv_reader E file).

Definition clone_args (project : Project) : list string :=
  ["git"; "clone"; url project; str (get_project_path (name project))].

Definition clone (project : Project) : M unit :=
  let project_path := get_project_path (name project) in
  b ← exists_ project_path;
  if b : bool then
    print ("Skipped " +:+ name project +:+ ". Already cloned.")
  else
    print ("Cloning " +:+ name project +:+ "...");;
    _ ← sp_run (clone_args project) None false;
    mret tt.

Definition checkout_args (project : Project) : list string :=
  ["git"; "-c"; "advice.detachedHead=false"; "checkout"; rev project].

Definition checkout (project : Project) : M unit :=
  print ("Switching " +:+ name project +:+ " to " +:+ rev project);;
  _ ← sp_run (checkout_args project) (Some (get_project_path (name project)))
        false;
  mret tt.

Definition dereference_rev_args (project : Project) : list string :=
  ["git"; "rev-list"; "-n"; "1"; rev project].

Definition dereference_rev (project : Project) : M string :=
  res ← sp_run (dereference_rev_args project)
          (Some (get_project_path (name project))) true;
  check_returncode res;;
  match utf8_decode E (default [] (stdout res)) with
  | Some s => mret (strip s)
  | None => mthrow UnicodeDecodeError
  end.

Definition dump_deps_args (project : Project) : list string :=
  [ "java";
    "-Xmx12G";
    "-jar";
    str (absolute DEPENDS_JAR);
    "java";
    ".";
    name project +:+ "-deps";
    "--dir=" +:+ str (absolute DEPS_DIR);
    "--detail";
    "--output-self-deps";
    "--granularity=structure";
    "--namepattern=unix";
    "--strip-leading-path" ].

Definition dump_deps (project : Project) : M unit :=
  b ← exists_ (get_dep_path (name project));
  if b : bool then
    print ("Skipped " +:+ name project +:+ ". Already has deps dumped.")
  else
    print ("Extracting dependency info from " +:+ name project);;
    mkdir (absolute DEPS_DIR);;
    _ ← sp_run (dump_deps_args project)
          (Some (get_project_path (name project))) false;
    mret tt.

Definition dump_cochange_db_args (project : Project) : list string :=
  [ str (absolute COCHANGE_TOOL_BIN);
    "dump";
    "--all";
    "--db";
    str (get_db_path (name project));
    "--repo";
    str (get_project_path (name project));
    rev project ].

Definition dump_cochange_db (project : Project) : M unit :=
  let db_path := get_db_path (name project) in
  b ← exists_ db_path;
  if b : bool then
    print ("Skipped " +:+ name project +:+ ". Already has cochange db.")
  else
    print ("Dumping cochange info into db for " +:+ name project +:+ "...");;
    mkdir (parent db_path);;
    _ ← sp_run (dump_cochange_db_args project) None false;
    mret tt.

Definition add_deps_args (project : Project) (commit : string) : list string :=
  [ str (absolute COCHANGE_TOOL_BIN);
    "add-deps";
    "--db";
    str (get_db_path (name project));
    "--commit";
    commit;
    "--dep-file";
    str (get_dep_path (name project)) ].

Definition add_deps_to_db (project : Project) : M unit :=
  print ("Adding deps to the db of " +:+ name project +:+ "...");;
  let db_path := get_db_path (name project) in
  mkdir (parent db_path);;
  commit ← dereference_rev project;
  _ ← sp_run (add_deps_args project commit) None false;
  mret tt.

(** The five stages of one project, the body of the loop. *)
Definition stages (project : Project) : M unit :=
  clone project;;
  checkout project;;
  dump_deps project;;
  dump_cochange_db project;;
  add_deps_to_db project.

(** [for project in projects: ...] *)
Fixpoint for_each (projects : list Project) : M unit :=
  match projects with
  | [] => mret tt
  | project :: rest => stages project;; for_each rest
  end.

(** The [__main__] block. *)
Definition main : M unit :=
  projects ← load_projects;
  for_each projects.

End Collect.

(** ** Reading a run *)

(** The events a computation adds to the trace of the world it starts in. *)
Definition events {A} (c : M A) (w : World) : list Event :=
  drop (length (trace w)) (trace (snd (c w))).

(** The lines printed, in order. *)
Definition prints (tr : list Event) : list string :=
  omap (fun e => match e with Print m => Some m | Run _ _ => None end) tr.

Inductive Tool := Clone | Checkout | RevList | Extract | Dump | AddDeps.

#[global] Instance Tool_eq_dec : EqDecision Tool.
Proof. solve_decision. Defined.

(** The external call an argument list stands for, told by its first two
    words: the sub-command of the co-change tool (whose own path depends on
    the working directory), the sub-command of git, or java. *)
Definition tool_of (args : list string) : option Tool :=
  match args with
  | a :: b :: _ =>
      if String.eqb b "dump" then Some Dump
      else if String.eqb b "add-deps" then Some AddDeps
      else if String.eqb a "git" then
        if String.eqb b "clone" then Some Clone
        else if String.eqb b "-c" then Some Checkout
        else if String.eqb b "rev-list" then Some RevList
        else None
      else if String.eqb a "java" then Some Extract
      else None
  | _ => None
  end.

Definition is_run (t : Tool) (e : Event) : bool :=
  match e with
  | Run args _ => bool_decide (tool_of args = Some t)
  | Print _ => false
  end.

(** How many times the tool [t] was invoked in a trace. *)
Definition invocations (t : Tool) (tr : list Event) : nat :=
  length (List.filter (is_run t) tr).

(** [path.exists()] as a function of the world. *)
Definition present (E : Env) (p : Path) (w : World) : bool :=
  match stat E p w with Some _ => true | None => false end.

(** The three artifacts of a project. *)
Definition artifacts (project : Project) : list Path :=
  [ get_project_path (name project);
    get_dep_path (name project);
    get_db_path (name project) ].

(** The stages of the pipeline and what each prints when it starts. *)
Inductive Stage := Fetch | Pin | ExtractDeps | InitStore | MergeDeps.

Definition announcements (s : Stage) (project : Project) : list string :=
  match s with
  | Fetch => [ "Skipped " +:+ name project +:+ ". Already cloned.";
               "Cloning " +:+ name project +:+ "..." ]
  | Pin => [ "Switching " +:+ name project +:+ " to " +:+ rev project ]
  | ExtractDeps =>
      [ "Skipped " +:+ name project +:+ ". Already has deps dumped.";
        "Extracting dependency info from " +:+ name project ]
  | InitStore =>
      [ "Skipped " +:+ name project +:+ ". Already has cochange db.";
        "Dumping cochange info into db for " +:+ name project +:+ "..." ]
  | MergeDeps => [ "Adding deps to the db of " +:+ name project +:+ "..." ]
  end.

Definition announces (msg : string) (sp : Stage * Project) : Prop :=
  msg ∈ announcements sp.1 sp.2.

(** The stages a registry asks for: the five stages of the first project,
    then those of the second, and so on. *)
Definition plan (projects : list Project) : list (Stage * Project) :=
  projects ≫= fun p =>
    [(Fetch, p); (Pin, p); (ExtractDeps, p); (InitStore, p); (MergeDeps, p)].

(** The project a row of at least three fields denotes. *)
Definition row_project (r : list string) : Project :=
  mkProject (default "" (r !! 0)) (default "" (r !! 1)) (default "" (r !! 2)).

(** The path written [dir/rel]. *)
Definition under (dir : Path) (rel : string) : Path :=
  parse_path (str dir +:+ "/" +:+ rel).

(** An environment whose programs report other exit statuses: [f] replaces
    the status of every call whose output is not captured (the clone,
    checkout, extractor, dump and add-deps calls); what the programs do to
    the file system is unchanged. *)
Definition with_status (f : list string -> World -> Z -> Z) (E : Env) : Env :=
  mkEnv (getcwd E)
        (fun args cwd capture w =>
           match program E args cwd capture w with
           | (Exited rc out, m) =>
               (Exited (if capture then rc else f args w rc) out, m)
           | r => r
           end)
        (utf8_decode E) (csv_reader E).

Definition exited (r : Outcome * gmap Path Node) : bool :=
  match r.1 with Exited _ _ => true | Failed _ => false end.

(** ** Worlds and calls along a run *)

(** Whether a computation returns, rather than raises, from a world. *)
Definition succeeds {A} (c : M A) (w : World) : bool :=
  match fst (c w) with Ok _ => true | Raise _ => false end.

(** The world after one line was printed. *)
Definition printed (msg : string) (w : World) : World :=
  mkWorld (fs w) (trace w ++ [Print msg]).

(** The world in which the program of a call starts: the call is on the
    trace. *)
Definition called (args : list string) (cwd : option Path) (w : World)
  : World :=
  mkWorld (fs w) (trace w ++ [Run args cwd]).

(** The file system a program leaves, as a world. *)
Definition after_program (E : Env) (args : list string) (cwd : option Path)
    (capture : bool) (w : World) : World :=
  mkWorld (snd (program E args cwd capture w)) (trace w).

(** [cwd] can be entered: there is none, or it names a directory. *)
Definition cwd_ok (E : Env) (cwd : option Path) (w : World) : bool :=
  match cwd with
  | None => true
  | Some d => match stat E d w with Some Dir => true | _ => false end
  end.

(** The error of a call whose working directory cannot be entered. *)
Definition chdir_error (E : Env) (d : Path) (w : World) : Exc :=
  match stat E d w with
  | None => FileNotFoundError
  | Some _ => NotADirectoryError
  end.

(** The world in which a stage that makes a directory starts its program's
    call: the line is printed, the directory made. *)
Definition prepared (E : Env) (d : Path) (msg : string) (w : World) : World :=
  mkWorld (fs (snd (mkdir E d w))) (trace w ++ [Print msg]).

(** The world in which the merge stage resolves the revision: the stage
    has printed its line and made the directory of the database. *)
Definition merge_ready (E : Env) (p : Project) (w : World) : World :=
  mkWorld (fs (snd (mkdir E (parent (get_db_path (name p))) w)))
          (trace w ++ [Print ("Adding deps to the db of " +:+ name p +:+ "...")]).

(** The merge stage up to and including the resolution of the revision. *)
Definition resolve_in_merge (E : Env) (p : Project) : M string :=
  print ("Adding deps to the db of " +:+ name p +:+ "...");;
  mkdir E (parent (get_db_path (name p)));;
  dereference_rev E p.

(** The calls of the script for a project, the extractor call apart. *)
Definition other_call (E : Env) (p : Project) (args : list string) : Prop :=
  args = clone_args p
  \/ args = checkout_args p
  \/ args = dereference_rev_args p
  \/ args = dump_cochange_db_args E p
  \/ exists commit, args = add_deps_args E p commit.

(** Every artifact of every project of the registry is there. *)
Definition all_present (E : Env) (ps : list Project) (w : World) : Prop :=
  forall p a, p ∈ ps -> a ∈ artifacts p -> present E a w = true.

(** The programs called with arguments in [Q] never remove the node at
    [a]. *)
Definition keeps_on (E : Env) (Q : list string -> Prop) (a : Path) : Prop :=
  forall args cwd capture w,
    Q args -> present E a w = true ->
    present E a (after_program E args cwd capture w) = true.

(** The calls per project of a run that finds every artifact: one
    checkout, one resolution, one add-deps. *)
Definition rerun_calls (t : Tool) : nat :=
  match t with
  | Checkout | RevList | AddDeps => 1
  | Clone | Extract | Dump => 0
  end.

(** ** The schedule of a run *)

(** The function of the script that carries out a stage of a project. *)
Definition stage_action (E : Env) (sp : Stage * Project) : M unit :=
  match sp.1 with
  | Fetch => clone E sp.2
  | Pin => checkout E sp.2
  | ExtractDeps => dump_deps E sp.2
  | InitStore => dump_cochange_db E sp.2
  | MergeDeps => add_deps_to_db E sp.2
  end.

(** Stages carried out strictly one after the other: each starts in the
    world the one before left, and an exception ends the sequence. *)
Fixpoint in_sequence (E : Env) (items : list (Stage * Project)) : M unit :=
  match items with
  | [] => mret tt
  | sp :: rest => stage_action E sp;; in_sequence E rest
  end.

(** The events of a stage that returned: its line, then its calls in
    order; a guarded stage that finds its artifact prints that it skips and
    calls nothing. *)
Definition full_block (E : Env) (sp : Stage * Project) (b : list Event)
  : Prop :=
  let p := sp.2 in
  let wc := get_project_path (name p) in
  match sp.1 with
  | Fetch =>
      b = [Print ("Skipped " +:+ name p +:+ ". Already cloned.")]
      \/ b = [Print ("Cloning " +:+ name p +:+ "..."); Run (clone_args p) None]
  | Pin =>
      b = [ Print ("Switching " +:+ name p +:+ " to " +:+ rev p);
            Run (checkout_args p) (Some wc) ]
  | ExtractDeps =>
      b = [Print ("Skipped " +:+ name p +:+ ". Already has deps dumped.")]
      \/ b = [ Print ("Extracting dependency info from " +:+ name p);
               Run (dump_deps_args E p) (Some wc) ]
  | InitStore =>
      b = [Print ("Skipped " +:+ name p +:+ ". Already has cochange db.")]
      \/ b = [ Print ("Dumping cochange info into db for " +:+ name p
                      +:+ "...");
               Run (dump_cochange_db_args E p) None ]
  | MergeDeps =>
      exists commit,
        b = [ Print ("Adding deps to the db of " +:+ name p +:+ "...");
              Run (dereference_rev_args p) (Some wc);
              Run (add_deps_args E p commit) None ]
  end.

(** The events of a stage that raised: its line, then the calls it made up
    to the exception. *)
Definition cut_block (E : Env) (sp : Stage * Project) (b : list Event)
  : Prop :=
  let p := sp.2 in
  let wc := get_project_path (name p) in
  match sp.1 with
  | Fetch =>
      b = [Print ("Cloning " +:+ name p +:+ "..."); Run (clone_args p) None]
  | Pin =>
      b = [ Print ("Switching " +:+ name p +:+ " to " +:+ rev p);
            Run (checkout_args p) (Some wc) ]
  | ExtractDeps =>
      b = [Print ("Extracting dependency info from " +:+ name p)]
      \/ b = [ Print ("Extracting dependency info from " +:+ name p);
               Run (dump_deps_args E p) (Some wc) ]
  | InitStore =>
      b = [Print ("Dumping cochange info into db for " +:+ name p +:+ "...")]
      \/ b = [ Print ("Dumping cochange info into db for " +:+ name p
                      +:+ "...");
               Run (dump_cochange_db_args E p) None ]
  | MergeDeps =>
      b = [Print ("Adding deps to the db of " +:+ name p +:+ "...")]
      \/ b = [ Print ("Adding deps to the db of " +:+ name p +:+ "...");
               Run (dereference_rev_args p) (Some wc) ]
      \/ exists commit,
           b = [ Print ("Adding deps to the db of " +:+ name p +:+ "...");
                 Run (dereference_rev_args p) (Some wc);
                 Run (add_deps_args E p commit) None ]
  end.

(** A computation carries out the stages [items] in order: its events are
    the blocks of the stages that returned, one after the other, then,
    when it raises, the block the raising stage left; when it returns,
    every stage of [items] has left its block. *)
Definition scheduled (E : Env) (c : M unit) (items : list (Stage * Project))
  : Prop :=
  forall w, exists n blocks rest,
    events c w = concat blocks ++ rest
    /\ Forall2 (full_block E) (take n items) blocks
    /\ match fst (c w) with
       | Ok _ => n = length items /\ rest = []
       | Raise _ => exists sp, items !! n = Some sp /\ cut_block E sp rest
       end.

(** The status a started program exited with, if it could be started. *)
Definition status_of (r : Outcome * gmap Path Node) : option Z :=
  match r.1 with Exited rc _ => Some rc | Failed _ => None end.

(** The stage [sp], started in [w], comes to start its program (for the
    merge stage, the add-deps program), and the program exits with the
    status [rc]. *)
Definition stage_exits (E : Env) (sp : Stage * Project) (w : World) (rc : Z)
  : Prop :=
  let p := sp.2 in
  let wc := get_project_path (name p) in
  match sp.1 with
  | Fetch =>
      present E wc w = false
      /\ status_of (program E (clone_args p) None false
                      (called (clone_args p) None
                         (printed ("Cloning " +:+ name p +:+ "...") w)))
         = Some rc
  | Pin =>
      cwd_ok E (Some wc) w = true
      /\ status_of (program E (checkout_args p) (Some wc) false
                      (called (checkout_args p) (Some wc)
                         (printed ("Switching " +:+ name p +:+ " to "
                                   +:+ rev p) w)))
         = Some rc
  | ExtractDeps =>
      let w1 := prepared E (absolute E DEPS_DIR)
                  ("Extracting dependency info from " +:+ name p) w in
      present E (get_dep_path (name p)) w = false
      /\ succeeds (mkdir E (absolute E DEPS_DIR)) w = true
      /\ cwd_ok E (Some wc) w1 = true
      /\ status_of (program E (dump_deps_args E p) (Some wc) false
                      (called (dump_deps_args E p) (Some wc) w1))
         = Some rc
  | InitStore =>
      let w1 := prepared E (parent (get_db_path (name p)))
                  ("Dumping cochange info into db for " +:+ name p +:+ "...")
                  w in
      present E (get_db_path (name p)) w = false
      /\ succeeds (mkdir E (parent (get_db_path (name p)))) w = true
      /\ status_of (program E (dump_cochange_db_args E p) None false
                      (called (dump_cochange_db_args E p) None w1))
         = Some rc
  | MergeDeps =>
      exists commit w2,
        resolve_in_merge E p w = (Ok commit, w2)
        /\ status_of (program E (add_deps_args E p commit) None false
                        (called (add_deps_args E p commit) None w2))
           = Some rc
  end.

(** ** Properties of computations used in the proofs *)

(** A computation grows the trace when it only ever appends to it. *)
Definition grows {A} (c : M A) : Prop :=
  forall w, exists k, trace (snd (c w)) = trace w ++ k.

(** A computation that reads and writes the file system only, never
    removes a node and leaves the trace alone. *)
Definition fs_grows {A} (c : M A) : Prop :=
  forall m, exists r m', m ⊆ m' /\ forall t, c (mkWorld m t) = (r, mkWorld m' t).

(** A computation under which the node at [a], once there, stays. *)
Definition preserves {A} (E : Env) (a : Path) (c : M A) : Prop :=
  forall w, present E a w = true -> present E a (snd (c w)) = true.

(** A computation follows a list of stages when the lines it prints
    announce a beginning of the list, one line per stage and in order, and
    the whole list when it returns. *)
Definition follows (c : M unit) (specs : list (Stage * Project)) : Prop :=
  forall w, exists n,
    Forall2 announces (prints (events c w)) (take n specs)
    /\ (fst (c w) = Ok tt -> n = length specs).

(** A stage announces itself: it prints one line, and that line is one of
    those of the stage. *)
Definition announced (c : M unit) (sp : Stage * Project) : Prop :=
  forall w, exists msg, prints (events c w) = [msg] /\ announces msg sp.

(** From a world with every artifact of [ps], [c] leaves every artifact,
    calls the tool [t] at most [n] times, and [n] times when it returns. *)
Definition counts (E : Env) (ps : list Project) (t : Tool) (n : nat)
    (c : M unit) : Prop :=
  forall w,
    all_present E ps w ->
    all_present E ps (snd (c w))
    /\ invocations t (events c w) <= n
    /\ (fst (c w) = Ok tt -> invocations t (events c w) = n).

(** From a world where [P] holds, [c] calls the tool [t] at most [n]
    times; when it returns it called it [n] times and [R] holds. *)
Definition triple (P : World -> Prop) (t : Tool) (n : nat) (c : M unit)
    (R : World -> Prop) : Prop :=
  forall w,
    P w ->
    invocations t (events c w) <= n
    /\ (fst (c w) = Ok tt -> invocations t (events c w) = n /\ R (snd (c w))).

(** ** A sample environment

    Tools that behave as their manuals say, on a working directory [/work];
    the revision [nope] does not exist and an empty URL cannot be cloned. *)
Module Demo.

Definition cwd := "/work".

Definition at_cwd (p : string) : Path := Path_ [cwd; p].

(** Make a node where there is none. *)
Definition create (p : Path) (n : Node) (m : gmap Path Node)
  : gmap Path Node :=
  match m !! p with
  | Some _ => m
  | None => <[p := n]> m
  end.

Definition drop_prefix (n : nat) (s : string) : string :=
  String.substring n (String.length s - n) s.

Definition arg (i : nat) (args : list string) : string :=
  default "" (args !! i).

(** The sample programs.  [git clone] makes the destination directory
    unless the URL is empty; [git checkout] and [git rev-list] fail on the
    revision [nope], and [rev-list] prints a commit otherwise; the
    extractor writes [<dir>/<output>-structure.json]; [dump] creates the
    database; [add-deps] fails when the database is missing; anything else
    cannot be started. *)
Definition program (args : list string) (wd : option Path) (capture : bool)
    (w : World) : Outcome * gmap Path Node :=
  match tool_of args with
  | Some Clone =>
      if String.eqb (arg 2 args) "" then (Exited 128 [], fs w)
      else (Exited 0 [], create (at_cwd (arg 3 args)) Dir (fs w))
  | Some Checkout =>
      (Exited (if String.eqb (arg 4 args) "nope" then 1 else 0) [], fs w)
  | Some RevList =>
      if String.eqb (arg 4 args) "nope" then (Exited 128 [], fs w)
      else (Exited 0 (String.list_byte_of_string
                        (" c0ffee-" +:+ arg 4 args +:+ String "010" "")),
            fs w)
  | Some Extract =>
      (Exited 0 [],
       create (Path_ [drop_prefix 6 (arg 7 args);
                      arg 6 args +:+ "-structure.json"]) (File "{}") (fs w))
  | Some Dump => (Exited 0 [], create (at_cwd (arg 4 args)) (File "") (fs w))
  | Some AddDeps =>
      (Exited (if fs w !! at_cwd (arg 3 args) is Some _ then 0 else 1) [],
       fs w)
  | None => (Failed ENOENT, fs w)
  end.

Definition is_ascii_byte (b : Byte.byte) : bool := (Byte.to_nat b <? 128)%nat.

(** The sample decoder: ASCII bytes only, which UTF-8 decodes to
    themselves. *)
Definition utf8_decode (bs : list Byte.byte) : option string :=
  if forallb is_ascii_byte bs then Some (String.string_of_list_byte bs)
  else None.

Fixpoint split_on (sep : ascii) (s : string) : list string :=
  match s with
  | EmptyString => [EmptyString]
  | String c s' =>
      if Ascii.eqb c sep then EmptyString :: split_on sep s'
      else match split_on sep s' with
           | x :: xs => String c x :: xs
           | [] => [String c EmptyString]
           end
  end.

(** Rows are lines, fields are separated by commas; no quoting. *)
Definition csv_reader (text : string) : list (list string) :=
  match text with
  | EmptyString => []
  | _ => map (split_on ",") (split_on "010" text)
  end.

Definition env : Env := mkEnv cwd program utf8_decode csv_reader.

Definition acme : Project :=
  mkProject "acme" "https://example.test/acme.git" "v1.0".

Definition acme2 : Project :=
  mkProject "acme" "https://example.test/acme.git" "v2.0".

(** A descriptor whose revision does not exist, and one that cannot be
    cloned. *)
Definition ghost : Project :=
  mkProject "acme" "https://example.test/acme.git" "nope".

Definition broken : Project := mkProject "acme" "" "v1.0".

(** The working directory with an empty [projects] directory in it. *)
Definition base : gmap Path Node :=
  <[at_cwd "projects" := Dir]> (<[mkPath "/" ["work"] := Dir]> ∅).

(** The same with a registry of the given text. *)
Definition w0 (csv : string) : World :=
  mkWorld (<[at_cwd "projects.csv" := File csv]> base) [].

Definition acme_csv : string := "acme,https://example.test/acme.git,v1.0".

Definition acme_twice_csv : string :=
  acme_csv +:+ String "010" "acme,https://example.test/acme.git,v2.0".

End Demo.

(** The world a first run over the registry of [acme] leaves, with a fresh
    trace. *)
Definition demo_second : World :=
  mkWorld (fs (snd (main Demo.env (Demo.w0 Demo.acme_csv)))) [].

(** The same start as [Demo.w0], but [deps] is a regular file. *)
Definition demo_deps_is_file : World :=
  mkWorld (<[Demo.at_cwd "deps" := File ""]> (fs (Demo.w0 Demo.acme_csv))) [].

(** A world with the working copy of [acme] and nothing else of it. *)
Definition demo_cloned : World :=
  mkWorld (<[Demo.at_cwd "projects/acme" := Dir]>
             (fs (Demo.w0 Demo.acme_csv))) [].

(** ** Names and paths in normal form *)

(** No slash in a string. *)
Fixpoint no_sep (s : string) : bool :=
  match s with
  | EmptyString => true
  | String c s' => negb (is_sep c) && no_sep s'
  end.

(** A name that is one path component: no slash, not empty, not a dot. *)
Definition single_part (N : string) : bool := no_sep N && keep_part N.

(** A path as the parser leaves it: one of the three roots, and components
    that are single parts. *)
Definition normal (p : Path) : Prop :=
  root p ∈ ["" ; "/" ; "//"] /\ Forall (fun x => single_part x = true) (tail p).

(** ** Measuring and classifying the events of a run *)

(** How many events of a trace satisfy [P]. *)
Definition count_events (P : Event -> bool) (tr : list Event) : nat :=
  length (List.filter P tr).

Definition is_call (e : Event) : bool :=
  match e with Print _ => false | Run _ _ => true end.

(** An event the script produces for the project [p]: a line, or one of
    its six calls with the working directory the script gives it. *)
Definition script_event (E : Env) (p : Project) (e : Event) : Prop :=
  match e with
  | Print msg => exists s, msg ∈ announcements s p
  | Run args cwd =>
      let wc := get_project_path (name p) in
      (args = clone_args p /\ cwd = None)
      \/ (args = checkout_args p /\ cwd = Some wc)
      \/ (args = dump_deps_args E p /\ cwd = Some wc)
      \/ (args = dump_cochange_db_args E p /\ cwd = None)
      \/ (args = dereference_rev_args p /\ cwd = Some wc)
      \/ (exists commit, args = add_deps_args E p commit /\ cwd = None)
  end.

(** The world's last event is a resolution call. *)
Definition after_resolution (w : World) : Prop :=
  exists p,
    last (trace w)
    = Some (Run (dereference_rev_args p) (Some (get_project_path (name p)))).

(** What an exception of the loop tells: an error of the operating system,
    or a resolution that exited with a status other than 0 or wrote bytes
    that do not decode; never an [IndexError]. *)
Definition loop_error (e : Exc) (w : World) : Prop :=
  match e with
  | OSError _ => True
  | CalledProcessError rc => rc <> 0%Z /\ after_resolution w
  | UnicodeDecodeError => after_resolution w
  | IndexError => False
  end.

(** Every character is white space. *)
Fixpoint all_space (s : string) : bool :=
  match s with
  | EmptyString => true
  | String c s' => isspace c && all_space s'
  end.

(** ** More properties of computations used in the proofs *)

(** Every event a computation adds satisfies [Q]. *)
Definition all_events {A} (Q : Event -> Prop) (c : M A) : Prop :=
  forall w, Forall Q (events c w).

(** A computation adds at most [n] events that satisfy [P]. *)
Definition at_most {A} (P : Event -> bool) (n : nat) (c : M A) : Prop :=
  forall w, count_events P (events c w) <= n.

(** A computation raises only exceptions that, with the world they leave,
    satisfy [R]. *)
Definition raises_only {A} (R : Exc -> World -> Prop) (c : M A) : Prop :=
  forall w e w', c w = (Raise e, w') -> R e w'.

(** A computation that loses no node of the file system. *)
Definition fs_mono {A} (c : M A) : Prop :=
  forall w, fs w ⊆ fs (snd (c w)).

(** An error of the operating system, whatever the world. *)
Definition os_error (e : Exc) (w : World) : Prop := exists n, e = OSError n.

(** An [IndexError] or an error of the operating system. *)
Definition table_error (e : Exc) (w : World) : Prop :=
  e = IndexError \/ exists n, e = OSError n.

(** A sample environment whose programs all exit with status 0, write a
    single newline and leave the files alone. *)
Definition demo_blank : Env :=
  mkEnv Demo.cwd
        (fun _ _ _ w =>
           (Exited 0 (String.list_byte_of_string (String "010" "")), fs w))
        Demo.utf8_decode Demo.csv_reader.

(** * Properties *)

(** ** Paths *)

Example get_project_path_acme : str (get_project_path "acme") = "projects/acme".
Proof. reflexivity. Qed.

Example get_db_path_acme : str (get_db_path "acme") = "dbs/acme.db".
Proof. reflexivity. Qed.

Example get_dep_path_acme :
  str (get_dep_path "acme") = "deps/acme-deps-structure.json".
Proof. reflexivity. Qed.

Example get_project_path_nested :
  get_project_path "org//repo/./x/" = mkPath "" ["projects"; "org"; "repo"; "x"].
Proof. reflexivity. Qed.

Example strip_commit : strip (" c0ffee" +:+ String "010" "") = "c0ffee".
Proof. reflexivity. Qed.

Lemma startswith_sep_app (a b : string) :
  startswith_sep a = false -> startswith_sep b = false ->
  startswith_sep (a +:+ b) = false.
Proof. destruct a; simpl; auto. Qed.

(** Joining a directory name that is a plain word with a relative segment
    writes the two with a slash between them. *)
Lemma posix_join2_relative (a b : string) :
  (String.length a =? 0)%nat = false -> endswith_sep a = false ->
  startswith_sep b = false ->
  posix_join2 a b = a +:+ "/" +:+ b.
Proof. intros Ha Hs Hb. unfold posix_join2. by rewrite Hb, Ha, Hs. Qed.

Lemma Path_under (dir : Path) (rel : string) :
  (String.length (str dir) =? 0)%nat = false ->
  endswith_sep (str dir) = false ->
  startswith_sep rel = false ->
  Path_ [str dir; rel] = under dir rel.
Proof.
  intros Ha Hs Hb. unfold Path_, under, posix_join. simpl.
  by rewrite posix_join2_relative.
Qed.

(** A relative path below a directory that is a plain word: the word,
    then the components of the relative part. *)
Lemma under_projects_tail (N : string) :
  startswith_sep N = false ->
  under PROJECTS_DIR N = mkPath "" ("projects" :: tail (parse_path N)).
Proof.
  intros HN. destruct N as [|c N]; [reflexivity|].
  simpl in HN. unfold under, parse_path. simpl. rewrite HN. simpl.
  by rewrite HN.
Qed.

(** C5, as amended: for every project name that does not begin with a
    slash, the three resolvers return the paths written [projects/N],
    [dbs/N.db] and [deps/N-deps-structure.json] (as the path library reads
    them); the working copy then lies below [projects]; and two descriptors
    with the same name get the same three paths whatever their revisions. *)
Theorem path_resolvers_relative_name (N : string) :
  startswith_sep N = false ->
  get_project_path N = under PROJECTS_DIR N
  /\ get_db_path N = under DBS_DIR (N +:+ ".db")
  /\ get_dep_path N = under DEPS_DIR (N +:+ "-deps-structure.json")
  /\ get_project_path N = mkPath "" ("projects" :: tail (parse_path N))
  /\ forall p q : Project,
       name p = N -> name q = N ->
       map (fun f => f (name p)) [get_project_path; get_db_path; get_dep_path]
       = map (fun f => f (name q)) [get_project_path; get_db_path; get_dep_path].
Proof.
  intros HN.
  assert (Hp : get_project_path N = under PROJECTS_DIR N)
    by (by apply Path_under).
  repeat split.
  - exact Hp.
  - apply Path_under; [done | done | by apply startswith_sep_app].
  - apply Path_under; [done | done | by apply startswith_sep_app].
  - rewrite Hp. by apply under_projects_tail.
  - intros p q -> Hq. by rewrite Hq.
Qed.

Lemma path_resolvers_relative_name_acme :
  startswith_sep "acme" = false
  /\ get_project_path "acme" = under PROJECTS_DIR "acme"
  /\ get_db_path "acme" = under DBS_DIR ("acme" +:+ ".db")
  /\ get_dep_path "acme" = under DEPS_DIR ("acme" +:+ "-deps-structure.json")
  /\ get_project_path "acme" = mkPath "" ("projects" :: tail (parse_path "acme"))
  /\ forall p q : Project,
       name p = "acme" -> name q = "acme" ->
       map (fun f => f (name p)) [get_project_path; get_db_path; get_dep_path]
       = map (fun f => f (name q)) [get_project_path; get_db_path; get_dep_path].
Proof.
  split; [reflexivity | apply (path_resolvers_relative_name "acme"); reflexivity].
Defined.

(** C5, as stated, fails: a non-empty name that begins with a slash is an
    absolute segment, and the path constructor drops the root directory
    before it; none of the three paths is then below its root. *)
Lemma path_resolvers_absolute_name :
  "/srv" <> ""
  /\ get_project_path "/srv" = mkPath "/" ["srv"]
  /\ get_project_path "/srv" <> under PROJECTS_DIR "/srv"
  /\ get_db_path "/srv" = mkPath "/" ["srv.db"]
  /\ get_db_path "/srv" <> under DBS_DIR ("/srv" +:+ ".db")
  /\ get_dep_path "/srv" = mkPath "/" ["srv-deps-structure.json"]
  /\ get_dep_path "/srv" <> under DEPS_DIR ("/srv" +:+ "-deps-structure.json").
Proof. repeat split; try reflexivity; vm_compute; discriminate. Qed.

(** ** The monad and the trace *)

Lemma bind_unfold {A B} (c : M A) (k : A -> M B) (w : World) :
  (c ≫= k) w = match c w with
                | (Ok a, w') => k a w'
                | (Raise e, w') => (Raise e, w')
                end.
Proof. reflexivity. Qed.

Lemma bind_ok {A B} (c : M A) (k : A -> M B) (w w' : World) (a : A) :
  c w = (Ok a, w') -> (c ≫= k) w = k a w'.
Proof. intros H. by rewrite bind_unfold, H. Qed.

Lemma bind_raise {A B} (c : M A) (k : A -> M B) (w w' : World) (e : Exc) :
  c w = (Raise e, w') -> (c ≫= k) w = (Raise e, w').
Proof. intros H. by rewrite bind_unfold, H. Qed.

Lemma grows_events {A} (c : M A) (w : World) :
  grows c -> trace (snd (c w)) = trace w ++ events c w.
Proof.
  intros H. destruct (H w) as [k Hk]. unfold events.
  by rewrite Hk, drop_app_length.
Qed.

Lemma grows_ret {A} (a : A) : grows (mret a : M A).
Proof. intros w. exists []. simpl. by rewrite app_nil_r. Qed.

Lemma grows_throw {A} (e : Exc) : grows (mthrow e : M A).
Proof. intros w. exists []. simpl. by rewrite app_nil_r. Qed.

Lemma grows_bind {A B} (c : M A) (k : A -> M B) :
  grows c -> (forall a, grows (k a)) -> grows (c ≫= k).
Proof.
  intros Hc Hk w. rewrite bind_unfold. destruct (Hc w) as [k1 H1].
  destruct (c w) as [[a|e] w']; simpl in *; [|by exists k1].
  destruct (Hk a w') as [k2 H2]. exists (k1 ++ k2).
  by rewrite H2, H1, (assoc_L (++)).
Qed.

Lemma grows_log (e : Event) : grows (log e).
Proof. intros w. by exists [e]. Qed.

Lemma grows_try {A} (c : M A) (h : Errno -> M A) :
  grows c -> (forall n, grows (h n)) -> grows (try_except_OSError c h).
Proof.
  intros Hc Hh w. unfold try_except_OSError. destruct (Hc w) as [k1 H1].
  destruct (c w) as [[a|[n| | |]] w']; simpl in *; try by exists k1.
  destruct (Hh n w') as [k2 H2]. exists (k1 ++ k2).
  by rewrite H2, H1, (assoc_L (++)).
Qed.

Lemma grows_if {A} (b : bool) (c1 c2 : M A) :
  grows c1 -> grows c2 -> grows (if b then c1 else c2).
Proof. by destruct b. Qed.

Lemma grows_getitem (r : list string) (i : nat) : grows (getitem r i).
Proof. unfold getitem. destruct (r !! i); [apply grows_ret | apply grows_throw]. Qed.

Lemma grows_check_returncode (res : CompletedProcess) :
  grows (check_returncode res).
Proof.
  unfold check_returncode. case_decide; [apply grows_ret | apply grows_throw].
Qed.

Lemma grows_comprehension {A B} (f : A -> M B) (rows : list A) :
  (forall r, grows (f r)) -> grows (comprehension f rows).
Proof.
  intros Hf. induction rows as [|r rs IH]; simpl; [apply grows_ret|].
  apply grows_bind; [done|]. intros x. apply grows_bind; [done|].
  intros xs. apply grows_ret.
Qed.

Create HintDb grows.

#[global] Hint Resolve grows_ret grows_throw grows_log grows_getitem
  grows_check_returncode : grows.
#[global] Hint Extern 2 (grows (_ ≫= _)) =>
  apply grows_bind; [|intros ?] : grows.
#[global] Hint Extern 2 (grows (if _ then _ else _)) => apply grows_if : grows.
#[global] Hint Extern 2 (grows (try_except_OSError _ _)) =>
  apply grows_try; [|intros []] : grows.
#[global] Hint Extern 2 (grows (comprehension _ _)) =>
  apply grows_comprehension; intros ? : grows.

(** The events of a sequence: those of the first computation, then those
    of the rest when the first returned. *)
Lemma events_bind {A B} (c : M A) (k : A -> M B) (w : World) :
  grows c -> (forall a, grows (k a)) ->
  events (c ≫= k) w
  = events c w ++ match c w with
                  | (Ok a, w') => events (k a) w'
                  | (Raise _, _) => []
                  end.
Proof.
  intros Hc Hk. unfold events at 1. rewrite bind_unfold.
  pose proof (grows_events c w Hc) as Hw.
  destruct (c w) as [[a|e] w']; simpl in *.
  - rewrite (grows_events (k a) w' (Hk a)), Hw, <- (assoc_L (++)).
    by rewrite drop_app_length.
  - by rewrite Hw, drop_app_length, app_nil_r.
Qed.

Lemma events_ret {A} (a : A) (w : World) : events (mret a : M A) w = [].
Proof. unfold events. simpl. by rewrite drop_all. Qed.

Lemma events_throw {A} (e : Exc) (w : World) : events (mthrow e : M A) w = [].
Proof. unfold events. simpl. by rewrite drop_all. Qed.

Lemma events_log (e : Event) (w : World) : events (log e) w = [e].
Proof. unfold events. simpl. by rewrite drop_app_length. Qed.

Lemma invocations_app (t : Tool) (l1 l2 : list Event) :
  invocations t (l1 ++ l2) = invocations t l1 + invocations t l2.
Proof. unfold invocations. by rewrite List.filter_app, length_app. Qed.

Lemma prints_app (l1 l2 : list Event) : prints (l1 ++ l2) = prints l1 ++ prints l2.
Proof. unfold prints. apply omap_app. Qed.

(** ** The file-system primitives *)

Lemma fs_grows_ret {A} (a : A) : fs_grows (mret a : M A).
Proof. intros m. by exists (Ok a), m. Qed.

Lemma fs_grows_throw {A} (e : Exc) : fs_grows (mthrow e : M A).
Proof. intros m. by exists (Raise e), m. Qed.

Lemma fs_grows_bind {A B} (c : M A) (k : A -> M B) :
  fs_grows c -> (forall a, fs_grows (k a)) -> fs_grows (c ≫= k).
Proof.
  intros Hc Hk m. destruct (Hc m) as (r & m1 & Hsub & Hrun).
  destruct r as [a|e].
  - destruct (Hk a m1) as (r2 & m2 & Hsub2 & Hrun2).
    exists r2, m2. split; [by etrans|].
    intros t. by rewrite bind_unfold, Hrun, Hrun2.
  - exists (Raise e), m1. split; [done|].
    intros t. by rewrite bind_unfold, Hrun.
Qed.

Lemma fs_grows_try {A} (c : M A) (h : Errno -> M A) :
  fs_grows c -> (forall n, fs_grows (h n)) -> fs_grows (try_except_OSError c h).
Proof.
  intros Hc Hh m. destruct (Hc m) as (r & m1 & Hsub & Hrun).
  unfold try_except_OSError.
  destruct r as [a|[n| | |]];
    try (eexists _, m1; split; [done|]; intros t; by rewrite Hrun).
  destruct (Hh n m1) as (r2 & m2 & Hsub2 & Hrun2).
  exists r2, m2. split; [by etrans|]. intros t. by rewrite Hrun, Hrun2.
Qed.

Lemma fs_grows_trace {A} (c : M A) (w : World) :
  fs_grows c -> trace (snd (c w)) = trace w.
Proof.
  intros H. destruct w as [m t]. destruct (H m) as (r & m' & _ & Hrun).
  by rewrite Hrun.
Qed.

Lemma fs_grows_subseteq {A} (c : M A) (w : World) :
  fs_grows c -> fs w ⊆ fs (snd (c w)).
Proof.
  intros H. destruct w as [m t]. destruct (H m) as (r & m' & Hsub & Hrun).
  by rewrite Hrun.
Qed.

(** What such a computation returns and writes does not depend on the
    trace. *)
Lemma fs_grows_frame {A} (c : M A) (w : World) (t : list Event) :
  fs_grows c ->
  c (mkWorld (fs w) t) = (fst (c w), mkWorld (fs (snd (c w))) t).
Proof.
  intros H. destruct w as [m t0]. destruct (H m) as (r & m' & _ & Hrun).
  simpl. by rewrite !Hrun.
Qed.

Lemma fs_grows_grows {A} (c : M A) : fs_grows c -> grows c.
Proof.
  intros H w. exists []. by rewrite app_nil_r, fs_grows_trace.
Qed.

Lemma fs_grows_events {A} (c : M A) (w : World) :
  fs_grows c -> events c w = [].
Proof.
  intros H. unfold events. rewrite fs_grows_trace by done. by rewrite drop_all.
Qed.

Section Primitives.

Context (E : Env).

Lemma stat_frame (p : Path) (m : gmap Path Node) (t t' : list Event) :
  stat E p (mkWorld m t) = stat E p (mkWorld m t').
Proof. reflexivity. Qed.

Lemma stat_subseteq (p : Path) (w w' : World) (n : Node) :
  fs w ⊆ fs w' -> stat E p w = Some n -> stat E p w' = Some n.
Proof.
  unfold stat. intros Hsub. destruct (tail (absolute E p)); [done|].
  intros Hl. by eapply lookup_weaken.
Qed.

Lemma present_subseteq (p : Path) (w w' : World) :
  fs w ⊆ fs w' -> present E p w = true -> present E p w' = true.
Proof.
  unfold present. intros Hsub.
  destruct (stat E p w) as [n|] eqn:Hs; [|done].
  by rewrite (stat_subseteq p w w' n).
Qed.

Lemma stat_fs (p : Path) (w w' : World) :
  fs w = fs w' -> stat E p w = stat E p w'.
Proof. unfold stat. by intros ->. Qed.

Lemma present_frame (p : Path) (w : World) (t : list Event) :
  present E p (mkWorld (fs w) t) = present E p w.
Proof. reflexivity. Qed.

Lemma fs_grows_exists (p : Path) : fs_grows (exists_ E p).
Proof. intros m. by exists (fst (exists_ E p (mkWorld m []))), m. Qed.

Lemma fs_grows_is_dir (p : Path) : fs_grows (is_dir E p).
Proof. intros m. by exists (fst (is_dir E p (mkWorld m []))), m. Qed.

Lemma fs_grows_os_mkdir (p : Path) : fs_grows (os_mkdir E p).
Proof.
  intros m.
  assert (Hrun : forall t,
    os_mkdir E p (mkWorld m t)
    = match tail (absolute E p) with
      | [] => (Raise FileExistsError, mkWorld m t)
      | _ =>
          match stat E (parent (absolute E p)) (mkWorld m []) with
          | None => (Raise FileNotFoundError, mkWorld m t)
          | Some (File _) => (Raise NotADirectoryError, mkWorld m t)
          | Some Dir =>
              match m !! absolute E p with
              | Some _ => (Raise FileExistsError, mkWorld m t)
              | None => (Ok tt, mkWorld (<[absolute E p := Dir]> m) t)
              end
          end
      end) by reflexivity.
  destruct (tail (absolute E p)) as [|x xs]; [by eexists _, m|].
  destruct (stat E (parent (absolute E p)) (mkWorld m [])) as [[|d]|];
    try by eexists _, m.
  destruct (m !! absolute E p) eqn:Hl; [by eexists _, m|].
  eexists _, _. split; [|done]. by apply insert_subseteq.
Qed.

Lemma fs_grows_mkdir_leaf (p : Path) : fs_grows (mkdir_leaf E p).
Proof.
  apply fs_grows_try; [apply fs_grows_os_mkdir|].
  intros []; try apply fs_grows_throw;
    (apply fs_grows_bind; [apply fs_grows_is_dir|]);
    intros []; (apply fs_grows_ret || apply fs_grows_throw).
Qed.

Lemma fs_grows_mkdir_parents (r : string) (rtail : list string) :
  fs_grows (mkdir_parents E r rtail).
Proof.
  induction rtail as [|x rparent IH]; simpl;
    (apply fs_grows_try; [apply fs_grows_os_mkdir|]);
    intros []; try apply fs_grows_throw;
    try (apply fs_grows_bind; [apply fs_grows_is_dir|];
         intros []; (apply fs_grows_ret || apply fs_grows_throw)).
  apply fs_grows_bind; [exact IH|]. intros _. apply fs_grows_mkdir_leaf.
Qed.

Lemma fs_grows_mkdir (p : Path) : fs_grows (mkdir E p).
Proof. apply fs_grows_mkdir_parents. Qed.

Lemma grows_exists (p : Path) : grows (exists_ E p).
Proof. apply fs_grows_grows, fs_grows_exists. Qed.

Lemma grows_mkdir (p : Path) : grows (mkdir E p).
Proof. apply fs_grows_grows, fs_grows_mkdir. Qed.

Lemma grows_open_read (p : Path) : grows (open_read E p).
Proof.
  intros w. exists []. unfold open_read.
  destruct (stat E p w) as [[|d]|]; simpl; by rewrite app_nil_r.
Qed.

(** ** Starting a program *)

Lemma sp_run_trace (args : list string) (cwd : option Path) (capture : bool)
    (w : World) :
  trace (snd (sp_run E args cwd capture w)) = trace w ++ [Run args cwd].
Proof.
  unfold sp_run.
  destruct (program E args cwd capture _) as [[rc out|n] m] eqn:Hp;
    destruct cwd as [d|]; try done;
    destruct (stat E d w) as [[|x]|]; done.
Qed.

Lemma grows_sp_run (args : list string) (cwd : option Path) (capture : bool) :
  grows (sp_run E args cwd capture).
Proof. intros w. eexists. apply sp_run_trace. Qed.

Lemma events_sp_run (args : list string) (cwd : option Path) (capture : bool)
    (w : World) :
  events (sp_run E args cwd capture) w = [Run args cwd].
Proof. unfold events. by rewrite sp_run_trace, drop_app_length. Qed.

(** A call whose working directory is there gives what the program
    gives. *)
Lemma sp_run_started (args : list string) (cwd : option Path) (capture : bool)
    (w : World) :
  cwd_ok E cwd w = true ->
  sp_run E args cwd capture w
  = match program E args cwd capture (called args cwd w) with
    | (Exited rc out, m) =>
        (Ok (mkCompleted rc (if capture then Some out else None)),
         mkWorld m (trace w ++ [Run args cwd]))
    | (Failed n, m) => (Raise (OSError n), mkWorld m (trace w ++ [Run args cwd]))
    end.
Proof.
  unfold sp_run, cwd_ok, called. destruct cwd as [d|]; [|done].
  by destruct (stat E d w) as [[|x]|].
Qed.

(** A call whose working directory is missing, or is a file, raises before
    any program starts; nothing changes but the trace. *)
Lemma sp_run_no_cwd (args : list string) (d : Path) (capture : bool)
    (w : World) :
  cwd_ok E (Some d) w = false ->
  sp_run E args (Some d) capture w
  = (Raise (match stat E d w with
            | None => FileNotFoundError
            | Some _ => NotADirectoryError
            end), called args (Some d) w).
Proof.
  unfold sp_run, cwd_ok, called. by destruct (stat E d w) as [[|x]|].
Qed.

End Primitives.

#[global] Hint Resolve grows_exists grows_mkdir grows_open_read grows_sp_run
  : grows.

(** ** What each stage prints and runs *)

Lemma grows_print (msg : string) : grows (print msg).
Proof. apply grows_log. Qed.

Lemma events_print (msg : string) (w : World) :
  events (print msg) w = [Print msg].
Proof. apply events_log. Qed.

#[global] Hint Resolve grows_print : grows.
#[global] Hint Extern 5 (grows (match ?x with _ => _ end)) =>
  destruct x : grows.

Ltac solve_grows := solve [eauto 12 with grows].

(** One step of reading the events of a stage off its text. *)
Ltac events_step :=
  first
    [ rewrite events_bind by solve_grows
    | rewrite events_print
    | rewrite events_ret
    | rewrite events_throw
    | rewrite events_sp_run
    | rewrite fs_grows_events by
        first [ apply fs_grows_exists | apply fs_grows_mkdir ] ].

#[global] Arguments sp_run : simpl never.
#[global] Arguments mkdir : simpl never.
#[global] Arguments dereference_rev : simpl never.

(** Case analysis on the next call, directory creation or resolution. *)
Ltac case_run :=
  match goal with
  | |- context [sp_run ?E ?a ?d ?c ?w] =>
      destruct (sp_run E a d c w) as [[?res|?e] ?w']
  end.

Ltac case_mkdir :=
  match goal with
  | |- context [fst (mkdir ?E ?d ?w)] =>
      destruct (fst (mkdir E d w)) as [[]|?e]
  end.

Section Stages.

Context (E : Env).

Lemma grows_clone (p : Project) : grows (clone E p).
Proof. unfold clone. solve_grows. Qed.

Lemma grows_checkout (p : Project) : grows (checkout E p).
Proof. unfold checkout. solve_grows. Qed.

Lemma grows_dereference_rev (p : Project) : grows (dereference_rev E p).
Proof. unfold dereference_rev. solve_grows. Qed.

Lemma grows_dump_deps (p : Project) : grows (dump_deps E p).
Proof. unfold dump_deps. solve_grows. Qed.

Lemma grows_dump_cochange_db (p : Project) : grows (dump_cochange_db E p).
Proof. unfold dump_cochange_db. solve_grows. Qed.

Hint Resolve grows_dereference_rev : grows.

Lemma grows_add_deps_to_db (p : Project) : grows (add_deps_to_db E p).
Proof. unfold add_deps_to_db. solve_grows. Qed.

Hint Resolve grows_clone grows_checkout grows_dump_deps
  grows_dump_cochange_db grows_add_deps_to_db : grows.

Lemma grows_stages (p : Project) : grows (stages E p).
Proof. unfold stages. solve_grows. Qed.

Hint Resolve grows_stages : grows.

Lemma grows_for_each (ps : list Project) : grows (for_each E ps).
Proof. induction ps; simpl; solve_grows. Qed.

Lemma grows_load_projects : grows (load_projects E).
Proof. unfold load_projects, Project_of_row. solve_grows. Qed.

Lemma exists_run (p : Path) (w : World) :
  exists_ E p w = (Ok (present E p w), w).
Proof. reflexivity. Qed.

Lemma print_run (msg : string) (w : World) :
  print msg w = (Ok tt, mkWorld (fs w) (trace w ++ [Print msg])).
Proof. reflexivity. Qed.

(** [mkdir] after a line was printed: the same result, the same nodes. *)
Lemma mkdir_after_print (d : Path) (w : World) (t : list Event) :
  mkdir E d (mkWorld (fs w) t)
  = (fst (mkdir E d w), mkWorld (fs (snd (mkdir E d w))) t).
Proof. apply fs_grows_frame, fs_grows_mkdir. Qed.

Ltac stage_events :=
  repeat first
    [ events_step
    | rewrite exists_run
    | rewrite print_run
    | rewrite mkdir_after_print
    | progress simpl ].

Lemma clone_events (p : Project) (w : World) :
  events (clone E p) w
  = if present E (get_project_path (name p)) w
    then [Print ("Skipped " +:+ name p +:+ ". Already cloned.")]
    else [Print ("Cloning " +:+ name p +:+ "..."); Run (clone_args p) None].
Proof.
  unfold clone. stage_events.
  destruct (present E (get_project_path (name p)) w); stage_events; [done|].
  case_run; by stage_events.
Qed.

Lemma checkout_events (p : Project) (w : World) :
  events (checkout E p) w
  = [ Print ("Switching " +:+ name p +:+ " to " +:+ rev p);
      Run (checkout_args p) (Some (get_project_path (name p))) ].
Proof. unfold checkout. stage_events. case_run; by stage_events. Qed.

Lemma dereference_rev_events (p : Project) (w : World) :
  events (dereference_rev E p) w
  = [Run (dereference_rev_args p) (Some (get_project_path (name p)))].
Proof.
  unfold dereference_rev. stage_events. case_run; [|done].
  unfold check_returncode. case_decide; stage_events; [|done].
  destruct (utf8_decode E _); by stage_events.
Qed.

Lemma dump_deps_events (p : Project) (w : World) :
  events (dump_deps E p) w
  = if present E (get_dep_path (name p)) w
    then [Print ("Skipped " +:+ name p +:+ ". Already has deps dumped.")]
    else Print ("Extracting dependency info from " +:+ name p)
         :: if succeeds (mkdir E (absolute E DEPS_DIR)) w
            then [Run (dump_deps_args E p) (Some (get_project_path (name p)))]
            else [].
Proof.
  unfold dump_deps, succeeds. stage_events.
  destruct (present E (get_dep_path (name p)) w); stage_events; [done|].
  case_mkdir; [|done]. stage_events. case_run; by stage_events.
Qed.

Lemma dump_cochange_db_events (p : Project) (w : World) :
  events (dump_cochange_db E p) w
  = if present E (get_db_path (name p)) w
    then [Print ("Skipped " +:+ name p +:+ ". Already has cochange db.")]
    else Print ("Dumping cochange info into db for " +:+ name p +:+ "...")
         :: if succeeds (mkdir E (parent (get_db_path (name p)))) w
            then [Run (dump_cochange_db_args E p) None]
            else [].
Proof.
  unfold dump_cochange_db, succeeds. stage_events.
  destruct (present E (get_db_path (name p)) w); stage_events; [done|].
  case_mkdir; [|done]. stage_events. case_run; by stage_events.
Qed.

Lemma add_deps_to_db_events (p : Project) (w : World) :
  events (add_deps_to_db E p) w
  = Print ("Adding deps to the db of " +:+ name p +:+ "...")
    :: if succeeds (mkdir E (parent (get_db_path (name p)))) w
       then Run (dereference_rev_args p) (Some (get_project_path (name p)))
            :: match fst (dereference_rev E p (merge_ready E p w)) with
               | Ok commit => [Run (add_deps_args E p commit) None]
               | Raise _ => []
               end
       else [].
Proof.
  unfold add_deps_to_db, succeeds, merge_ready. stage_events.
  case_mkdir; [|done]. stage_events. rewrite dereference_rev_events.
  destruct (dereference_rev E p _) as [[commit|e] w']; [|done].
  stage_events. case_run; by stage_events.
Qed.

End Stages.

#[global] Hint Resolve grows_clone grows_checkout grows_dump_deps
  grows_dump_cochange_db grows_add_deps_to_db grows_dereference_rev
  grows_stages grows_for_each grows_load_projects : grows.

(** ** Loading the registry *)

Section Registry.

Context (E : Env).

Lemma Project_of_row_ok (r : list string) (w : World) :
  3 <= length r -> Project_of_row r w = (Ok (row_project r), w).
Proof.
  destruct r as [|a [|b [|c r]]]; simpl; try lia. done.
Qed.

Lemma Project_of_row_short (r : list string) (w : World) :
  length r < 3 -> Project_of_row r w = (Raise IndexError, w).
Proof.
  destruct r as [|a [|b [|c r]]]; simpl; try lia; done.
Qed.

Lemma comprehension_ok (rows : list (list string)) (w : World) :
  Forall (fun r => 3 <= length r) rows ->
  comprehension Project_of_row rows w = (Ok (map row_project rows), w).
Proof.
  induction 1 as [|r rs Hr _ IH]; [done|]. simpl.
  by rewrite bind_unfold, Project_of_row_ok, bind_unfold, IH.
Qed.

Lemma comprehension_short (rows : list (list string)) (w : World) :
  Exists (fun r => length r < 3) rows ->
  comprehension Project_of_row rows w = (Raise IndexError, w).
Proof.
  induction rows as [|r rs IH]; intros Hex; [by apply Exists_nil in Hex|].
  simpl. rewrite bind_unfold.
  destruct (decide (length r < 3)) as [Hr|Hr].
  - by rewrite Project_of_row_short.
  - rewrite Project_of_row_ok by lia. rewrite bind_unfold, IH; [done|].
    apply Exists_cons in Hex as [?|?]; done.
Qed.

Lemma load_projects_ok (w : World) (text : string) :
  stat E PROJECTS_CSV w = Some (File text) ->
  Forall (fun r => 3 <= length r) (csv_reader E text) ->
  load_projects E w = (Ok (map row_project (csv_reader E text)), w).
Proof.
  intros Hs Hrows. unfold load_projects. rewrite bind_unfold.
  unfold open_read. rewrite Hs. by apply comprehension_ok.
Qed.

(** C7: when the table is absent the load raises [FileNotFoundError], and
    when one of its rows has fewer than three fields it raises
    [IndexError]; either way the load returns no list, the error is the
    result of the whole run, and the world is as it was: nothing was
    printed, run or written, so no stage began. *)
Theorem load_failure_ends_run (w : World) :
  (stat E PROJECTS_CSV w = None ->
   load_projects E w = (Raise FileNotFoundError, w)
   /\ main E w = (Raise FileNotFoundError, w)
   /\ events (main E) w = [])
  /\ (forall text,
        stat E PROJECTS_CSV w = Some (File text) ->
        Exists (fun r => length r < 3) (csv_reader E text) ->
        load_projects E w = (Raise IndexError, w)
        /\ main E w = (Raise IndexError, w)
        /\ events (main E) w = []).
Proof.
  split.
  - intros Hs.
    assert (Hl : load_projects E w = (Raise FileNotFoundError, w)).
    { unfold load_projects. rewrite bind_unfold. unfold open_read.
      by rewrite Hs. }
    assert (Hm : main E w = (Raise FileNotFoundError, w)).
    { unfold main. by rewrite bind_unfold, Hl. }
    repeat split; [done | done |].
    unfold events. by rewrite Hm, drop_all.
  - intros text Hs Hex.
    assert (Hl : load_projects E w = (Raise IndexError, w)).
    { unfold load_projects. rewrite bind_unfold. unfold open_read.
      rewrite Hs. by apply comprehension_short. }
    assert (Hm : main E w = (Raise IndexError, w)).
    { unfold main. by rewrite bind_unfold, Hl. }
    repeat split; [done | done |].
    unfold events. by rewrite Hm, drop_all.
Qed.

End Registry.

(** ** The extractor call *)

(** C8: whatever the world, every program the extract stage starts is the
    extractor with the argument list [dump_deps_args], in the working copy;
    the list is the same for two descriptors of the same name; it names the
    output after the project and holds the flags for structure granularity,
    Unix names, self-dependencies and leading-path stripping, and the shared
    dependency directory as output directory. *)
Theorem dump_deps_call (E : Env) (p : Project) (w : World) :
  Forall (fun e => match e with
                   | Run args cwd =>
                       args = dump_deps_args E p
                       /\ cwd = Some (get_project_path (name p))
                   | Print _ => True
                   end) (events (dump_deps E p) w)
  /\ (forall q, name q = name p -> dump_deps_args E q = dump_deps_args E p)
  /\ tool_of (dump_deps_args E p) = Some Extract
  /\ dump_deps_args E p !! 6 = Some (name p +:+ "-deps")
  /\ dump_deps_args E p !! 7 = Some ("--dir=" +:+ str (absolute E DEPS_DIR))
  /\ Forall (fun flag => flag ∈ dump_deps_args E p)
       [ "--output-self-deps"; "--granularity=structure"; "--namepattern=unix";
         "--strip-leading-path" ].
Proof.
  repeat split.
  - rewrite dump_deps_events.
    destruct (present E _ w); [by repeat constructor|].
    destruct (succeeds _ w); by repeat constructor.
  - intros q Hq. unfold dump_deps_args. by rewrite Hq.
  - unfold dump_deps_args. repeat constructor.
Qed.

(** ** The order of the stages *)

Lemma bind_assoc {A B C} (c : M A) (k : A -> M B) (h : B -> M C) (w : World) :
  ((c ≫= k) ≫= h) w = (c ≫= fun a => k a ≫= h) w.
Proof. rewrite !bind_unfold. by destruct (c w) as [[a|e] w']. Qed.

Lemma bind_ext {A B} (c : M A) (k k' : A -> M B) (w : World) :
  (forall a w', k a w' = k' a w') -> (c ≫= k) w = (c ≫= k') w.
Proof. intros H. rewrite !bind_unfold. by destruct (c w) as [[a|e] w']. Qed.

(** The body of the loop followed by [k], one stage after the other. *)
Lemma stages_then (E : Env) (p : Project) (k : M unit) (w : World) :
  (stages E p;; k) w
  = (clone E p;; checkout E p;; dump_deps E p;; dump_cochange_db E p;;
     add_deps_to_db E p;; k) w.
Proof.
  unfold stages. rewrite bind_assoc. apply bind_ext. intros _ w1.
  rewrite bind_assoc. apply bind_ext. intros _ w2.
  rewrite bind_assoc. apply bind_ext. intros _ w3.
  by rewrite bind_assoc.
Qed.

Lemma follows_ext (c c' : M unit) (specs : list (Stage * Project)) :
  (forall w, c w = c' w) -> follows c specs -> follows c' specs.
Proof.
  intros Heq H w. destruct (H w) as (n & Hn & Hok). exists n.
  unfold events in *. rewrite <- Heq. by split.
Qed.

Lemma follows_ret : follows (mret tt) [].
Proof. intros w. exists 0. rewrite events_ret. by split; [constructor|]. Qed.

Lemma follows_step (c k : M unit) (sp : Stage * Project)
    (specs : list (Stage * Project)) :
  grows c -> grows k -> announced c sp -> follows k specs ->
  follows (c;; k) (sp :: specs).
Proof.
  intros Hc Hk Hann Hfol w. destruct (Hann w) as (msg & Hmsg & Hsp).
  rewrite events_bind, prints_app, Hmsg, bind_unfold by done.
  destruct (c w) as [[[]|e] w'].
  - destruct (Hfol w') as (n & Hn & Hok). exists (S n). simpl. split.
    + by constructor.
    + intros H. by rewrite Hok.
  - exists 1. simpl. split; [|done]. rewrite take_0. by repeat constructor.
Qed.

Section Order.

Context (E : Env).

Lemma announced_clone (p : Project) : announced (clone E p) (Fetch, p).
Proof.
  intros w. rewrite clone_events. unfold announces. simpl.
  destruct (present E _ w); eexists; split; try done; set_solver.
Qed.

Lemma announced_checkout (p : Project) : announced (checkout E p) (Pin, p).
Proof.
  intros w. rewrite checkout_events. unfold announces. simpl.
  eexists; split; try done; set_solver.
Qed.

Lemma announced_dump_deps (p : Project) :
  announced (dump_deps E p) (ExtractDeps, p).
Proof.
  intros w. rewrite dump_deps_events. unfold announces. simpl.
  destruct (present E _ w); [|destruct (succeeds _ w)];
    eexists; split; try done; set_solver.
Qed.

Lemma announced_dump_cochange_db (p : Project) :
  announced (dump_cochange_db E p) (InitStore, p).
Proof.
  intros w. rewrite dump_cochange_db_events. unfold announces. simpl.
  destruct (present E _ w); [|destruct (succeeds _ w)];
    eexists; split; try done; set_solver.
Qed.

Lemma announced_add_deps_to_db (p : Project) :
  announced (add_deps_to_db E p) (MergeDeps, p).
Proof.
  intros w. rewrite add_deps_to_db_events. unfold announces. simpl.
  destruct (succeeds _ w); [destruct (fst _)|];
    eexists; split; try done; set_solver.
Qed.

Lemma follows_for_each (ps : list Project) : follows (for_each E ps) (plan ps).
Proof.
  induction ps as [|p ps IH]; [apply follows_ret|].
  apply (follows_ext
           (clone E p;; checkout E p;; dump_deps E p;; dump_cochange_db E p;;
            add_deps_to_db E p;; for_each E ps)).
  { intros w. symmetry. apply stages_then. }
  change (plan (p :: ps))
    with ((Fetch, p) :: (Pin, p) :: (ExtractDeps, p) :: (InitStore, p)
          :: (MergeDeps, p) :: plan ps).
  apply follows_step; [solve_grows | solve_grows | apply announced_clone |].
  apply follows_step; [solve_grows | solve_grows | apply announced_checkout |].
  apply follows_step; [solve_grows | solve_grows | apply announced_dump_deps |].
  apply follows_step;
    [solve_grows | solve_grows | apply announced_dump_cochange_db |].
  apply follows_step;
    [solve_grows | solve_grows | apply announced_add_deps_to_db | exact IH].
Qed.


(** ** The schedule the loop carries out *)

Lemma grows_stage_action (sp : Stage * Project) : grows (stage_action E sp).
Proof. destruct sp as [[] p]; unfold stage_action; simpl; solve_grows. Qed.

Hint Resolve grows_stage_action : grows.

Lemma grows_in_sequence (items : list (Stage * Project)) :
  grows (in_sequence E items).
Proof. induction items; simpl; solve_grows. Qed.

Hint Resolve grows_in_sequence : grows.

(** The loop is the stages of its plan, one after the other. *)
Lemma for_each_in_sequence (ps : list Project) (w : World) :
  for_each E ps w = in_sequence E (plan ps) w.
Proof.
  revert w. induction ps as [|p ps IH]; intros w; [done|].
  change (for_each E (p :: ps)) with (stages E p;; for_each E ps).
  rewrite stages_then.
  change (plan (p :: ps))
    with ((Fetch, p) :: (Pin, p) :: (ExtractDeps, p) :: (InitStore, p)
          :: (MergeDeps, p) :: plan ps).
  simpl. repeat (apply bind_ext; intros _ ?). apply IH.
Qed.

Lemma in_sequence_app (l1 l2 : list (Stage * Project)) (w : World) :
  in_sequence E (l1 ++ l2) w = (in_sequence E l1;; in_sequence E l2) w.
Proof.
  revert w. induction l1 as [|sp l1 IH]; intros w; [done|].
  simpl. rewrite bind_assoc. apply bind_ext. intros _ w1. apply IH.
Qed.

(** What each stage leaves on the trace, when it returns and when it
    raises. *)
Lemma stage_block (sp : Stage * Project) (w : World) :
  match fst (stage_action E sp w) with
  | Ok _ => full_block E sp (events (stage_action E sp) w)
  | Raise _ => cut_block E sp (events (stage_action E sp) w)
  end.
Proof.
  destruct sp as [[] p]; unfold stage_action, full_block, cut_block; simpl.
  - rewrite clone_events. unfold clone.
    rewrite bind_unfold, exists_run.
    destruct (present E (get_project_path (name p)) w); [by left|].
    rewrite bind_unfold, print_run, bind_unfold.
    case_run; simpl; by auto.
  - rewrite checkout_events. by destruct (fst (checkout E p w)).
  - rewrite dump_deps_events. unfold dump_deps, succeeds.
    rewrite bind_unfold, exists_run.
    destruct (present E (get_dep_path (name p)) w); [by left|].
    rewrite bind_unfold, print_run, bind_unfold, mkdir_after_print.
    destruct (fst (mkdir E (absolute E DEPS_DIR) w)) as [[]|e];
      [|simpl; by auto].
    rewrite bind_unfold. case_run; simpl; by auto.
  - rewrite dump_cochange_db_events. unfold dump_cochange_db, succeeds.
    rewrite bind_unfold, exists_run.
    destruct (present E (get_db_path (name p)) w); [by left|].
    rewrite bind_unfold, print_run, bind_unfold, mkdir_after_print.
    destruct (fst (mkdir E (parent (get_db_path (name p))) w)) as [[]|e];
      [|simpl; by auto].
    rewrite bind_unfold. case_run; simpl; by auto.
  - rewrite add_deps_to_db_events. unfold add_deps_to_db, succeeds, merge_ready.
    rewrite bind_unfold, print_run, bind_unfold, mkdir_after_print.
    destruct (fst (mkdir E (parent (get_db_path (name p))) w)) as [[]|e];
      [|simpl; by auto].
    rewrite bind_unfold.
    destruct (dereference_rev E p _) as [[commit|e] w2]; [|simpl; by auto].
    rewrite bind_unfold. case_run; simpl; by eauto.
Qed.

(** Every block begins with the line of its stage. *)
Lemma block_head (sp : Stage * Project) (b : list Event) :
  full_block E sp b \/ cut_block E sp b ->
  exists msg rest, b = Print msg :: rest /\ announces msg sp.
Proof.
  destruct sp as [[] p]; unfold full_block, cut_block, announces; simpl;
    intros H;
    repeat match goal with
           | H : _ \/ _ |- _ => destruct H as [H|H]
           | H : exists _, _ |- _ => destruct H as [? H]
           end;
    subst b; eexists _, _; (split; [reflexivity|]);
    rewrite ?elem_of_cons; by auto.
Qed.

Lemma scheduled_in_sequence (items : list (Stage * Project)) :
  scheduled E (in_sequence E items) items.
Proof.
  induction items as [|sp items IH]; intros w.
  - exists 0, [], []. simpl. rewrite events_ret. repeat split. constructor.
  - simpl. rewrite events_bind, bind_unfold by solve_grows.
    pose proof (stage_block sp w) as Hb.
    destruct (stage_action E sp w) as [[[]|e] w1]; simpl in Hb.
    + destruct (IH w1) as (n & blocks & rest & Hev & Hbl & Hend).
      exists (S n), (events (stage_action E sp) w :: blocks), rest.
      simpl. rewrite Hev, <- (assoc_L (++)). split; [done|].
      split; [by constructor|].
      destruct (fst (in_sequence E items w1)); [|done].
      destruct Hend as [-> ->]. done.
    + exists 0, [], (events (stage_action E sp) w). simpl.
      rewrite app_nil_r. repeat split; [constructor|]. by exists sp.
Qed.

(** C2: when the table is there and each of its rows has three fields, the
    projects loaded are the rows in the order of the file, one descriptor
    per row (so a repeated row is loaded twice), and the run is the stages
    of the plan of that list carried out strictly one after the other:
    fetch, pin, extract, initialise, merge of the first project, then those
    of the second, and so on.  On the trace: the lines printed announce a
    beginning of the plan, all of it when the run returns; and the events,
    lines and calls together, are the blocks of the stages in that order,
    each block the line of its stage followed by the calls of that stage
    and of no other (the clone call; the checkout call; the extractor
    call; the dump call; the resolution and then the add-deps call).  A
    run that returns has left the full block of every stage of every
    project; a run that raises has left the full blocks of the stages
    before the one that raised, then what that stage did, and nothing of a
    later stage or project. *)
Theorem run_follows_registry (w : World) (text : string) :
  stat E PROJECTS_CSV w = Some (File text) ->
  Forall (fun r => 3 <= length r) (csv_reader E text) ->
  let ps := map row_project (csv_reader E text) in
  load_projects E w = (Ok ps, w)
  /\ main E w = for_each E ps w
  /\ main E w = in_sequence E (plan ps) w
  /\ (exists n,
        Forall2 announces (prints (events (main E) w)) (take n (plan ps))
        /\ (fst (main E w) = Ok tt -> n = length (plan ps)))
  /\ exists n blocks rest,
       events (main E) w = concat blocks ++ rest
       /\ Forall2 (full_block E) (take n (plan ps)) blocks
       /\ match fst (main E w) with
          | Ok _ => n = length (plan ps) /\ rest = []
          | Raise _ =>
              exists sp, plan ps !! n = Some sp /\ cut_block E sp rest
          end.
Proof.
  intros Hs Hrows ps.
  pose proof (load_projects_ok E w text Hs Hrows) as Hl.
  assert (Hm : main E w = for_each E ps w)
    by (unfold main; by rewrite bind_unfold, Hl).
  assert (Hseq : main E w = in_sequence E (plan ps) w)
    by (by rewrite Hm, for_each_in_sequence).
  split; [done|]. split; [done|]. split; [done|]. split.
  - destruct (follows_for_each ps w) as (n & Hn & Hok).
    exists n. unfold events. rewrite Hm. by split.
  - destruct (scheduled_in_sequence (plan ps) w)
      as (n & blocks & rest & Hev & Hbl & Hend).
    exists n, blocks, rest. unfold events in *. rewrite Hseq. by repeat split.
Qed.

End Order.

#[global] Hint Resolve grows_stage_action grows_in_sequence : grows.

(** ** Resolving the revision and merging *)

Section Merge.

Context (E : Env).

Lemma add_deps_to_db_resolve (p : Project) (w : World) :
  add_deps_to_db E p w
  = (resolve_in_merge E p ≫= fun commit =>
       sp_run E (add_deps_args E p commit) None false ≫= fun _ => mret tt) w.
Proof.
  unfold add_deps_to_db, resolve_in_merge.
  rewrite bind_assoc. apply bind_ext. intros _ w1. by rewrite bind_assoc.
Qed.

Lemma resolve_in_merge_run (p : Project) (w : World) :
  resolve_in_merge E p w
  = match fst (mkdir E (parent (get_db_path (name p))) w) with
    | Ok _ => dereference_rev E p (merge_ready E p w)
    | Raise e => (Raise e, merge_ready E p w)
    end.
Proof.
  unfold resolve_in_merge, merge_ready.
  rewrite bind_unfold, print_run, bind_unfold, mkdir_after_print.
  by case_mkdir.
Qed.

(** A directory that [mkdir] made, or found, is a directory. *)
Lemma os_mkdir_ok (d : Path) (w w' : World) :
  os_mkdir E d w = (Ok tt, w') -> stat E d w' = Some Dir.
Proof.
  unfold os_mkdir, stat at 2.
  destruct (tail (absolute E d)) as [|x xs] eqn:Ht; [done|].
  destruct (stat E (parent (absolute E d)) w) as [[|?]|]; try done.
  destruct (fs w !! absolute E d); [done|].
  intros [= <-]. simpl. by rewrite lookup_insert_eq.
Qed.

Lemma is_dir_run (d : Path) (w : World) :
  is_dir E d w
  = (Ok (match stat E d w with Some Dir => true | _ => false end), w).
Proof. reflexivity. Qed.

Lemma found_dir_ok (d : Path) (n : Errno) (w w' : World) :
  (is_dir E d ≫= fun b : bool => if b then mret tt else mthrow (OSError n)) w
  = (Ok tt, w') ->
  stat E d w' = Some Dir.
Proof.
  rewrite bind_unfold, is_dir_run.
  destruct (stat E d w) as [[|?]|] eqn:Hs; try done.
  by intros [= <-].
Qed.

Lemma mkdir_leaf_ok (d : Path) (w w' : World) :
  mkdir_leaf E d w = (Ok tt, w') -> stat E d w' = Some Dir.
Proof.
  unfold mkdir_leaf, try_except_OSError.
  destruct (os_mkdir E d w) as [[[]|[n| | |]] w1] eqn:Hm; try done.
  - intros [= <-]. by eapply os_mkdir_ok.
  - destruct n; try done; apply found_dir_ok.
Qed.

Lemma mkdir_parents_ok (r : string) (rtail : list string) (w w' : World) :
  mkdir_parents E r rtail w = (Ok tt, w') ->
  stat E (mkPath r (reverse rtail)) w' = Some Dir.
Proof.
  destruct rtail as [|x rparent]; simpl; unfold try_except_OSError;
    (destruct (os_mkdir E _ w) as [[[]|[n| | |]] w1] eqn:Hm; try done;
     [ intros [= <-]; by eapply os_mkdir_ok | ]);
    destruct n; try done; try apply found_dir_ok.
  rewrite bind_unfold.
  destruct (mkdir_parents E r rparent w1) as [[[]|e] w2]; [|done].
  apply mkdir_leaf_ok.
Qed.

Lemma mkdir_ok (d : Path) (w w' : World) :
  mkdir E d w = (Ok tt, w') -> stat E d w' = Some Dir.
Proof.
  unfold mkdir. intros H. apply mkdir_parents_ok in H.
  rewrite reverse_involutive in H. by destruct d.
Qed.

Lemma dereference_rev_started (p : Project) (w : World) (rc : Z)
    (out : list Byte.byte) (m : gmap Path Node) :
  cwd_ok E (Some (get_project_path (name p))) w = true ->
  program E (dereference_rev_args p) (Some (get_project_path (name p))) true
    (called (dereference_rev_args p) (Some (get_project_path (name p))) w)
  = (Exited rc out, m) ->
  dereference_rev E p w
  = (if decide (rc = 0%Z) then
       match utf8_decode E out with
       | Some s => Ok (strip s)
       | None => Raise UnicodeDecodeError
       end
     else Raise (CalledProcessError rc),
     mkWorld m (trace w ++ [Run (dereference_rev_args p)
                              (Some (get_project_path (name p)))])).
Proof.
  intros Hcwd Hp. unfold dereference_rev.
  rewrite bind_unfold, sp_run_started, Hp by done.
  unfold check_returncode. simpl. rewrite bind_unfold.
  case_decide; [|done]. simpl. by destruct (utf8_decode E out).
Qed.

(** C4: let the resolution program run in the working copy and exit with
    status [rc], having written [out].  With [rc = 0], [dereference_rev]
    returns the decoded output stripped of surrounding white space.  With
    any other status it raises [CalledProcessError]; then a merge stage
    that has come to the resolution raises the same error and its events
    hold no add-deps call. *)
Theorem dereference_rev_outcomes (p : Project) (w : World) (rc : Z)
    (out : list Byte.byte) (m : gmap Path Node) :
  let wc := get_project_path (name p) in
  let w' := mkWorld m (trace w ++ [Run (dereference_rev_args p) (Some wc)]) in
  cwd_ok E (Some wc) w = true ->
  program E (dereference_rev_args p) (Some wc) true
    (called (dereference_rev_args p) (Some wc) w) = (Exited rc out, m) ->
  (rc = 0%Z ->
   forall s, utf8_decode E out = Some s ->
             dereference_rev E p w = (Ok (strip s), w'))
  /\ (rc <> 0%Z ->
      dereference_rev E p w = (Raise (CalledProcessError rc), w')
      /\ forall w0,
           succeeds (mkdir E (parent (get_db_path (name p)))) w0 = true ->
           merge_ready E p w0 = w ->
           add_deps_to_db E p w0 = (Raise (CalledProcessError rc), w')
           /\ invocations AddDeps (events (add_deps_to_db E p) w0) = 0).
Proof.
  intros wc w' Hcwd Hp.
  pose proof (dereference_rev_started p w rc out m Hcwd Hp) as Hd.
  split.
  - intros -> s Hs. rewrite Hd, Hs. by rewrite decide_True.
  - intros Hrc. rewrite decide_False in Hd by done. split; [done|].
    intros w0 Hmk Hw0. split.
    + rewrite add_deps_to_db_resolve, bind_unfold, resolve_in_merge_run.
      unfold succeeds in Hmk. destruct (fst (mkdir E _ w0)); [|done].
      by rewrite Hw0, Hd.
    + rewrite add_deps_to_db_events, Hmk, Hw0, Hd. reflexivity.
Qed.

(** C9: the merge stage looks at neither the database nor the dependency
    file.  Whenever its resolution of the revision returns a commit, the
    directory of the database is a directory once the stage has made it,
    and the stage goes on to call add-deps with the database path, that
    commit and the dependency path: its events are its line, the
    resolution and that call, whether or not the two files exist. *)
Theorem add_deps_to_db_unguarded (p : Project) (w w2 : World)
    (commit : string) :
  resolve_in_merge E p w = (Ok commit, w2) ->
  stat E (parent (get_db_path (name p))) (merge_ready E p w) = Some Dir
  /\ add_deps_to_db E p w
     = (sp_run E (add_deps_args E p commit) None false ≫= fun _ => mret tt) w2
  /\ events (add_deps_to_db E p) w
     = [ Print ("Adding deps to the db of " +:+ name p +:+ "...");
         Run (dereference_rev_args p) (Some (get_project_path (name p)));
         Run (add_deps_args E p commit) None ]
  /\ add_deps_args E p commit
     = [ str (absolute E COCHANGE_TOOL_BIN); "add-deps";
         "--db"; str (get_db_path (name p));
         "--commit"; commit;
         "--dep-file"; str (get_dep_path (name p)) ]
  /\ tool_of (add_deps_args E p commit) = Some AddDeps.
Proof.
  intros Hres. repeat split.
  - rewrite resolve_in_merge_run in Hres.
    destruct (mkdir E (parent (get_db_path (name p))) w) as [[[]|e] w1] eqn:Hm0;
      [|done].
    pose proof Hm0 as Hm.
    apply mkdir_ok in Hm. rewrite <- Hm. apply stat_fs.
    unfold merge_ready. simpl. by rewrite Hm0.
  - by rewrite add_deps_to_db_resolve, bind_unfold, Hres.
  - rewrite add_deps_to_db_events. rewrite resolve_in_merge_run in Hres.
    unfold succeeds. destruct (fst (mkdir E _ w)); [|done]. by rewrite Hres.
Qed.

End Merge.

(** ** A working copy that is not there *)

Section MissingWorkingCopy.

Context (E : Env).

Lemma checkout_run (p : Project) (w : World) :
  checkout E p w
  = (sp_run E (checkout_args p) (Some (get_project_path (name p))) false
     ≫= fun _ => mret tt)
      (mkWorld (fs w)
         (trace w ++ [Print ("Switching " +:+ name p +:+ " to " +:+ rev p)])).
Proof. reflexivity. Qed.

(** The loop from the pin stage of its first project on. *)
Lemma for_each_from_checkout (p : Project) (ps : list Project)
    (w0 w : World) :
  clone E p w0 = (Ok tt, w) ->
  for_each E (p :: ps) w0
  = (checkout E p;; dump_deps E p;; dump_cochange_db E p;;
     add_deps_to_db E p;; for_each E ps) w.
Proof.
  intros Hc. simpl. by rewrite stages_then, bind_unfold, Hc.
Qed.

(** The loop from the merge stage of its first project on. *)
Lemma for_each_from_add_deps (p : Project) (ps : list Project)
    (w0 w1 w2 w3 w : World) :
  clone E p w0 = (Ok tt, w1) ->
  checkout E p w1 = (Ok tt, w2) ->
  dump_deps E p w2 = (Ok tt, w3) ->
  dump_cochange_db E p w3 = (Ok tt, w) ->
  for_each E (p :: ps) w0 = (add_deps_to_db E p;; for_each E ps) w.
Proof.
  intros H1 H2 H3 H4. simpl. rewrite stages_then.
  by rewrite bind_unfold, H1, bind_unfold, H2, bind_unfold, H3, bind_unfold, H4.
Qed.

(** C10: when the working copy is not a directory as the pin stage
    starts, the checkout call raises the error of the missing directory
    ([FileNotFoundError] when nothing is there) without starting any
    program, and the loop ends with that error right there, the later
    stages and projects untouched; the same holds for the resolution call
    of the merge stage.  When the working copy is a directory, the
    checkout and the resolution calls do start their program, and what
    they give is what the program gives. *)
Theorem missing_working_copy (p : Project) (w : World) :
  let wc := get_project_path (name p) in
  let pin :=
    called (checkout_args p) (Some wc)
      (printed ("Switching " +:+ name p +:+ " to " +:+ rev p) w) in
  let resolution := called (dereference_rev_args p) (Some wc) w in
  (cwd_ok E (Some wc) w = false ->
   (stat E wc w = None -> chdir_error E wc w = FileNotFoundError)
   /\ checkout E p w = (Raise (chdir_error E wc w), pin)
   /\ (forall ps w0,
         clone E p w0 = (Ok tt, w) ->
         for_each E (p :: ps) w0 = (Raise (chdir_error E wc w), pin))
   /\ dereference_rev E p w = (Raise (chdir_error E wc w), resolution)
   /\ (forall ps w0 w1 w2 w3 w4,
         clone E p w0 = (Ok tt, w1) ->
         checkout E p w1 = (Ok tt, w2) ->
         dump_deps E p w2 = (Ok tt, w3) ->
         dump_cochange_db E p w3 = (Ok tt, w4) ->
         succeeds (mkdir E (parent (get_db_path (name p)))) w4 = true ->
         merge_ready E p w4 = w ->
         for_each E (p :: ps) w0 = (Raise (chdir_error E wc w), resolution)))
  /\ (cwd_ok E (Some wc) w = true ->
      checkout E p w
      = match program E (checkout_args p) (Some wc) false pin with
        | (Exited _ _, m) => (Ok tt, mkWorld m (trace pin))
        | (Failed n, m) => (Raise (OSError n), mkWorld m (trace pin))
        end
      /\ sp_run E (dereference_rev_args p) (Some wc) true w
         = match program E (dereference_rev_args p) (Some wc) true
                   resolution with
           | (Exited rc out, m) =>
               (Ok (mkCompleted rc (Some out)), mkWorld m (trace resolution))
           | (Failed n, m) =>
               (Raise (OSError n), mkWorld m (trace resolution))
           end).
Proof.
  intros wc pin resolution. split.
  - intros Hcwd.
    assert (Hco : checkout E p w = (Raise (chdir_error E wc w), pin)).
    { by rewrite checkout_run, bind_unfold, sp_run_no_cwd by done. }
    assert (Hde : dereference_rev E p w
                  = (Raise (chdir_error E wc w), resolution)).
    { unfold dereference_rev.
      by rewrite bind_unfold, sp_run_no_cwd by done. }
    repeat split.
    + unfold chdir_error. by intros ->.
    + exact Hco.
    + intros ps w0 Hc. rewrite (for_each_from_checkout p ps w0 w Hc).
      by rewrite bind_unfold, Hco.
    + exact Hde.
    + intros ps w0 w1 w2 w3 w4 H1 H2 H3 H4 Hmk Hw.
      rewrite (for_each_from_add_deps p ps w0 w1 w2 w3 w4) by done.
      rewrite bind_unfold, add_deps_to_db_resolve, bind_unfold.
      rewrite resolve_in_merge_run. unfold succeeds in Hmk.
      destruct (fst (mkdir E _ w4)); [|done]. by rewrite Hw, Hde.
  - intros Hcwd. repeat split.
    + rewrite checkout_run, bind_unfold, sp_run_started by done.
      fold (printed ("Switching " +:+ name p +:+ " to " +:+ rev p) w).
      fold wc. fold pin.
      by destruct (program E (checkout_args p) (Some wc) false pin)
        as [[rc out|n] m].
    + by apply sp_run_started.
Qed.

End MissingWorkingCopy.

(** ** Exit statuses *)

Lemma bind_cong {A B} (c c' : M A) (k k' : A -> M B) (w : World) :
  c w = c' w -> (forall a w', k a w' = k' a w') ->
  (c ≫= k) w = (c' ≫= k') w.
Proof.
  intros Hc Hk. rewrite !bind_unfold, Hc. by destruct (c' w) as [[a|e] w'].
Qed.

Section Status.

Context (E : Env) (f : list string -> World -> Z -> Z).

Let E' : Env := with_status f E.

(** Directories are made the same way: nothing there starts a program. *)
Lemma status_mkdir_parents (r : string) (rtail : list string) (w : World) :
  mkdir_parents E' r rtail w = mkdir_parents E r rtail w.
Proof. reflexivity. Qed.

Lemma status_mkdir (d : Path) (w : World) : mkdir E' d w = mkdir E d w.
Proof. apply status_mkdir_parents. Qed.

(** A call whose output is captured sees the status the program gave. *)
Lemma status_sp_run_captured (args : list string) (cwd : option Path)
    (w : World) :
  sp_run E' args cwd true w = sp_run E args cwd true w.
Proof.
  unfold sp_run. simpl.
  by destruct (program E args cwd true _) as [[rc out|n] m].
Qed.

(** A call whose result is dropped goes on the same way whatever the
    status. *)
Lemma status_sp_run_dropped {B} (args : list string) (cwd : option Path)
    (k : M B) (w : World) :
  (sp_run E' args cwd false ≫= fun _ => k) w
  = (sp_run E args cwd false ≫= fun _ => k) w.
Proof.
  rewrite !bind_unfold. unfold sp_run. simpl.
  destruct (program E args cwd false _) as [[rc out|n] m];
    destruct cwd as [d|]; try done;
    change (stat E' d w) with (stat E d w);
    by destruct (stat E d w) as [[|x]|].
Qed.

Lemma status_dereference_rev (p : Project) (w : World) :
  dereference_rev E' p w = dereference_rev E p w.
Proof.
  unfold dereference_rev. apply bind_cong; [|done].
  apply status_sp_run_captured.
Qed.

Lemma status_clone (p : Project) (w : World) : clone E' p w = clone E p w.
Proof.
  unfold clone. apply bind_cong; [done|]. intros [] w1; [done|].
  apply bind_cong; [done|]. intros _ w2. apply status_sp_run_dropped.
Qed.

Lemma status_checkout (p : Project) (w : World) :
  checkout E' p w = checkout E p w.
Proof.
  unfold checkout. apply bind_cong; [done|]. intros _ w1.
  apply status_sp_run_dropped.
Qed.

Lemma status_dump_deps (p : Project) (w : World) :
  dump_deps E' p w = dump_deps E p w.
Proof.
  unfold dump_deps. apply bind_cong; [done|]. intros [] w1; [done|].
  apply bind_cong; [done|]. intros _ w2.
  apply bind_cong; [apply status_mkdir|]. intros _ w3.
  apply status_sp_run_dropped.
Qed.

Lemma status_dump_cochange_db (p : Project) (w : World) :
  dump_cochange_db E' p w = dump_cochange_db E p w.
Proof.
  unfold dump_cochange_db. apply bind_cong; [done|]. intros [] w1; [done|].
  apply bind_cong; [done|]. intros _ w2.
  apply bind_cong; [apply status_mkdir|]. intros _ w3.
  apply status_sp_run_dropped.
Qed.

Lemma status_add_deps_to_db (p : Project) (w : World) :
  add_deps_to_db E' p w = add_deps_to_db E p w.
Proof.
  unfold add_deps_to_db. apply bind_cong; [done|]. intros _ w1.
  apply bind_cong; [apply status_mkdir|]. intros _ w2.
  apply bind_cong; [apply status_dereference_rev|]. intros commit w3.
  apply status_sp_run_dropped.
Qed.

Lemma status_stages (p : Project) (w : World) : stages E' p w = stages E p w.
Proof.
  unfold stages.
  apply bind_cong; [apply status_clone|]. intros _ w1.
  apply bind_cong; [apply status_checkout|]. intros _ w2.
  apply bind_cong; [apply status_dump_deps|]. intros _ w3.
  apply bind_cong; [apply status_dump_cochange_db|]. intros _ w4.
  apply status_add_deps_to_db.
Qed.

Lemma status_for_each (ps : list Project) (w : World) :
  for_each E' ps w = for_each E ps w.
Proof.
  revert w. induction ps as [|p ps IH]; intros w; [done|].
  simpl. apply bind_cong; [apply status_stages|]. by intros _ w1.
Qed.

Lemma status_main (w : World) : main E' w = main E w.
Proof.
  unfold main. apply bind_cong; [done|]. intros ps w1. apply status_for_each.
Qed.

End Status.

Section Continue.

Context (E : Env).

(** A call whose result is dropped returns when its program exits, with
    whatever status. *)
Lemma call_returns (args : list string) (cwd : option Path) (w : World) :
  cwd_ok E cwd w = true ->
  exited (program E args cwd false (called args cwd w)) = true ->
  fst ((sp_run E args cwd false ≫= fun _ => mret tt) w) = Ok tt.
Proof.
  intros Hcwd Hex. rewrite bind_unfold, sp_run_started by done.
  unfold exited in Hex.
  by destruct (program E args cwd false _) as [[rc out|n] m].
Qed.

Lemma clone_returns (p : Project) (w : World) :
  present E (get_project_path (name p)) w = false ->
  exited (program E (clone_args p) None false
            (called (clone_args p) None
               (printed ("Cloning " +:+ name p +:+ "...") w))) = true ->
  fst (clone E p w) = Ok tt.
Proof.
  intros Hp Hex. unfold clone. rewrite bind_unfold, exists_run, Hp.
  rewrite bind_unfold, print_run. by apply call_returns.
Qed.

Lemma checkout_returns (p : Project) (w : World) :
  let wc := get_project_path (name p) in
  cwd_ok E (Some wc) w = true ->
  exited (program E (checkout_args p) (Some wc) false
            (called (checkout_args p) (Some wc)
               (printed ("Switching " +:+ name p +:+ " to " +:+ rev p) w)))
  = true ->
  fst (checkout E p w) = Ok tt.
Proof.
  intros wc Hcwd Hex. unfold checkout. rewrite bind_unfold, print_run.
  by apply call_returns.
Qed.

Lemma dump_deps_returns (p : Project) (w : World) :
  let wc := get_project_path (name p) in
  let w1 := prepared E (absolute E DEPS_DIR)
              ("Extracting dependency info from " +:+ name p) w in
  present E (get_dep_path (name p)) w = false ->
  succeeds (mkdir E (absolute E DEPS_DIR)) w = true ->
  cwd_ok E (Some wc) w1 = true ->
  exited (program E (dump_deps_args E p) (Some wc) false
            (called (dump_deps_args E p) (Some wc) w1)) = true ->
  fst (dump_deps E p w) = Ok tt.
Proof.
  intros wc w1 Hp Hmk Hcwd Hex. unfold dump_deps.
  rewrite bind_unfold, exists_run, Hp.
  rewrite bind_unfold, print_run, bind_unfold, mkdir_after_print.
  unfold succeeds in Hmk. destruct (fst (mkdir E _ w)) as [[]|e]; [|done].
  by apply call_returns.
Qed.

Lemma dump_cochange_db_returns (p : Project) (w : World) :
  let w1 := prepared E (parent (get_db_path (name p)))
              ("Dumping cochange info into db for " +:+ name p +:+ "...") w in
  present E (get_db_path (name p)) w = false ->
  succeeds (mkdir E (parent (get_db_path (name p)))) w = true ->
  exited (program E (dump_cochange_db_args E p) None false
            (called (dump_cochange_db_args E p) None w1)) = true ->
  fst (dump_cochange_db E p w) = Ok tt.
Proof.
  intros w1 Hp Hmk Hex. unfold dump_cochange_db.
  rewrite bind_unfold, exists_run, Hp.
  rewrite bind_unfold, print_run, bind_unfold, mkdir_after_print.
  unfold succeeds in Hmk. destruct (fst (mkdir E _ w)) as [[]|e]; [|done].
  by apply call_returns.
Qed.

Lemma add_deps_to_db_returns (p : Project) (w w2 : World) (commit : string) :
  resolve_in_merge E p w = (Ok commit, w2) ->
  exited (program E (add_deps_args E p commit) None false
            (called (add_deps_args E p commit) None w2)) = true ->
  fst (add_deps_to_db E p w) = Ok tt.
Proof.
  intros Hres Hex. rewrite add_deps_to_db_resolve, bind_unfold, Hres.
  by apply call_returns.
Qed.

End Continue.

Lemma status_of_exited (r : Outcome * gmap Path Node) (rc : Z) :
  status_of r = Some rc -> exited r = true.
Proof. unfold status_of, exited. by destruct r.1. Qed.

Section GoesOn.

Context (E : Env).

(** A stage whose program exits returns, with whatever status. *)
Lemma stage_exits_returns (sp : Stage * Project) (w : World) (rc : Z) :
  stage_exits E sp w rc -> fst (stage_action E sp w) = Ok tt.
Proof.
  destruct sp as [[] p]; unfold stage_exits, stage_action; simpl.
  - intros [Hp Hs]. apply clone_returns; [done|]. by eapply status_of_exited.
  - intros [Hc Hs]. apply checkout_returns; [done|].
    by eapply status_of_exited.
  - intros (Hp & Hm & Hc & Hs). apply dump_deps_returns; try done.
    by eapply status_of_exited.
  - intros (Hp & Hm & Hs). apply dump_cochange_db_returns; try done.
    by eapply status_of_exited.
  - intros (commit & w2 & Hr & Hs). eapply add_deps_to_db_returns; [done|].
    by eapply status_of_exited.
Qed.

(** After a stage whose program exited, with whatever status, the loop
    goes on with what follows the stage in the plan, and what follows
    begins with the line of the next stage. *)
Lemma goes_on (ps : list Project) (w w1 : World) (i : nat)
    (sp : Stage * Project) (rc : Z) :
  plan ps !! i = Some sp ->
  in_sequence E (take i (plan ps)) w = (Ok tt, w1) ->
  stage_exits E sp w1 rc ->
  exists w2,
    stage_action E sp w1 = (Ok tt, w2)
    /\ for_each E ps w = in_sequence E (drop (S i) (plan ps)) w2
    /\ match plan ps !! S i with
       | Some next =>
           exists msg rest,
             announces msg next
             /\ events (in_sequence E (drop (S i) (plan ps))) w2
                = Print msg :: rest
       | None => for_each E ps w = (Ok tt, w2)
       end.
Proof.
  intros Hi Hpre Hex. apply stage_exits_returns in Hex.
  destruct (stage_action E sp w1) as [r w2] eqn:Hsp. simpl in Hex. subst r.
  exists w2. split; [done|].
  assert (Hgo : for_each E ps w = in_sequence E (drop (S i) (plan ps)) w2).
  { rewrite for_each_in_sequence.
    rewrite <- (take_drop_middle (plan ps) i sp Hi) at 1.
    rewrite in_sequence_app, bind_unfold, Hpre. simpl.
    by rewrite bind_unfold, Hsp. }
  split; [done|].
  destruct (plan ps !! S i) as [next|] eqn:Hnext.
  - rewrite (drop_S _ _ _ Hnext). simpl.
    rewrite events_bind by solve_grows.
    pose proof (stage_block E next w2) as Hb.
    destruct (block_head E next (events (stage_action E next) w2))
      as (msg & rest & Hev & Hann).
    { destruct (fst (stage_action E next w2)); by auto. }
    exists msg. eexists. split; [done|]. by rewrite Hev.
  - rewrite Hgo. apply lookup_ge_None in Hnext.
    by rewrite drop_ge.
Qed.

End GoesOn.

(** C3: the exit status of the clone, checkout, extractor, dump and
    add-deps programs has no part in the run.  Replace the statuses these
    programs report by any others ([with_status f]): the run prints and
    calls the same, leaves the same files and ends the same way.  Each
    of the five stages returns as soon as its program ran and exited, with
    whatever status.  And the runner goes on: the loop is the stages of
    its plan one after the other, and when the run has come to a stage of
    the plan whose program exits with a status [rc], zero or not, the
    stage returns and the run continues with everything that follows it
    in the plan, from the world the stage left: the next stage of the same
    project, or the first stage of the next project after the merge stage,
    whose line is the next event; if nothing follows, the run returns. *)
Theorem exit_status_ignored (E : Env) (f : list string -> World -> Z -> Z) :
  (forall w, main (with_status f E) w = main E w)
  /\ (forall ps w, for_each (with_status f E) ps w = for_each E ps w)
  /\ (forall p w,
        present E (get_project_path (name p)) w = false ->
        exited (program E (clone_args p) None false
                  (called (clone_args p) None
                     (printed ("Cloning " +:+ name p +:+ "...") w))) = true ->
        fst (clone E p w) = Ok tt)
  /\ (forall p w,
        cwd_ok E (Some (get_project_path (name p))) w = true ->
        exited (program E (checkout_args p) (Some (get_project_path (name p)))
                  false
                  (called (checkout_args p) (Some (get_project_path (name p)))
                     (printed ("Switching " +:+ name p +:+ " to " +:+ rev p)
                        w))) = true ->
        fst (checkout E p w) = Ok tt)
  /\ (forall p w,
        let wc := get_project_path (name p) in
        let w1 := prepared E (absolute E DEPS_DIR)
                    ("Extracting dependency info from " +:+ name p) w in
        present E (get_dep_path (name p)) w = false ->
        succeeds (mkdir E (absolute E DEPS_DIR)) w = true ->
        cwd_ok E (Some wc) w1 = true ->
        exited (program E (dump_deps_args E p) (Some wc) false
                  (called (dump_deps_args E p) (Some wc) w1)) = true ->
        fst (dump_deps E p w) = Ok tt)
  /\ (forall p w,
        let w1 := prepared E (parent (get_db_path (name p)))
                    ("Dumping cochange info into db for " +:+ name p +:+ "...")
                    w in
        present E (get_db_path (name p)) w = false ->
        succeeds (mkdir E (parent (get_db_path (name p)))) w = true ->
        exited (program E (dump_cochange_db_args E p) None false
                  (called (dump_cochange_db_args E p) None w1)) = true ->
        fst (dump_cochange_db E p w) = Ok tt)
  /\ (forall p w w2 commit,
        resolve_in_merge E p w = (Ok commit, w2) ->
        exited (program E (add_deps_args E p commit) None false
                  (called (add_deps_args E p commit) None w2)) = true ->
        fst (add_deps_to_db E p w) = Ok tt)
  /\ (forall ps w, for_each E ps w = in_sequence E (plan ps) w)
  /\ (forall ps w w1 i sp rc,
        plan ps !! i = Some sp ->
        in_sequence E (take i (plan ps)) w = (Ok tt, w1) ->
        stage_exits E sp w1 rc ->
        exists w2,
          stage_action E sp w1 = (Ok tt, w2)
          /\ for_each E ps w = in_sequence E (drop (S i) (plan ps)) w2
          /\ match plan ps !! S i with
             | Some next =>
                 exists msg rest,
                   announces msg next
                   /\ events (in_sequence E (drop (S i) (plan ps))) w2
                      = Print msg :: rest
             | None => for_each E ps w = (Ok tt, w2)
             end).
Proof.
  split; [apply status_main|].
  split; [apply status_for_each|].
  split; [apply clone_returns|].
  split; [apply checkout_returns|].
  split; [apply dump_deps_returns|].
  split; [apply dump_cochange_db_returns|].
  split; [apply add_deps_to_db_returns|].
  split; [apply for_each_in_sequence|].
  apply goes_on.
Qed.

(** ** Artifacts that stay *)

Section Keeping.

Context (E : Env).

Lemma preserves_ret {A} (a : Path) (x : A) : preserves E a (mret x : M A).
Proof. by intros w. Qed.

Lemma preserves_throw {A} (a : Path) (e : Exc) : preserves E a (mthrow e : M A).
Proof. by intros w. Qed.

Lemma preserves_bind {A B} (a : Path) (c : M A) (k : A -> M B) :
  preserves E a c -> (forall x, preserves E a (k x)) -> preserves E a (c ≫= k).
Proof.
  intros Hc Hk w Hw. rewrite bind_unfold. specialize (Hc w Hw).
  destruct (c w) as [[x|e] w']; [by apply Hk | done].
Qed.

Lemma preserves_fs_grows {A} (a : Path) (c : M A) :
  fs_grows c -> preserves E a c.
Proof.
  intros Hc w. apply present_subseteq. by apply fs_grows_subseteq.
Qed.

Lemma preserves_print (a : Path) (msg : string) : preserves E a (print msg).
Proof. by intros w. Qed.

Lemma preserves_exists (a p : Path) : preserves E a (exists_ E p).
Proof. by intros w. Qed.

Lemma preserves_mkdir (a d : Path) : preserves E a (mkdir E d).
Proof. apply preserves_fs_grows, fs_grows_mkdir. Qed.

Lemma preserves_sp_run (Q : list string -> Prop) (a : Path)
    (args : list string) (cwd : option Path) (capture : bool) :
  keeps_on E Q a -> Q args -> preserves E a (sp_run E args cwd capture).
Proof.
  intros Hk HQ w Hw.
  specialize (Hk args cwd capture (called args cwd w) HQ Hw).
  unfold sp_run, after_program, called in *.
  destruct (program E args cwd capture _) as [[rc out|n] m];
    destruct cwd as [d|]; try done;
    by destruct (stat E d w) as [[|x]|].
Qed.

Lemma preserves_if {A} (a : Path) (b : bool) (c1 c2 : M A) :
  preserves E a c1 -> preserves E a c2 -> preserves E a (if b then c1 else c2).
Proof. by destruct b. Qed.

Lemma preserves_check_returncode (a : Path) (res : CompletedProcess) :
  preserves E a (check_returncode res).
Proof.
  unfold check_returncode.
  case_decide; [apply preserves_ret | apply preserves_throw].
Qed.

Create HintDb preserves.

Hint Resolve preserves_ret preserves_throw preserves_print preserves_exists
  preserves_mkdir preserves_check_returncode : preserves.
Hint Extern 2 (preserves _ _ (_ ≫= _)) =>
  apply preserves_bind; [|intros ?] : preserves.
Hint Extern 2 (preserves _ _ (if _ then _ else _)) =>
  apply preserves_if : preserves.
Hint Extern 3 (preserves _ _ (sp_run _ _ _ _)) =>
  eapply preserves_sp_run; [eassumption|] : preserves.
Hint Extern 5 (preserves _ _ (match ?x with _ => _ end)) =>
  destruct x : preserves.

Section Calls.

Context (Q : list string -> Prop) (a : Path) (Hkeeps : keeps_on E Q a).

Lemma preserves_clone (p : Project) :
  Q (clone_args p) -> preserves E a (clone E p).
Proof. intros HQ. unfold clone. eauto 10 with preserves. Qed.

Lemma preserves_checkout (p : Project) :
  Q (checkout_args p) -> preserves E a (checkout E p).
Proof. intros HQ. unfold checkout. eauto 10 with preserves. Qed.

Lemma preserves_dump_deps (p : Project) :
  Q (dump_deps_args E p) -> preserves E a (dump_deps E p).
Proof. intros HQ. unfold dump_deps. eauto 10 with preserves. Qed.

Lemma preserves_dump_cochange_db (p : Project) :
  Q (dump_cochange_db_args E p) -> preserves E a (dump_cochange_db E p).
Proof. intros HQ. unfold dump_cochange_db. eauto 10 with preserves. Qed.

Lemma preserves_dereference_rev (p : Project) :
  Q (dereference_rev_args p) -> preserves E a (dereference_rev E p).
Proof. intros HQ. unfold dereference_rev. eauto 10 with preserves. Qed.

Lemma preserves_add_deps_to_db (p : Project) :
  Q (dereference_rev_args p) -> (forall c, Q (add_deps_args E p c)) ->
  preserves E a (add_deps_to_db E p).
Proof.
  intros HQ1 HQ2. unfold add_deps_to_db.
  pose proof (preserves_dereference_rev p HQ1).
  eauto 10 with preserves.
Qed.

End Calls.

End Keeping.

(** ** Counting the calls of a run *)

Lemma tool_of_clone (p : Project) : tool_of (clone_args p) = Some Clone.
Proof. reflexivity. Qed.

Lemma tool_of_checkout (p : Project) : tool_of (checkout_args p) = Some Checkout.
Proof. reflexivity. Qed.

Lemma tool_of_dereference_rev (p : Project) :
  tool_of (dereference_rev_args p) = Some RevList.
Proof. reflexivity. Qed.

Lemma tool_of_dump_deps (E : Env) (p : Project) :
  tool_of (dump_deps_args E p) = Some Extract.
Proof. reflexivity. Qed.

Lemma tool_of_dump_cochange_db (E : Env) (p : Project) :
  tool_of (dump_cochange_db_args E p) = Some Dump.
Proof. reflexivity. Qed.

Lemma tool_of_add_deps (E : Env) (p : Project) (commit : string) :
  tool_of (add_deps_args E p commit) = Some AddDeps.
Proof. reflexivity. Qed.

Lemma invocations_print (t : Tool) (msg : string) (l : list Event) :
  invocations t (Print msg :: l) = invocations t l.
Proof. reflexivity. Qed.

Lemma invocations_run (t t' : Tool) (args : list string) (cwd : option Path)
    (l : list Event) :
  tool_of args = Some t' ->
  invocations t (Run args cwd :: l)
  = (if decide (t' = t) then 1 else 0) + invocations t l.
Proof.
  intros Ht. unfold invocations. simpl. rewrite Ht.
  destruct (decide (t' = t)) as [->|Hne].
  - by rewrite bool_decide_eq_true_2.
  - rewrite bool_decide_eq_false_2; [done|]. by intros [= ?].
Qed.

Lemma invocations_nil (t : Tool) : invocations t [] = 0.
Proof. reflexivity. Qed.

(** Rewriting the count of a tool in the events of a stage. *)
Ltac count_calls :=
  repeat first
    [ rewrite invocations_print
    | rewrite invocations_nil
    | erewrite invocations_run by
        first [ apply tool_of_clone | apply tool_of_checkout
              | apply tool_of_dereference_rev | apply tool_of_dump_deps
              | apply tool_of_dump_cochange_db | apply tool_of_add_deps ] ].

Section Guards.

Context (E : Env).

(** The fetch stage clones exactly when the working copy is absent. *)
Lemma clone_invocations (t : Tool) (p : Project) (w : World) :
  invocations t (events (clone E p) w)
  = if present E (get_project_path (name p)) w then 0
    else if decide (Clone = t) then 1 else 0.
Proof.
  rewrite clone_events. destruct (present E _ w); count_calls; lia.
Qed.

(** The pin stage always checks out. *)
Lemma checkout_invocations (t : Tool) (p : Project) (w : World) :
  invocations t (events (checkout E p) w)
  = if decide (Checkout = t) then 1 else 0.
Proof. rewrite checkout_events. count_calls. lia. Qed.

(** The extract stage runs the extractor exactly when the dependency file
    is absent and the dependency directory could be made. *)
Lemma dump_deps_invocations (t : Tool) (p : Project) (w : World) :
  invocations t (events (dump_deps E p) w)
  = if present E (get_dep_path (name p)) w then 0
    else if succeeds (mkdir E (absolute E DEPS_DIR)) w
         then if decide (Extract = t) then 1 else 0
         else 0.
Proof.
  rewrite dump_deps_events.
  destruct (present E _ w); [|destruct (succeeds _ w)]; count_calls; lia.
Qed.

(** The initialise stage dumps exactly when the database is absent and its
    directory could be made. *)
Lemma dump_cochange_db_invocations (t : Tool) (p : Project) (w : World) :
  invocations t (events (dump_cochange_db E p) w)
  = if present E (get_db_path (name p)) w then 0
    else if succeeds (mkdir E (parent (get_db_path (name p)))) w
         then if decide (Dump = t) then 1 else 0
         else 0.
Proof.
  rewrite dump_cochange_db_events.
  destruct (present E _ w); [|destruct (succeeds _ w)]; count_calls; lia.
Qed.

(** The merge stage always resolves the revision, once the directory of
    the database is there, and calls add-deps when the resolution
    returned. *)
Lemma add_deps_to_db_invocations (t : Tool) (p : Project) (w : World) :
  invocations t (events (add_deps_to_db E p) w)
  = if succeeds (mkdir E (parent (get_db_path (name p)))) w
    then (if decide (RevList = t) then 1 else 0)
         + match fst (dereference_rev E p (merge_ready E p w)) with
           | Ok _ => if decide (AddDeps = t) then 1 else 0
           | Raise _ => 0
           end
    else 0.
Proof.
  rewrite add_deps_to_db_events.
  destruct (succeeds _ w); [destruct (fst _)|]; count_calls; lia.
Qed.

Lemma add_deps_to_db_ok (p : Project) (w : World) :
  fst (add_deps_to_db E p w) = Ok tt ->
  succeeds (mkdir E (parent (get_db_path (name p)))) w = true
  /\ exists commit,
       fst (dereference_rev E p (merge_ready E p w)) = Ok commit.
Proof.
  rewrite add_deps_to_db_resolve, bind_unfold, resolve_in_merge_run.
  unfold succeeds. destruct (fst (mkdir E _ w)); [|done].
  destruct (dereference_rev E p _) as [[commit|e] w']; [|done].
  intros _. split; [done|]. by exists commit.
Qed.

End Guards.

(** ** Running again over what is already there *)

Section SecondRun.

Context (E : Env) (ps : list Project).

Hypothesis Hkeep :
  forall p a, p ∈ ps -> a ∈ artifacts p -> keeps_on E (fun _ => True) a.

Lemma counts_ret (t : Tool) : counts E ps t 0 (mret tt).
Proof. intros w Hw. by rewrite events_ret. Qed.

Lemma counts_ext (t : Tool) (n : nat) (c c' : M unit) :
  (forall w, c w = c' w) -> counts E ps t n c -> counts E ps t n c'.
Proof.
  intros Heq Hc w Hw. specialize (Hc w Hw). unfold events in *.
  by rewrite <- Heq.
Qed.

Lemma counts_bind (t : Tool) (n m : nat) (c k : M unit) :
  grows c -> grows k -> counts E ps t n c -> counts E ps t m k ->
  counts E ps t (n + m) (c;; k).
Proof.
  intros Hgc Hgk Hc Hk w Hw. destruct (Hc w Hw) as (Hw' & Hle & Heq).
  rewrite events_bind, invocations_app, bind_unfold by done.
  destruct (c w) as [[[]|e] w']; simpl in *.
  - destruct (Hk w' Hw') as (Hw'' & Hle' & Heq'). split; [done|].
    split; [lia|]. intros Hok. rewrite Heq, Heq' by done. done.
  - split; [done|]. split; [|done]. rewrite invocations_nil. lia.
Qed.

Lemma all_present_preserved (c : M unit) (w : World) :
  (forall p a, p ∈ ps -> a ∈ artifacts p -> preserves E a c) ->
  all_present E ps w -> all_present E ps (snd (c w)).
Proof. intros Hc Hw p a Hp Ha. apply (Hc p a Hp Ha). by apply (Hw p). Qed.

Lemma counts_clone (t : Tool) (p : Project) :
  p ∈ ps -> counts E ps t 0 (clone E p).
Proof.
  intros Hp w Hw. split.
  - apply all_present_preserved; [|done]. intros q a Hq Ha.
    by apply (preserves_clone E _ a (Hkeep q a Hq Ha)).
  - rewrite clone_invocations, (Hw p) by (simpl; set_solver). done.
Qed.

Lemma counts_checkout (t : Tool) (p : Project) :
  counts E ps t (if decide (Checkout = t) then 1 else 0) (checkout E p).
Proof.
  intros w Hw. split.
  - apply all_present_preserved; [|done]. intros q a Hq Ha.
    by apply (preserves_checkout E _ a (Hkeep q a Hq Ha)).
  - by rewrite checkout_invocations.
Qed.

Lemma counts_dump_deps (t : Tool) (p : Project) :
  p ∈ ps -> counts E ps t 0 (dump_deps E p).
Proof.
  intros Hp w Hw. split.
  - apply all_present_preserved; [|done]. intros q a Hq Ha.
    by apply (preserves_dump_deps E _ a (Hkeep q a Hq Ha)).
  - rewrite dump_deps_invocations, (Hw p) by (simpl; set_solver). done.
Qed.

Lemma counts_dump_cochange_db (t : Tool) (p : Project) :
  p ∈ ps -> counts E ps t 0 (dump_cochange_db E p).
Proof.
  intros Hp w Hw. split.
  - apply all_present_preserved; [|done]. intros q a Hq Ha.
    by apply (preserves_dump_cochange_db E _ a (Hkeep q a Hq Ha)).
  - rewrite dump_cochange_db_invocations, (Hw p) by (simpl; set_solver). done.
Qed.

Lemma counts_add_deps_to_db (t : Tool) (p : Project) :
  counts E ps t ((if decide (RevList = t) then 1 else 0)
            + (if decide (AddDeps = t) then 1 else 0))
    (add_deps_to_db E p).
Proof.
  intros w Hw. split.
  - apply all_present_preserved; [|done]. intros q a Hq Ha.
    by apply (preserves_add_deps_to_db E _ a (Hkeep q a Hq Ha)).
  - rewrite add_deps_to_db_invocations. split.
    + destruct (succeeds _ w); [destruct (fst _)|];
        repeat case_decide; lia.
    + intros Hok. apply add_deps_to_db_ok in Hok as (-> & commit & ->). done.
Qed.

Lemma counts_for_each (t : Tool) (rest : list Project) :
  rest ⊆ ps -> counts E ps t (length rest * rerun_calls t) (for_each E rest).
Proof.
  induction rest as [|p rest IH]; intros Hsub; [apply counts_ret|].
  assert (Hp : p ∈ ps) by set_solver.
  assert (Hrest : rest ⊆ ps) by set_solver.
  apply (counts_ext t _
           (clone E p;; checkout E p;; dump_deps E p;; dump_cochange_db E p;;
            add_deps_to_db E p;; for_each E rest)).
  { intros w. symmetry. apply stages_then. }
  replace (length (p :: rest) * rerun_calls t)
    with (0 + ((if decide (Checkout = t) then 1 else 0)
               + (0 + (0 + (((if decide (RevList = t) then 1 else 0)
                             + (if decide (AddDeps = t) then 1 else 0))
                            + length rest * rerun_calls t)))))
    by (destruct t; simpl; lia).
  apply counts_bind; [solve_grows | solve_grows | by apply counts_clone |].
  apply counts_bind; [solve_grows | solve_grows | apply counts_checkout |].
  apply counts_bind; [solve_grows | solve_grows | by apply counts_dump_deps |].
  apply counts_bind;
    [solve_grows | solve_grows | by apply counts_dump_cochange_db |].
  apply counts_bind;
    [solve_grows | solve_grows | apply counts_add_deps_to_db | by apply IH].
Qed.

End SecondRun.

(** C1, as amended.  The guards: the fetch stage calls clone exactly when
    the working copy is absent; the extract and initialise stages call
    nothing when their artifact is there and, when it is absent, call the
    extractor (the dump) once the directory for it could be made; the pin
    stage always calls checkout and the merge stage resolves the revision
    whatever is there.  The second run: over a registry all of whose
    artifacts are there, with programs that remove none of them, the run
    makes no clone, extractor or dump call and every artifact is still
    there; it makes at most one checkout, one resolution and one add-deps
    call per project, and exactly that many when it returns. *)
Theorem guards_and_second_run (E : Env) :
  (forall p w,
     invocations Clone (events (clone E p) w)
     = if present E (get_project_path (name p)) w then 0 else 1)
  /\ (forall p w,
        invocations Extract (events (dump_deps E p) w)
        = if present E (get_dep_path (name p)) w then 0
          else if succeeds (mkdir E (absolute E DEPS_DIR)) w then 1 else 0)
  /\ (forall p w,
        invocations Dump (events (dump_cochange_db E p) w)
        = if present E (get_db_path (name p)) w then 0
          else if succeeds (mkdir E (parent (get_db_path (name p)))) w
               then 1 else 0)
  /\ (forall p w, invocations Checkout (events (checkout E p) w) = 1)
  /\ (forall p w,
        invocations RevList (events (add_deps_to_db E p) w)
        = if succeeds (mkdir E (parent (get_db_path (name p)))) w
          then 1 else 0)
  /\ (forall ps w,
        (forall p a, p ∈ ps -> a ∈ artifacts p ->
                     keeps_on E (fun _ => True) a) ->
        load_projects E w = (Ok ps, w) ->
        all_present E ps w ->
        all_present E ps (snd (main E w))
        /\ invocations Clone (events (main E) w) = 0
        /\ invocations Extract (events (main E) w) = 0
        /\ invocations Dump (events (main E) w) = 0
        /\ invocations Checkout (events (main E) w) <= length ps
        /\ invocations RevList (events (main E) w) <= length ps
        /\ invocations AddDeps (events (main E) w) <= length ps
        /\ (fst (main E w) = Ok tt ->
            invocations Checkout (events (main E) w) = length ps
            /\ invocations RevList (events (main E) w) = length ps
            /\ invocations AddDeps (events (main E) w) = length ps)).
Proof.
  split; [intros p w; rewrite clone_invocations; by destruct (present E _ w)|].
  split; [intros p w; by rewrite dump_deps_invocations|].
  split; [intros p w; by rewrite dump_cochange_db_invocations|].
  split; [intros p w; by rewrite checkout_invocations|].
  split.
  { intros p w. rewrite add_deps_to_db_invocations.
    destruct (succeeds _ w); [|done]. by destruct (fst _). }
  intros ps w Hkeep Hload Hw.
  assert (Hm : main E w = for_each E ps w)
    by (unfold main; by rewrite bind_unfold, Hload).
  unfold events. rewrite Hm.
  fold (events (for_each E ps) w).
  pose proof (fun t => counts_for_each E ps Hkeep t ps (reflexivity _) w Hw)
    as Hc.
  destruct (Hc Clone) as (Hall & Hclone & _).
  destruct (Hc Extract) as (_ & Hextract & _).
  destruct (Hc Dump) as (_ & Hdump & _).
  destruct (Hc Checkout) as (_ & Hcheckout & Hcheckout').
  destruct (Hc RevList) as (_ & Hrev & Hrev').
  destruct (Hc AddDeps) as (_ & Hadd & Hadd').
  simpl in *. repeat split; try lia; try done.
  - rewrite Hcheckout' by done. lia.
  - rewrite Hrev' by done. lia.
  - rewrite Hadd' by done. lia.
Qed.

(** ** Two rows with one name *)

Lemma triple_ret (P : World -> Prop) (t : Tool) : triple P t 0 (mret tt) P.
Proof. intros w Hw. by rewrite events_ret. Qed.

Lemma triple_ext (P R : World -> Prop) (t : Tool) (n : nat) (c c' : M unit) :
  (forall w, c w = c' w) -> triple P t n c R -> triple P t n c' R.
Proof.
  intros Heq Hc w Hw. specialize (Hc w Hw). unfold events in *.
  by rewrite <- Heq.
Qed.

Lemma triple_bind (P R S : World -> Prop) (t : Tool) (n m : nat)
    (c k : M unit) :
  grows c -> grows k -> triple P t n c R -> triple R t m k S ->
  triple P t (n + m) (c;; k) S.
Proof.
  intros Hgc Hgk Hc Hk w Hw. destruct (Hc w Hw) as (Hle & Heq).
  rewrite events_bind, invocations_app, bind_unfold by done.
  destruct (c w) as [[[]|e] w']; simpl in *.
  - destruct (Heq eq_refl) as (Hn & HR).
    destruct (Hk w' HR) as (Hle' & Heq'). split; [lia|].
    intros Hok. destruct (Heq' Hok) as (Hm & HS). split; [lia | done].
  - split; [|done]. rewrite invocations_nil. lia.
Qed.

Section SameName.

Context (E : Env) (p1 p2 : Project).

Hypothesis Hname : name p1 = name p2.

Let dep : Path := get_dep_path (name p1).

(** The extractor writes the dependency file of the project. *)
Hypothesis Hcreate :
  forall cwd capture w,
    present E dep (after_program E (dump_deps_args E p1) cwd capture w) = true.

(** The other programs neither write nor remove it. *)
Hypothesis Hframe :
  forall p args cwd capture w,
    p ∈ [p1; p2] -> other_call E p args ->
    present E dep (after_program E args cwd capture w) = present E dep w.

Let there (w : World) : Prop := present E dep w = true.
Let missing (w : World) : Prop := present E dep w = false.

Lemma keeps_on_other (p : Project) :
  p ∈ [p1; p2] -> keeps_on E (other_call E p) dep.
Proof.
  intros Hp args cwd capture w HQ Hw. by rewrite (Hframe p).
Qed.

Lemma sp_run_frame (p : Project) (args : list string) (cwd : option Path)
    (capture : bool) (w : World) :
  p ∈ [p1; p2] -> other_call E p args ->
  present E dep (snd (sp_run E args cwd capture w)) = present E dep w.
Proof.
  intros Hp HQ.
  pose proof (Hframe p args cwd capture (called args cwd w) Hp HQ) as Hf.
  unfold sp_run, after_program, called in *.
  destruct (program E args cwd capture _) as [[rc out|n] m];
    destruct cwd as [d|]; try done;
    by destruct (stat E d w) as [[|x]|].
Qed.

Lemma clone_frame (p : Project) (w : World) :
  p ∈ [p1; p2] ->
  present E dep (snd (clone E p w)) = present E dep w.
Proof.
  intros Hp. unfold clone. rewrite bind_unfold, exists_run.
  destruct (present E (get_project_path (name p)) w); [done|].
  rewrite bind_unfold, print_run, bind_unfold.
  pose proof (sp_run_frame p (clone_args p) None false
                (printed ("Cloning " +:+ name p +:+ "...") w) Hp) as Hf.
  unfold printed in Hf.
  destruct (sp_run E _ _ _ _) as [[res|e] w']; apply Hf; by left.
Qed.

Lemma checkout_frame (p : Project) (w : World) :
  p ∈ [p1; p2] ->
  present E dep (snd (checkout E p w)) = present E dep w.
Proof.
  intros Hp. rewrite checkout_run, bind_unfold.
  pose proof (sp_run_frame p (checkout_args p)
                (Some (get_project_path (name p))) false
                (printed ("Switching " +:+ name p +:+ " to " +:+ rev p) w) Hp)
    as Hf.
  unfold printed in Hf.
  destruct (sp_run E _ _ _ _) as [[res|e] w']; apply Hf; right; by left.
Qed.

Lemma triple_clone_missing :
  triple missing Extract 0 (clone E p1) missing.
Proof.
  intros w Hw. rewrite clone_invocations.
  split; [by destruct (present E _ w)|]. intros _.
  split; [by destruct (present E _ w)|].
  unfold missing. rewrite clone_frame; [done | repeat constructor].
Qed.

Lemma triple_checkout_missing :
  triple missing Extract 0 (checkout E p1) missing.
Proof.
  intros w Hw. rewrite checkout_invocations. split; [done|]. intros _.
  split; [done|]. unfold missing. rewrite checkout_frame; [done | repeat constructor].
Qed.

(** The first extract stage runs the extractor, and the file is there
    when the stage returns. *)
Lemma triple_dump_deps_first :
  triple missing Extract 1 (dump_deps E p1) there.
Proof.
  intros w Hw. unfold missing, dep in Hw.
  rewrite dump_deps_invocations, Hw. split.
  { destruct (succeeds _ w); simpl; lia. }
  unfold dump_deps. rewrite bind_unfold, exists_run, Hw.
  rewrite bind_unfold, print_run, bind_unfold, mkdir_after_print.
  unfold succeeds. destruct (fst (mkdir E _ w)) as [[]|e]; [|done].
  rewrite bind_unfold. intros Hok. split; [done|].
  match goal with
  | H : context [sp_run E ?a ?d ?c ?w1] |- _ =>
      pose proof (Hcreate d c (called a d w1)) as Hc;
      unfold sp_run, after_program, called in *;
      destruct (program E a d c _) as [[rc out|n] m]
  end; simpl in *;
    destruct (stat E (get_project_path (name p1)) _) as [[|x]|]; done.
Qed.

Lemma triple_there (c : M unit) :
  (forall w, invocations Extract (events c w) = 0) ->
  preserves E dep c ->
  triple there Extract 0 c there.
Proof.
  intros Hz Hp w Hw. rewrite Hz. split; [done|]. intros _. split; [done|].
  by apply Hp.
Qed.

Lemma triple_clone_there (p : Project) :
  p ∈ [p1; p2] -> triple there Extract 0 (clone E p) there.
Proof.
  intros Hp. apply triple_there.
  - intros w. rewrite clone_invocations. by destruct (present E _ w).
  - apply (preserves_clone E _ dep (keeps_on_other p Hp)). by left.
Qed.

Lemma triple_checkout_there (p : Project) :
  p ∈ [p1; p2] -> triple there Extract 0 (checkout E p) there.
Proof.
  intros Hp. apply triple_there.
  - intros w. by rewrite checkout_invocations.
  - apply (preserves_checkout E _ dep (keeps_on_other p Hp)). right. by left.
Qed.

Lemma triple_dump_cochange_db_there (p : Project) :
  p ∈ [p1; p2] -> triple there Extract 0 (dump_cochange_db E p) there.
Proof.
  intros Hp. apply triple_there.
  - intros w. rewrite dump_cochange_db_invocations.
    destruct (present E _ w); [|destruct (succeeds _ w)]; done.
  - apply (preserves_dump_cochange_db E _ dep (keeps_on_other p Hp)).
    do 3 right. by left.
Qed.

Lemma triple_add_deps_to_db_there (p : Project) :
  p ∈ [p1; p2] -> triple there Extract 0 (add_deps_to_db E p) there.
Proof.
  intros Hp. apply triple_there.
  - intros w. rewrite add_deps_to_db_invocations.
    destruct (succeeds _ w); [destruct (fst _)|]; done.
  - apply (preserves_add_deps_to_db E _ dep (keeps_on_other p Hp)).
    + do 2 right. by left.
    + intros c. do 4 right. by exists c.
Qed.

(** The second extract stage finds the file of the first and runs
    nothing. *)
Lemma triple_dump_deps_second :
  triple there Extract 0 (dump_deps E p2) there.
Proof.
  intros w Hw. unfold there, dep in Hw. rewrite Hname in Hw.
  rewrite dump_deps_invocations, Hw. split; [done|]. intros _.
  split; [done|]. unfold dump_deps. rewrite bind_unfold, exists_run, Hw.
  unfold there, dep. by rewrite Hname.
Qed.

Lemma triple_two_rows :
  triple missing Extract 1 (for_each E [p1; p2]) there.
Proof.
  apply (triple_ext _ _ _ _
           (clone E p1;; checkout E p1;; dump_deps E p1;;
            dump_cochange_db E p1;; add_deps_to_db E p1;;
            clone E p2;; checkout E p2;; dump_deps E p2;;
            dump_cochange_db E p2;; add_deps_to_db E p2;; mret tt)).
  { intros w. symmetry. simpl. rewrite stages_then.
    do 5 (apply bind_cong; [done|]; intros _ ?). apply stages_then. }
  assert (H1 : p1 ∈ [p1; p2]) by repeat constructor.
  assert (H2 : p2 ∈ [p1; p2]) by repeat constructor.
  change 1 with (0 + (0 + (1 + (0 + (0 + (0 + (0 + (0 + (0 + (0 + 0)))))))))).
  apply (triple_bind _ missing); [solve_grows | solve_grows
                                 | apply triple_clone_missing |].
  apply (triple_bind _ missing); [solve_grows | solve_grows
                                 | apply triple_checkout_missing |].
  apply (triple_bind _ there); [solve_grows | solve_grows
                               | apply triple_dump_deps_first |].
  apply (triple_bind _ there); [solve_grows | solve_grows
                               | by apply triple_dump_cochange_db_there |].
  apply (triple_bind _ there); [solve_grows | solve_grows
                               | by apply triple_add_deps_to_db_there |].
  apply (triple_bind _ there); [solve_grows | solve_grows
                               | by apply triple_clone_there |].
  apply (triple_bind _ there); [solve_grows | solve_grows
                               | by apply triple_checkout_there |].
  apply (triple_bind _ there); [solve_grows | solve_grows
                               | apply triple_dump_deps_second |].
  apply (triple_bind _ there); [solve_grows | solve_grows
                               | by apply triple_dump_cochange_db_there |].
  apply (triple_bind _ there); [solve_grows | solve_grows
                               | by apply triple_add_deps_to_db_there |].
  apply triple_ret.
Qed.

End SameName.

(** C6: let two rows have the same name, whatever their revisions, let the
    dependency file of that name be absent when the run starts, let the
    extractor write it and the other programs of the run leave it alone.
    Then the run over the two rows calls the extractor at most once, and
    exactly once when it returns: the extract stage of the second row
    finds the file of the first and is skipped. *)
Theorem same_name_extracts_once (E : Env) (p1 p2 : Project) (w : World) :
  name p1 = name p2 ->
  load_projects E w = (Ok [p1; p2], w) ->
  present E (get_dep_path (name p1)) w = false ->
  (forall cwd capture w0,
     present E (get_dep_path (name p1))
       (after_program E (dump_deps_args E p1) cwd capture w0) = true) ->
  (forall p args cwd capture w0,
     p ∈ [p1; p2] -> other_call E p args ->
     present E (get_dep_path (name p1)) (after_program E args cwd capture w0)
     = present E (get_dep_path (name p1)) w0) ->
  invocations Extract (events (main E) w) <= 1
  /\ (fst (main E w) = Ok tt ->
      invocations Extract (events (main E) w) = 1
      /\ present E (get_dep_path (name p2)) (snd (main E w)) = true).
Proof.
  intros Hname Hload Hw Hcreate Hframe.
  assert (Hm : main E w = for_each E [p1; p2] w)
    by (unfold main; by rewrite bind_unfold, Hload).
  unfold events. rewrite Hm. fold (events (for_each E [p1; p2]) w).
  rewrite <- Hname.
  exact (triple_two_rows E p1 p2 Hname Hcreate Hframe w Hw).
Qed.

(** ** The sample environment at work *)

Lemma demo_create_subseteq (k : Path) (n : Node) (m : gmap Path Node) :
  m ⊆ Demo.create k n m.
Proof.
  unfold Demo.create. destruct (m !! k) eqn:Hk; [done|].
  by apply insert_subseteq.
Qed.

Lemma demo_create_lookup (k : Path) (n : Node) (m : gmap Path Node) :
  is_Some (Demo.create k n m !! k).
Proof.
  unfold Demo.create. destruct (m !! k) eqn:Hk; [by rewrite Hk|].
  by rewrite lookup_insert_eq.
Qed.

Lemma demo_create_lookup_ne (k k' : Path) (n : Node) (m : gmap Path Node) :
  k <> k' -> Demo.create k n m !! k' = m !! k'.
Proof.
  intros Hne. unfold Demo.create. destruct (m !! k) eqn:Hk; [done|].
  by rewrite lookup_insert_ne.
Qed.

(** The sample programs only ever add nodes. *)
Lemma demo_program_subseteq (args : list string) (cwd : option Path)
    (capture : bool) (w : World) :
  fs w ⊆ snd (Demo.program args cwd capture w).
Proof.
  unfold Demo.program.
  destruct (tool_of args) as [[]|]; simpl; try done;
    try apply demo_create_subseteq.
  - destruct (Demo.arg 2 args =? "")%string; [done|].
    apply demo_create_subseteq.
  - by destruct (Demo.arg 4 args =? "nope")%string.
Qed.

Lemma demo_keeps (a : Path) : keeps_on Demo.env (fun _ => True) a.
Proof.
  intros args cwd capture w _. apply present_subseteq.
  apply demo_program_subseteq.
Qed.

Example demo_first_run :
  fst (main Demo.env (Demo.w0 Demo.acme_csv)) = Ok tt
  /\ map (fun t => invocations t
                     (events (main Demo.env) (Demo.w0 Demo.acme_csv)))
       [Clone; Checkout; Extract; Dump; RevList; AddDeps]
     = [1; 1; 1; 1; 1; 1].
Proof. split; reflexivity. Qed.

Lemma demo_present_create (a k : Path) (n : Node) (w : World)
    (t : list Event) :
  absolute Demo.env a <> k ->
  present Demo.env a (mkWorld (Demo.create k n (fs w)) t)
  = present Demo.env a w.
Proof.
  intros Hne. unfold present, stat. simpl fs.
  destruct (tail (absolute Demo.env a)); [done|].
  by rewrite demo_create_lookup_ne.
Qed.

(** The sample extractor writes the dependency file of [acme]. *)
Lemma demo_extractor_writes (cwd : option Path) (capture : bool) (w : World) :
  present Demo.env (get_dep_path (name Demo.acme))
    (after_program Demo.env (dump_deps_args Demo.env Demo.acme) cwd capture w)
  = true.
Proof.
  change (after_program Demo.env (dump_deps_args Demo.env Demo.acme) cwd
            capture w)
    with (mkWorld (Demo.create
                     (mkPath "/" ["work"; "deps"; "acme-deps-structure.json"])
                     (File "{}") (fs w)) (trace w)).
  unfold present, stat.
  change (absolute Demo.env (get_dep_path (name Demo.acme)))
    with (mkPath "/" ["work"; "deps"; "acme-deps-structure.json"]).
  simpl tail. simpl fs.
  by destruct (demo_create_lookup
                 (mkPath "/" ["work"; "deps"; "acme-deps-structure.json"])
                 (File "{}") (fs w)) as [n ->].
Qed.

(** The other sample programs leave that file alone. *)
Lemma demo_others_frame (p : Project) (args : list string)
    (cwd : option Path) (capture : bool) (w : World) :
  p ∈ [Demo.acme; Demo.acme2] -> other_call Demo.env p args ->
  present Demo.env (get_dep_path (name Demo.acme))
    (after_program Demo.env args cwd capture w)
  = present Demo.env (get_dep_path (name Demo.acme)) w.
Proof.
  intros Hp Hcall.
  assert (Hp' : p = Demo.acme \/ p = Demo.acme2).
  { apply elem_of_cons in Hp as [->|Hp]; [by left|].
    apply list_elem_of_singleton in Hp as ->. by right. }
  destruct Hp' as [-> | ->];
    destruct Hcall as [-> | [-> | [-> | [-> | [commit ->]]]]];
    try reflexivity.
  - change (after_program Demo.env (clone_args Demo.acme) cwd capture w)
      with (mkWorld (Demo.create (mkPath "/" ["work"; "projects"; "acme"])
                       Dir (fs w)) (trace w)).
    by apply demo_present_create.
  - change (after_program Demo.env (dump_cochange_db_args Demo.env Demo.acme)
              cwd capture w)
      with (mkWorld (Demo.create (mkPath "/" ["work"; "dbs"; "acme.db"])
                       (File "") (fs w)) (trace w)).
    by apply demo_present_create.
  - change (after_program Demo.env (clone_args Demo.acme2) cwd capture w)
      with (mkWorld (Demo.create (mkPath "/" ["work"; "projects"; "acme"])
                       Dir (fs w)) (trace w)).
    by apply demo_present_create.
  - change (after_program Demo.env (dump_cochange_db_args Demo.env Demo.acme2)
              cwd capture w)
      with (mkWorld (Demo.create (mkPath "/" ["work"; "dbs"; "acme.db"])
                       (File "") (fs w)) (trace w)).
    by apply demo_present_create.
Qed.

Lemma same_name_extracts_once_demo :
  name Demo.acme = name Demo.acme2
  /\ rev Demo.acme <> rev Demo.acme2
  /\ load_projects Demo.env (Demo.w0 Demo.acme_twice_csv)
     = (Ok [Demo.acme; Demo.acme2], Demo.w0 Demo.acme_twice_csv)
  /\ present Demo.env (get_dep_path (name Demo.acme))
       (Demo.w0 Demo.acme_twice_csv) = false
  /\ fst (main Demo.env (Demo.w0 Demo.acme_twice_csv)) = Ok tt
  /\ invocations Extract
       (events (main Demo.env) (Demo.w0 Demo.acme_twice_csv)) = 1.
Proof.
  split; [reflexivity|]. split; [discriminate|].
  split; [reflexivity|]. split; [reflexivity|]. split; [reflexivity|].
  apply (same_name_extracts_once Demo.env Demo.acme Demo.acme2
           (Demo.w0 Demo.acme_twice_csv)).
  - reflexivity.
  - reflexivity.
  - reflexivity.
  - exact demo_extractor_writes.
  - exact demo_others_frame.
  - reflexivity.
Defined.

Lemma demo_second_all_present : all_present Demo.env [Demo.acme] demo_second.
Proof.
  intros p a Hp Ha. apply list_elem_of_singleton in Hp as ->.
  unfold artifacts in Ha. simpl in Ha.
  repeat (apply elem_of_cons in Ha as [->|Ha]; [reflexivity|]).
  by apply elem_of_nil in Ha.
Qed.

(** C1, as stated, fails.  In the world a first run leaves, where the
    working copy, the dependency file and the database of [acme] are all
    there, a second run calls checkout once: the pin stage has no guard.
    And where [deps] is a regular file, the dependency file is absent and
    yet the extract stage runs no extractor: making the directory raises
    [FileExistsError]. *)
Lemma second_run_calls_checkout :
  (present Demo.env (get_project_path "acme") demo_second = true
   /\ present Demo.env (get_dep_path "acme") demo_second = true
   /\ present Demo.env (get_db_path "acme") demo_second = true
   /\ load_projects Demo.env demo_second = (Ok [Demo.acme], demo_second)
   /\ invocations Checkout (events (main Demo.env) demo_second) = 1
   /\ invocations Checkout (events (main Demo.env) demo_second) <> 0)
  /\ (present Demo.env (get_dep_path "acme") demo_deps_is_file = false
      /\ fst (dump_deps Demo.env Demo.acme demo_deps_is_file)
         = Raise FileExistsError
      /\ invocations Extract
           (events (dump_deps Demo.env Demo.acme) demo_deps_is_file) = 0).
Proof. repeat split; try reflexivity. vm_compute. discriminate. Qed.

Lemma guards_and_second_run_demo :
  all_present Demo.env [Demo.acme] demo_second
  /\ load_projects Demo.env demo_second = (Ok [Demo.acme], demo_second)
  /\ all_present Demo.env [Demo.acme] (snd (main Demo.env demo_second))
  /\ invocations Clone (events (main Demo.env) demo_second) = 0
  /\ invocations Extract (events (main Demo.env) demo_second) = 0
  /\ invocations Dump (events (main Demo.env) demo_second) = 0
  /\ fst (main Demo.env demo_second) = Ok tt
  /\ invocations Checkout (events (main Demo.env) demo_second) = 1
  /\ invocations RevList (events (main Demo.env) demo_second) = 1
  /\ invocations AddDeps (events (main Demo.env) demo_second) = 1.
Proof.
  destruct (guards_and_second_run Demo.env) as (_ & _ & _ & _ & _ & Hrun).
  destruct (Hrun [Demo.acme] demo_second (fun p a _ _ => demo_keeps a)
              eq_refl demo_second_all_present)
    as (Hall & Hclone & Hextract & Hdump & _ & _ & _ & Hok).
  destruct (Hok eq_refl) as (Hcheckout & Hrev & Hadd).
  split; [exact demo_second_all_present|].
  split; [reflexivity|].
  repeat split; done.
Defined.

Lemma run_follows_registry_demo :
  stat Demo.env PROJECTS_CSV (Demo.w0 Demo.acme_twice_csv)
  = Some (File Demo.acme_twice_csv)
  /\ Forall (fun r => 3 <= length r) (csv_reader Demo.env Demo.acme_twice_csv)
  /\ load_projects Demo.env (Demo.w0 Demo.acme_twice_csv)
     = (Ok [Demo.acme; Demo.acme2], Demo.w0 Demo.acme_twice_csv)
  /\ (exists n,
        Forall2 announces
          (prints (events (main Demo.env) (Demo.w0 Demo.acme_twice_csv)))
          (take n (plan [Demo.acme; Demo.acme2]))
        /\ (fst (main Demo.env (Demo.w0 Demo.acme_twice_csv)) = Ok tt ->
            n = 10))
  /\ fst (main Demo.env (Demo.w0 Demo.acme_twice_csv)) = Ok tt
  /\ exists blocks,
       events (main Demo.env) (Demo.w0 Demo.acme_twice_csv) = concat blocks
       /\ Forall2 (full_block Demo.env) (plan [Demo.acme; Demo.acme2]) blocks.
Proof.
  assert (Hrows : Forall (fun r => 3 <= length r)
                    (csv_reader Demo.env Demo.acme_twice_csv)).
  { vm_compute. repeat constructor. }
  assert (Hok : fst (main Demo.env (Demo.w0 Demo.acme_twice_csv)) = Ok tt)
    by (by vm_compute).
  destruct (run_follows_registry Demo.env (Demo.w0 Demo.acme_twice_csv)
              Demo.acme_twice_csv eq_refl Hrows)
    as (Hload & _ & _ & Hplan & n & blocks & rest & Hev & Hbl & Hend).
  split; [reflexivity|]. split; [exact Hrows|]. split; [exact Hload|].
  split; [exact Hplan|]. split; [exact Hok|].
  rewrite Hok in Hend. destruct Hend as [Hn Hrest].
  exists blocks. split.
  - rewrite Hev, Hrest. apply app_nil_r.
  - rewrite Hn, firstn_all in Hbl. exact Hbl.
Defined.

Lemma exit_status_ignored_demo :
  main (with_status (fun _ _ _ => 1%Z) Demo.env) (Demo.w0 Demo.acme_csv)
  = main Demo.env (Demo.w0 Demo.acme_csv)
  /\ fst (main (with_status (fun _ _ _ => 1%Z) Demo.env)
            (Demo.w0 Demo.acme_csv)) = Ok tt
  /\ fst (checkout (with_status (fun _ _ _ => 1%Z) Demo.env) Demo.acme
            demo_second) = Ok tt
  /\ plan [Demo.acme; Demo.acme2] !! 4 = Some (MergeDeps, Demo.acme)
  /\ exists w1 w2 msg rest,
       in_sequence (with_status (fun _ _ _ => 1%Z) Demo.env)
         (take 4 (plan [Demo.acme; Demo.acme2])) (Demo.w0 Demo.acme_twice_csv)
       = (Ok tt, w1)
       /\ stage_exits (with_status (fun _ _ _ => 1%Z) Demo.env)
            (MergeDeps, Demo.acme) w1 1
       /\ stage_action (with_status (fun _ _ _ => 1%Z) Demo.env)
            (MergeDeps, Demo.acme) w1 = (Ok tt, w2)
       /\ for_each (with_status (fun _ _ _ => 1%Z) Demo.env)
            [Demo.acme; Demo.acme2] (Demo.w0 Demo.acme_twice_csv)
          = in_sequence (with_status (fun _ _ _ => 1%Z) Demo.env)
              (drop 5 (plan [Demo.acme; Demo.acme2])) w2
       /\ announces msg (Fetch, Demo.acme2)
       /\ events (in_sequence (with_status (fun _ _ _ => 1%Z) Demo.env)
                    (drop 5 (plan [Demo.acme; Demo.acme2]))) w2
          = Print msg :: rest.
Proof.
  destruct (exit_status_ignored Demo.env (fun _ _ _ => 1%Z))
    as (Hmain & _ & _ & Hcheckout & _).
  split; [apply Hmain|]. split; [by rewrite Hmain|].
  destruct (exit_status_ignored (with_status (fun _ _ _ => 1%Z) Demo.env)
              (fun _ _ rc => rc))
    as (_ & _ & _ & Hco & _ & _ & _ & _ & Hgo).
  split; [apply Hco; reflexivity|].
  split; [reflexivity|].
  set (E1 := with_status (fun _ _ _ => 1%Z) Demo.env) in *.
  set (w1 := snd (in_sequence E1 (take 4 (plan [Demo.acme; Demo.acme2]))
                    (Demo.w0 Demo.acme_twice_csv))).
  assert (Hpre : in_sequence E1 (take 4 (plan [Demo.acme; Demo.acme2]))
                   (Demo.w0 Demo.acme_twice_csv) = (Ok tt, w1))
    by (vm_compute; reflexivity).
  assert (Hex : stage_exits E1 (MergeDeps, Demo.acme) w1 1).
  { exists "c0ffee-v1.0", (snd (resolve_in_merge E1 Demo.acme w1)).
    split; vm_compute; reflexivity. }
  destruct (Hgo [Demo.acme; Demo.acme2] (Demo.w0 Demo.acme_twice_csv) w1 4
              (MergeDeps, Demo.acme) 1%Z eq_refl Hpre Hex)
    as (w2 & Hst & Hrest & Hnext).
  change (plan [Demo.acme; Demo.acme2] !! 5) with (Some (Fetch, Demo.acme2))
    in Hnext.
  destruct Hnext as (msg & rest & Hann & Hev).
  exists w1, w2, msg, rest. by repeat split.
Defined.

Lemma load_failure_ends_run_demo :
  stat Demo.env PROJECTS_CSV (mkWorld Demo.base []) = None
  /\ main Demo.env (mkWorld Demo.base [])
     = (Raise FileNotFoundError, mkWorld Demo.base [])
  /\ stat Demo.env PROJECTS_CSV (Demo.w0 "acme,https://example.test/acme.git")
     = Some (File "acme,https://example.test/acme.git")
  /\ Exists (fun r => length r < 3)
       (csv_reader Demo.env "acme,https://example.test/acme.git")
  /\ main Demo.env (Demo.w0 "acme,https://example.test/acme.git")
     = (Raise IndexError, Demo.w0 "acme,https://example.test/acme.git").
Proof.
  assert (Hshort : Exists (fun r => length r < 3)
                     (csv_reader Demo.env "acme,https://example.test/acme.git")).
  { vm_compute. apply Exists_cons_hd. lia. }
  destruct (load_failure_ends_run Demo.env (mkWorld Demo.base []))
    as (Habsent & _).
  destruct (load_failure_ends_run Demo.env
              (Demo.w0 "acme,https://example.test/acme.git"))
    as (_ & Hmalformed).
  split; [reflexivity|]. split; [by apply Habsent|].
  split; [reflexivity|]. split; [exact Hshort|].
  by apply (Hmalformed "acme,https://example.test/acme.git").
Defined.

Lemma dereference_rev_outcomes_demo :
  let w := merge_ready Demo.env Demo.ghost demo_second in
  cwd_ok Demo.env (Some (get_project_path "acme")) w = true
  /\ program Demo.env (dereference_rev_args Demo.ghost)
       (Some (get_project_path "acme")) true
       (called (dereference_rev_args Demo.ghost)
          (Some (get_project_path "acme")) w)
     = (Exited 128 [], fs w)
  /\ fst (dereference_rev Demo.env Demo.ghost w)
     = Raise (CalledProcessError 128)
  /\ fst (add_deps_to_db Demo.env Demo.ghost demo_second)
     = Raise (CalledProcessError 128)
  /\ invocations AddDeps
       (events (add_deps_to_db Demo.env Demo.ghost) demo_second) = 0
  /\ fst (dereference_rev Demo.env Demo.acme demo_second) = Ok "c0ffee-v1.0".
Proof.
  intros w.
  destruct (dereference_rev_outcomes Demo.env Demo.ghost w 128 [] (fs w)
              eq_refl eq_refl) as (_ & Hfail).
  destruct (Hfail ltac:(discriminate)) as (Hraise & Hmerge).
  destruct (Hmerge demo_second eq_refl eq_refl) as (Hstage & Hcalls).
  destruct (dereference_rev_outcomes Demo.env Demo.acme demo_second 0
              (String.list_byte_of_string (" c0ffee-v1.0" +:+ String "010" ""))
              (fs demo_second) eq_refl eq_refl) as (Hzero & _).
  split; [reflexivity|]. split; [reflexivity|].
  split; [by rewrite Hraise|]. split; [by rewrite Hstage|].
  split; [exact Hcalls|].
  by rewrite (Hzero eq_refl (" c0ffee-v1.0" +:+ String "010" "") eq_refl).
Defined.

Lemma add_deps_to_db_unguarded_demo :
  present Demo.env (get_db_path "acme") demo_cloned = false
  /\ present Demo.env (get_dep_path "acme") demo_cloned = false
  /\ fst (resolve_in_merge Demo.env Demo.acme demo_cloned) = Ok "c0ffee-v1.0"
  /\ stat Demo.env (parent (get_db_path "acme"))
       (merge_ready Demo.env Demo.acme demo_cloned) = Some Dir
  /\ events (add_deps_to_db Demo.env Demo.acme) demo_cloned
     = [ Print "Adding deps to the db of acme...";
         Run ["git"; "rev-list"; "-n"; "1"; "v1.0"]
           (Some (get_project_path "acme"));
         Run [ "/work/cochange-tool"; "add-deps"; "--db"; "dbs/acme.db";
               "--commit"; "c0ffee-v1.0"; "--dep-file";
               "deps/acme-deps-structure.json" ] None ].
Proof.
  destruct (add_deps_to_db_unguarded Demo.env Demo.acme demo_cloned
              (snd (resolve_in_merge Demo.env Demo.acme demo_cloned))
              "c0ffee-v1.0" eq_refl) as (Hdir & _ & Hevents & _).
  split; [reflexivity|]. split; [reflexivity|]. split; [reflexivity|].
  split; [exact Hdir|]. exact Hevents.
Defined.

Lemma missing_working_copy_demo :
  let w0 := Demo.w0 "acme,,v1.0" in
  let w := snd (clone Demo.env Demo.broken w0) in
  cwd_ok Demo.env (Some (get_project_path "acme")) w = false
  /\ stat Demo.env (get_project_path "acme") w = None
  /\ clone Demo.env Demo.broken w0 = (Ok tt, w)
  /\ fst (checkout Demo.env Demo.broken w) = Raise FileNotFoundError
  /\ fst (for_each Demo.env [Demo.broken; Demo.acme] w0)
     = Raise FileNotFoundError
  /\ fst (dereference_rev Demo.env Demo.broken w) = Raise FileNotFoundError
  /\ cwd_ok Demo.env (Some (get_project_path "acme")) demo_second = true
  /\ fst (checkout Demo.env Demo.acme demo_second) = Ok tt.
Proof.
  intros w0 w.
  destruct (missing_working_copy Demo.env Demo.broken w) as (Hmissing & _).
  destruct (Hmissing eq_refl) as (Herr & Hco & Hloop & Hde & _).
  destruct (missing_working_copy Demo.env Demo.acme demo_second)
    as (_ & Hthere).
  destruct (Hthere eq_refl) as (Hco' & _).
  split; [reflexivity|]. split; [reflexivity|]. split; [reflexivity|].
  split; [by rewrite Hco, (Herr eq_refl)|].
  split; [by rewrite (Hloop [Demo.acme] w0 eq_refl), (Herr eq_refl)|].
  split; [by rewrite Hde, (Herr eq_refl)|].
  split; [reflexivity|]. by rewrite Hco'.
Defined.

(** * Further properties *)

(** ** The layout on disk *)

Lemma length_append (a b : string) :
  String.length (a +:+ b) = String.length a + String.length b.
Proof. induction a as [|c a IH]; simpl; [done | by rewrite IH]. Qed.

Lemma append_inv_tail (a b s : string) : a +:+ s = b +:+ s -> a = b.
Proof.
  revert b. induction a as [|c a IH]; intros [|d b] H; simpl in *.
  - done.
  - apply (f_equal String.length) in H.
    rewrite (length_append "" s), (length_append (String d b) s) in H.
    simpl in H. lia.
  - apply (f_equal String.length) in H.
    rewrite (length_append "" s), (length_append (String c a) s) in H.
    simpl in H. lia.
  - injection H as -> H. by rewrite (IH b H).
Qed.

Lemma keep_part_long (x : string) : 2 <= String.length x -> keep_part x = true.
Proof.
  destruct x as [|a [|b x]]; simpl; try lia. intros _.
  unfold keep_part. simpl. by destruct (Ascii.eqb a ".").
Qed.

Lemma no_sep_append (a b : string) :
  no_sep (a +:+ b) = no_sep a && no_sep b.
Proof.
  induction a as [|c a IH]; simpl; [done|]. rewrite IH. by destruct (is_sep c).
Qed.

Lemma no_sep_startswith (s : string) :
  no_sep s = true -> startswith_sep s = false.
Proof. destruct s as [|c s]; simpl; [done|]. by destruct (is_sep c). Qed.

Lemma split_sep_no_sep (s : string) : no_sep s = true -> split_sep s = [s].
Proof.
  induction s as [|c s IH]; simpl; [done|].
  destruct (is_sep c); simpl; [done|]. intros H. by rewrite IH.
Qed.

Lemma split_sep_append (d x : string) :
  no_sep d = true -> split_sep (d +:+ String "/" x) = d :: split_sep x.
Proof.
  induction d as [|c d IH]; simpl; [done|].
  destruct (is_sep c); simpl; [done|]. intros H. by rewrite IH.
Qed.

Lemma parse_path_relative (c : ascii) (s : string) :
  is_sep c = false ->
  parse_path (String c s)
  = mkPath "" (List.filter keep_part (split_sep (String c s))).
Proof. intros Hc. unfold parse_path, splitroot. by rewrite Hc. Qed.

(** A directory that is one word, then a relative part that is one
    component. *)
Lemma parse_two_parts (d x : string) :
  single_part d = true -> single_part x = true ->
  parse_path (d +:+ "/" +:+ x) = mkPath "" [d; x].
Proof.
  unfold single_part. intros [Hd Hkd]%andb_prop [Hx Hkx]%andb_prop.
  destruct d as [|c d]; [done|].
  assert (Hc : is_sep c = false).
  { simpl in Hd. by destruct (is_sep c). }
  change (String c d +:+ "/" +:+ x) with (String c (d +:+ String "/" x)).
  rewrite parse_path_relative by done.
  change (String c (d +:+ String "/" x)) with (String c d +:+ String "/" x).
  rewrite split_sep_append by done.
  rewrite split_sep_no_sep by done. simpl. by rewrite Hkd, Hkx.
Qed.

Lemma Path_two_parts (d x : string) :
  single_part d = true -> single_part x = true ->
  Path_ [d; x] = mkPath "" [d; x].
Proof.
  intros Hd Hx. unfold Path_, posix_join. simpl. unfold posix_join2.
  pose proof Hd as Hd'. pose proof Hx as Hx'.
  unfold single_part in Hd', Hx'.
  apply andb_prop in Hd' as [Hd1 Hd2]. apply andb_prop in Hx' as [Hx1 Hx2].
  rewrite (no_sep_startswith x Hx1).
  destruct d as [|c d]; [done|].
  assert (Hend : endswith_sep (String c d) = false).
  { clear -Hd1. revert c Hd1. induction d as [|c' d IH]; intros c H; simpl in *.
    - by destruct (is_sep c).
    - apply andb_prop in H as [_ H]. by apply IH. }
  rewrite Hend. simpl. by apply (parse_two_parts (String c d) x).
Qed.

Lemma single_part_suffix (N sfx : string) :
  no_sep N = true -> no_sep sfx = true -> 2 <= String.length sfx ->
  single_part (N +:+ sfx) = true.
Proof.
  intros HN Hs Hl. unfold single_part.
  rewrite no_sep_append, HN, Hs. simpl. apply keep_part_long.
  rewrite length_append. lia.
Qed.

Lemma resolvers_single_part (N : string) :
  single_part N = true ->
  get_project_path N = mkPath "" ["projects"; N]
  /\ get_db_path N = mkPath "" ["dbs"; N +:+ ".db"]
  /\ get_dep_path N = mkPath "" ["deps"; N +:+ "-deps-structure.json"].
Proof.
  intros HN. pose proof HN as HN'. unfold single_part in HN'.
  apply andb_prop in HN' as [Hns _].
  repeat split.
  - by apply (Path_two_parts "projects" N).
  - apply (Path_two_parts "dbs" (N +:+ ".db")); [done|].
    apply single_part_suffix; [done | done | simpl; lia].
  - apply (Path_two_parts "deps" (N +:+ "-deps-structure.json")); [done|].
    apply single_part_suffix; [done | done | simpl; lia].
Qed.

(** X1: for a project name that is one path component, the three paths
    print as [projects/N], [dbs/N.db] and [deps/N-deps-structure.json], and
    each lies directly in its root directory. *)
Theorem layout_single_part (N : string) :
  single_part N = true ->
  str (get_project_path N) = "projects/" +:+ N
  /\ str (get_db_path N) = "dbs/" +:+ N +:+ ".db"
  /\ str (get_dep_path N) = "deps/" +:+ N +:+ "-deps-structure.json"
  /\ parent (get_project_path N) = PROJECTS_DIR
  /\ parent (get_db_path N) = DBS_DIR
  /\ parent (get_dep_path N) = DEPS_DIR.
Proof.
  intros HN. destruct (resolvers_single_part N HN) as (-> & -> & ->).
  repeat split.
Qed.

Lemma layout_single_part_acme :
  single_part "acme" = true
  /\ str (get_db_path "acme") = "dbs/acme.db"
  /\ parent (get_dep_path "acme") = DEPS_DIR.
Proof.
  destruct (layout_single_part "acme" eq_refl) as (_ & Hdb & _ & _ & _ & Hdep).
  split; [reflexivity|]. split; [exact Hdb | exact Hdep].
Defined.

(** X2: two project names that are single path components and differ
    share no artifact path, and the three artifact paths of one project
    are distinct. *)
Theorem artifacts_disjoint (p q : Project) :
  single_part (name p) = true -> single_part (name q) = true ->
  name p <> name q ->
  NoDup (artifacts p)
  /\ forall a b, a ∈ artifacts p -> b ∈ artifacts q -> a <> b.
Proof.
  intros Hp Hq Hne. unfold artifacts.
  destruct (resolvers_single_part (name p) Hp) as (-> & -> & ->).
  destruct (resolvers_single_part (name q) Hq) as (-> & -> & ->).
  split.
  - repeat constructor; rewrite ?elem_of_cons, ?elem_of_nil;
      intros H; repeat destruct H as [H|H]; try discriminate H; done.
  - intros a b Ha Hb.
    repeat (apply elem_of_cons in Ha as [->|Ha]);
      try (by apply elem_of_nil in Ha);
      repeat (apply elem_of_cons in Hb as [->|Hb]);
      try (by apply elem_of_nil in Hb);
      try discriminate; intros [= H]; apply Hne; [done|..];
      by eapply append_inv_tail.
Qed.

Lemma artifacts_disjoint_demo :
  single_part "acme" = true /\ single_part "zeta" = true /\ "acme" <> "zeta"
  /\ NoDup (artifacts Demo.acme).
Proof.
  destruct (artifacts_disjoint Demo.acme (mkProject "zeta" "" "")
              eq_refl eq_refl ltac:(discriminate)) as (Hnd & _).
  split; [reflexivity|]. split; [reflexivity|]. split; [discriminate|].
  exact Hnd.
Defined.

(** ** Printing a path and reading it back *)

Lemma split_sep_parts (s : string) :
  Forall (fun x => no_sep x = true) (split_sep s).
Proof.
  induction s as [|c s IH]; simpl; [by repeat constructor|].
  destruct (is_sep c) eqn:Hc; [by constructor|].
  destruct (split_sep s) as [|x xs]; [by repeat constructor; simpl; rewrite Hc|].
  apply Forall_cons in IH as [Hx Hxs]. constructor; [|done].
  simpl. by rewrite Hc, Hx.
Qed.

Lemma filter_keep_parts (l : list string) :
  Forall (fun x => no_sep x = true) l ->
  Forall (fun x => single_part x = true) (List.filter keep_part l).
Proof.
  induction 1 as [|x l Hx _ IH]; simpl; [constructor|].
  destruct (keep_part x) eqn:Hk; [|done]. constructor; [|done].
  unfold single_part. by rewrite Hx, Hk.
Qed.

Lemma filter_single_parts (l : list string) :
  Forall (fun x => single_part x = true) l -> List.filter keep_part l = l.
Proof.
  induction 1 as [|x l Hx _ IH]; simpl; [done|].
  unfold single_part in Hx. apply andb_prop in Hx as [_ ->]. by rewrite IH.
Qed.

Lemma splitroot_root (s : string) : (splitroot s).1 ∈ [""; "/"; "//"].
Proof.
  destruct s as [|c1 [|c2 r2]]; simpl; [by repeat constructor|..].
  - destruct (is_sep c1); by repeat constructor.
  - destruct (is_sep c1); [|by repeat constructor].
    destruct (is_sep c2); [|by repeat constructor].
    destruct (startswith_sep r2); by repeat constructor.
Qed.

(** The parser leaves paths in normal form. *)
Lemma parse_path_normal (s : string) : normal (parse_path s).
Proof.
  unfold parse_path. destruct s as [|c s]; [by split; repeat constructor|].
  pose proof (splitroot_root (String c s)) as Hr.
  destruct (splitroot (String c s)) as [r rel]. split; [done|].
  simpl. apply filter_keep_parts, split_sep_parts.
Qed.

Lemma split_sep_join_sep (x : string) (xs : list string) :
  Forall (fun y => no_sep y = true) (x :: xs) ->
  split_sep (join_sep (x :: xs)) = x :: xs.
Proof.
  revert x. induction xs as [|y ys IH]; intros x Hall.
  - apply Forall_cons in Hall as [Hx _]. by apply split_sep_no_sep.
  - apply Forall_cons in Hall as [Hx Hys].
    change (join_sep (x :: y :: ys)) with (x +:+ String "/" (join_sep (y :: ys))).
    rewrite split_sep_append by done. by rewrite IH.
Qed.

(** The text of a non-empty list of parts starts with a character that is
    no slash. *)
Lemma join_sep_head (x : string) (xs : list string) :
  single_part x = true ->
  exists c s, join_sep (x :: xs) = String c s /\ is_sep c = false.
Proof.
  unfold single_part. intros [Hn Hk]%andb_prop.
  destruct x as [|c x]; [done|]. simpl in Hn.
  exists c. destruct xs as [|y ys]; eexists; (split; [reflexivity|]);
    by destruct (is_sep c).
Qed.

Lemma single_parts_no_sep (l : list string) :
  Forall (fun x => single_part x = true) l ->
  Forall (fun x => no_sep x = true) l.
Proof.
  intros H. eapply Forall_impl; [exact H|].
  intros x. unfold single_part. by intros [? _]%andb_prop.
Qed.

Lemma parse_rel_parts (l : list string) :
  Forall (fun x => single_part x = true) l ->
  List.filter keep_part (split_sep (join_sep l)) = l.
Proof.
  intros Hl. destruct l as [|x xs]; [done|].
  rewrite split_sep_join_sep by by apply single_parts_no_sep.
  by apply filter_single_parts.
Qed.

Lemma join_sep_startswith (l : list string) :
  Forall (fun x => single_part x = true) l ->
  startswith_sep (join_sep l) = false.
Proof.
  intros Hl. destruct l as [|x xs]; [done|].
  apply Forall_cons in Hl as [Hx _].
  destruct (join_sep_head x xs Hx) as (c & s & -> & Hc). done.
Qed.

Lemma text_of_nonempty (c : ascii) (s : string) :
  (if (String.length (String c s) =? 0)%nat then "." else String c s)
  = String c s.
Proof. reflexivity. Qed.

(** Reading back the text of a path in normal form gives the path. *)
Lemma parse_str_normal (p : Path) : normal p -> parse_path (str p) = p.
Proof.
  destruct p as [r l]. intros [Hr Hl]. simpl in Hr, Hl.
  pose proof (parse_rel_parts l Hl) as Hparts.
  pose proof (join_sep_startswith l Hl) as Hstart.
  unfold str. simpl root. simpl tail.
  repeat (apply elem_of_cons in Hr as [->|Hr]); [..|by apply elem_of_nil in Hr].
  - destruct l as [|x xs]; [done|].
    apply Forall_cons in Hl as [Hx _].
    destruct (join_sep_head x xs Hx) as (c & s & Hjs & Hc).
    change ("" +:+ join_sep (x :: xs)) with (join_sep (x :: xs)).
    rewrite Hjs in *. rewrite text_of_nonempty.
    rewrite parse_path_relative by done. by rewrite Hparts.
  - change ("/" +:+ join_sep l) with (String "/" (join_sep l)).
    rewrite text_of_nonempty. unfold parse_path, splitroot.
    change (is_sep "/") with true. cbv iota.
    destruct (join_sep l) as [|c2 r2] eqn:Hjs.
    + by rewrite <- Hparts.
    + simpl in Hstart. rewrite Hstart. by rewrite Hparts.
  - change ("//" +:+ join_sep l) with (String "/" (String "/" (join_sep l))).
    rewrite text_of_nonempty. unfold parse_path, splitroot.
    change (is_sep "/") with true. cbv iota. rewrite Hstart.
    by rewrite Hparts.
Qed.

(** X3: the text of a path the script builds reads back as the same path:
    printing a parsed path and parsing the text again changes nothing.  So
    the texts of the working copy, the database and the dependency file
    that the script hands to the tools name the paths its guards test. *)
Theorem str_round_trip (s N : string) :
  parse_path (str (parse_path s)) = parse_path s
  /\ parse_path (str (get_project_path N)) = get_project_path N
  /\ parse_path (str (get_db_path N)) = get_db_path N
  /\ parse_path (str (get_dep_path N)) = get_dep_path N.
Proof.
  repeat split; apply parse_str_normal, parse_path_normal.
Qed.

(** ** More on the registry *)

Lemma Project_of_row_take (r : list string) (w : World) :
  Project_of_row (take 3 r) w = Project_of_row r w.
Proof. by destruct r as [|a [|b [|c r]]]. Qed.

(** X4: fields after the third are ignored: a table loads as the table
    with every row cut to three fields does, to the same descriptors or to
    the same [IndexError]. *)
Theorem load_ignores_extra_fields (rows : list (list string)) (w : World) :
  comprehension Project_of_row (take 3 <$> rows) w
  = comprehension Project_of_row rows w
  /\ (Forall (fun r => 3 <= length r) rows ->
      comprehension Project_of_row rows w
      = (Ok (row_project <$> (take 3 <$> rows)), w)).
Proof.
  split.
  - revert w. induction rows as [|r rs IH]; intros w; [done|].
    simpl. apply bind_cong; [apply Project_of_row_take|].
    intros x w1. apply bind_cong; [apply IH | done].
  - intros Hrows. rewrite comprehension_ok by done. f_equal. f_equal.
    rewrite <- list_fmap_compose. apply list_fmap_ext.
    intros i r _. by destruct r as [|a [|b [|c r]]].
Qed.

Section RegistryEdges.

Context (E : Env).

(** X5: with an empty table the run returns at once and the world is as it
    was; with a directory in the place of the table it raises
    [IsADirectoryError], again with the world as it was. *)
Theorem registry_edges (w : World) :
  (forall text,
     stat E PROJECTS_CSV w = Some (File text) -> csv_reader E text = [] ->
     main E w = (Ok tt, w))
  /\ (stat E PROJECTS_CSV w = Some Dir ->
      main E w = (Raise IsADirectoryError, w)).
Proof.
  split.
  - intros text Hs Hrows. unfold main.
    rewrite bind_unfold, (load_projects_ok E w text Hs)
      by (rewrite Hrows; constructor).
    by rewrite Hrows.
  - intros Hs. unfold main, load_projects.
    rewrite bind_unfold, bind_unfold. unfold open_read. by rewrite Hs.
Qed.

(** X6: the loop over two lists one after the other is the loop over the
    first followed by the loop over the second; so when the loop over the
    first raises, the rows of the second are never reached. *)
Theorem for_each_app (ps1 ps2 : list Project) (w : World) :
  for_each E (ps1 ++ ps2) w = (for_each E ps1;; for_each E ps2) w
  /\ (forall e w',
        for_each E ps1 w = (Raise e, w') ->
        for_each E (ps1 ++ ps2) w = (Raise e, w'))
  /\ (forall w',
        for_each E ps1 w = (Ok tt, w') ->
        for_each E (ps1 ++ ps2) w = for_each E ps2 w'
        /\ events (for_each E (ps1 ++ ps2)) w
           = events (for_each E ps1) w ++ events (for_each E ps2) w').
Proof.
  assert (Happ : forall w0,
             for_each E (ps1 ++ ps2) w0
             = (for_each E ps1;; for_each E ps2) w0).
  { induction ps1 as [|p ps IH]; intros w0; [done|].
    simpl. rewrite bind_assoc. apply bind_ext. intros _ w1. apply IH. }
  split; [apply Happ|]. split.
  - intros e w' Hr. by rewrite Happ, bind_unfold, Hr.
  - intros w' Hok. split; [by rewrite Happ, bind_unfold, Hok|].
    transitivity (events (for_each E ps1;; for_each E ps2) w).
    { unfold events. by rewrite Happ. }
    rewrite events_bind by solve_grows. by rewrite Hok.
Qed.

End RegistryEdges.

Lemma registry_edges_demo :
  stat Demo.env PROJECTS_CSV (Demo.w0 "") = Some (File "")
  /\ csv_reader Demo.env "" = []
  /\ main Demo.env (Demo.w0 "") = (Ok tt, Demo.w0 "").
Proof.
  destruct (registry_edges Demo.env (Demo.w0 "")) as (Hempty & _).
  split; [reflexivity|]. split; [reflexivity|].
  by apply (Hempty "").
Defined.

Lemma for_each_app_demo :
  fst (for_each Demo.env [Demo.ghost] demo_second)
  = Raise (CalledProcessError 128)
  /\ fst (for_each Demo.env ([Demo.ghost] ++ [Demo.acme]) demo_second)
     = Raise (CalledProcessError 128)
  /\ invocations Checkout
       (events (for_each Demo.env ([Demo.ghost] ++ [Demo.acme])) demo_second)
     = 1.
Proof.
  destruct (for_each_app Demo.env [Demo.ghost] [Demo.acme] demo_second)
    as (_ & Hraise & _).
  split; [reflexivity|]. split; [|reflexivity].
  by rewrite (Hraise (CalledProcessError 128)
                (snd (for_each Demo.env [Demo.ghost] demo_second)) eq_refl).
Defined.

Lemma load_ignores_extra_fields_demo :
  Forall (fun r => 3 <= length r) [["acme"; "url"; "v1.0"; "note"; ""]]
  /\ comprehension Project_of_row [["acme"; "url"; "v1.0"; "note"; ""]]
       (Demo.w0 "")
     = (Ok [mkProject "acme" "url" "v1.0"], Demo.w0 "").
Proof.
  assert (Forall (fun r => 3 <= length r)
            [["acme"; "url"; "v1.0"; "note"; ""]]) as Hrows
    by (repeat constructor; simpl; lia).
  split; [exact Hrows|].
  exact (proj2 (load_ignores_extra_fields _ (Demo.w0 "")) Hrows).
Defined.

(** ** What a run can print and call *)

Lemma count_events_app (P : Event -> bool) (l1 l2 : list Event) :
  count_events P (l1 ++ l2) = count_events P l1 + count_events P l2.
Proof. unfold count_events. by rewrite List.filter_app, length_app. Qed.

Lemma count_events_is_run (t : Tool) (tr : list Event) :
  count_events (is_run t) tr = invocations t tr.
Proof. reflexivity. Qed.

Lemma at_most_ret {A} (P : Event -> bool) (a : A) : at_most P 0 (mret a : M A).
Proof. intros w. by rewrite events_ret. Qed.

Lemma at_most_bind {A B} (P : Event -> bool) (n m : nat) (c : M A)
    (k : A -> M B) :
  grows c -> (forall a, grows (k a)) ->
  at_most P n c -> (forall a, at_most P m (k a)) ->
  at_most P (n + m) (c ≫= k).
Proof.
  intros Hgc Hgk Hc Hk w. rewrite events_bind, count_events_app by done.
  specialize (Hc w). destruct (c w) as [[a|e] w'].
  - specialize (Hk a w'). lia.
  - unfold count_events at 2. simpl. lia.
Qed.

Lemma all_events_ret {A} (Q : Event -> Prop) (a : A) :
  all_events Q (mret a : M A).
Proof. intros w. rewrite events_ret. constructor. Qed.

Lemma all_events_bind {A B} (Q : Event -> Prop) (c : M A) (k : A -> M B) :
  grows c -> (forall a, grows (k a)) ->
  all_events Q c -> (forall a, all_events Q (k a)) ->
  all_events Q (c ≫= k).
Proof.
  intros Hgc Hgk Hc Hk w. rewrite events_bind by done.
  apply Forall_app. split; [apply Hc|].
  destruct (c w) as [[a|e] w']; [apply Hk | constructor].
Qed.

Lemma all_events_impl {A} (Q Q' : Event -> Prop) (c : M A) :
  (forall e, Q e -> Q' e) -> all_events Q c -> all_events Q' c.
Proof. intros HQ Hc w. eapply Forall_impl; [apply Hc | done]. Qed.

Section Shape.

Context (E : Env).

(** The calls of one tool that the stages of one project can make: each
    tool belongs to one stage. *)
Lemma at_most_stages_tool (t : Tool) (p : Project) :
  at_most (is_run t) 1 (stages E p).
Proof.
  unfold stages.
  replace 1
    with ((if decide (Clone = t) then 1 else 0)
          + ((if decide (Checkout = t) then 1 else 0)
             + ((if decide (Extract = t) then 1 else 0)
                + ((if decide (Dump = t) then 1 else 0)
                   + ((if decide (RevList = t) then 1 else 0)
                      + (if decide (AddDeps = t) then 1 else 0))))))
    by (by destruct t).
  apply at_most_bind; [solve_grows | intros; solve_grows | | intros _].
  { intros w. rewrite count_events_is_run.
    rewrite clone_invocations. destruct (present E _ w); lia. }
  apply at_most_bind; [solve_grows | intros; solve_grows | | intros _].
  { intros w. rewrite count_events_is_run.
    by rewrite checkout_invocations. }
  apply at_most_bind; [solve_grows | intros; solve_grows | | intros _].
  { intros w. rewrite count_events_is_run.
    rewrite dump_deps_invocations.
    destruct (present E _ w); [|destruct (succeeds _ w)]; lia. }
  apply at_most_bind; [solve_grows | intros; solve_grows | | intros _].
  { intros w. rewrite count_events_is_run.
    rewrite dump_cochange_db_invocations.
    destruct (present E _ w); [|destruct (succeeds _ w)]; lia. }
  intros w. rewrite count_events_is_run.
  rewrite add_deps_to_db_invocations.
  destruct (succeeds _ w); [destruct (fst _)|]; lia.
Qed.

Lemma at_most_stages_call (p : Project) : at_most is_call 6 (stages E p).
Proof.
  unfold stages. change 6 with (1 + (1 + (1 + (1 + 2)))).
  apply at_most_bind; [solve_grows | intros; solve_grows | | intros _].
  { intros w. rewrite clone_events.
    destruct (present E _ w); unfold count_events; simpl; lia. }
  apply at_most_bind; [solve_grows | intros; solve_grows | | intros _].
  { intros w. rewrite checkout_events. unfold count_events. simpl. lia. }
  apply at_most_bind; [solve_grows | intros; solve_grows | | intros _].
  { intros w. rewrite dump_deps_events.
    destruct (present E _ w); [|destruct (succeeds _ w)];
      unfold count_events; simpl; lia. }
  apply at_most_bind; [solve_grows | intros; solve_grows | | intros _].
  { intros w. rewrite dump_cochange_db_events.
    destruct (present E _ w); [|destruct (succeeds _ w)];
      unfold count_events; simpl; lia. }
  intros w. rewrite add_deps_to_db_events.
  destruct (succeeds _ w); [destruct (fst _)|]; unfold count_events; simpl; lia.
Qed.

Lemma at_most_for_each (P : Event -> bool) (n : nat) (ps : list Project) :
  (forall p, at_most P n (stages E p)) ->
  at_most P (length ps * n) (for_each E ps).
Proof.
  intros Hst. induction ps as [|p ps IH]; [apply at_most_ret|].
  simpl. apply at_most_bind; [solve_grows | intros; solve_grows | apply Hst |].
  by intros _.
Qed.

(** X7: a run over [n] rows starts each of the six programs at most [n]
    times, so at most [6 n] programs in all, whatever the tools do and
    whatever is on disk. *)
Theorem calls_bounded (ps : list Project) (w : World) :
  (forall t, invocations t (events (for_each E ps) w) <= length ps)
  /\ count_events is_call (events (for_each E ps) w) <= 6 * length ps.
Proof.
  split.
  - intros t.
    pose proof (at_most_for_each (is_run t) 1 ps
                  (at_most_stages_tool t) w) as H.
    unfold count_events in H. unfold invocations. lia.
  - pose proof (at_most_for_each is_call 6 ps at_most_stages_call w). lia.
Qed.

Lemma script_event_print (s : Stage) (p : Project) (msg : string) :
  msg ∈ announcements s p -> script_event E p (Print msg).
Proof. intros H. by exists s. Qed.

(** Splitting a list of events of a stage into its events. *)
Ltac each_event :=
  repeat (apply Forall_cons; split); try apply Forall_nil_2.

Ltac line_of s :=
  apply (script_event_print s); simpl; rewrite !elem_of_cons; by auto.

Lemma all_events_stages (p : Project) :
  all_events (script_event E p) (stages E p).
Proof.
  unfold stages.
  apply all_events_bind; [solve_grows | intros; solve_grows | | intros _].
  { intros w. rewrite clone_events.
    destruct (present E _ w); each_event; try line_of Fetch.
    simpl. by left. }
  apply all_events_bind; [solve_grows | intros; solve_grows | | intros _].
  { intros w. rewrite checkout_events. each_event; try line_of Pin.
    simpl. right. by left. }
  apply all_events_bind; [solve_grows | intros; solve_grows | | intros _].
  { intros w. rewrite dump_deps_events.
    destruct (present E _ w); [|destruct (succeeds _ w)];
      each_event; try line_of ExtractDeps.
    simpl. do 2 right. by left. }
  apply all_events_bind; [solve_grows | intros; solve_grows | | intros _].
  { intros w. rewrite dump_cochange_db_events.
    destruct (present E _ w); [|destruct (succeeds _ w)];
      each_event; try line_of InitStore.
    simpl. do 3 right. by left. }
  intros w. rewrite add_deps_to_db_events.
  destruct (succeeds _ w); [destruct (fst _) as [commit|]|];
    each_event; try line_of MergeDeps; simpl.
  - do 4 right. by left.
  - do 5 right. by exists commit.
  - do 4 right. by left.
Qed.

(** X8: the loop starts nothing but its own six calls: every event of a
    run over [ps] is a line of a stage of some row of [ps], or the clone,
    checkout, extractor, dump, resolution or add-deps call of some row,
    with the working directory the script gives that call. *)
Theorem only_script_events (ps : list Project) (w : World) :
  Forall (fun e => exists p, p ∈ ps /\ script_event E p e)
    (events (for_each E ps) w).
Proof.
  revert w. change (all_events (fun e => exists p, p ∈ ps /\ script_event E p e)
                      (for_each E ps)).
  induction ps as [|p ps IH]; [apply all_events_ret|].
  simpl. apply all_events_bind; [solve_grows | intros; solve_grows | |].
  - eapply all_events_impl; [|apply all_events_stages].
    intros e He. exists p. split; [by left | done].
  - intros _. eapply all_events_impl; [|exact IH].
    intros e (q & Hq & He). exists q. split; [by right | done].
Qed.

End Shape.

(** ** The exceptions of a run *)

Lemma raises_only_ret {A} (R : Exc -> World -> Prop) (a : A) :
  raises_only R (mret a : M A).
Proof. by intros w e w'. Qed.

Lemma raises_only_throw {A} (R : Exc -> World -> Prop) (e : Exc) :
  (forall w, R e w) -> raises_only R (mthrow e : M A).
Proof. intros HR w e' w' [= <- <-]. apply HR. Qed.

Lemma raises_only_bind {A B} (R : Exc -> World -> Prop) (c : M A)
    (k : A -> M B) :
  raises_only R c -> (forall a, raises_only R (k a)) ->
  raises_only R (c ≫= k).
Proof.
  intros Hc Hk w e w'. rewrite bind_unfold.
  destruct (c w) as [[a|e0] w0] eqn:Hcw.
  - apply Hk.
  - intros [= <- <-]. by eapply Hc.
Qed.

Lemma raises_only_impl {A} (R R' : Exc -> World -> Prop) (c : M A) :
  (forall e w, R e w -> R' e w) -> raises_only R c -> raises_only R' c.
Proof. intros HR Hc w e w' H. by eapply HR, Hc. Qed.

Lemma raises_only_try {A} (c : M A) (h : Errno -> M A) :
  raises_only os_error c -> (forall n, raises_only os_error (h n)) ->
  raises_only os_error (try_except_OSError c h).
Proof.
  intros Hc Hh w e w'. unfold try_except_OSError.
  destruct (c w) as [[a|e0] w0] eqn:Hcw; [done|].
  destruct (Hc w e0 w0 Hcw) as [n ->]. apply Hh.
Qed.

Lemma raises_only_print (R : Exc -> World -> Prop) (msg : string) :
  raises_only R (print msg).
Proof. by intros w e w'. Qed.

Lemma os_error_loop_error (e : Exc) (w : World) :
  os_error e w -> loop_error e w.
Proof. by intros [n ->]. Qed.

Section Exceptions.

Context (E : Env).

Lemma raises_only_exists (R : Exc -> World -> Prop) (p : Path) :
  raises_only R (exists_ E p).
Proof. by intros w e w'. Qed.

Lemma raises_only_is_dir (R : Exc -> World -> Prop) (p : Path) :
  raises_only R (is_dir E p).
Proof. by intros w e w'. Qed.

Lemma raises_only_os_mkdir (p : Path) : raises_only os_error (os_mkdir E p).
Proof.
  intros w e w'. unfold os_mkdir.
  destruct (tail (absolute E p)); [intros [= <- <-]; by eexists|].
  destruct (stat E _ w) as [[|x]|]; try (intros [= <- <-]; by eexists).
  destruct (fs w !! _); [intros [= <- <-]; by eexists | done].
Qed.

Lemma raises_only_found_dir (p : Path) (n : Errno) :
  raises_only os_error
    (is_dir E p ≫= fun b : bool => if b then mret tt else mthrow (OSError n)).
Proof.
  apply raises_only_bind; [apply raises_only_is_dir|].
  intros []; [apply raises_only_ret|].
  apply raises_only_throw. intros w. by exists n.
Qed.

Lemma raises_only_mkdir_leaf (p : Path) :
  raises_only os_error (mkdir_leaf E p).
Proof.
  apply raises_only_try; [apply raises_only_os_mkdir|].
  intros n. destruct n; try apply raises_only_found_dir.
  apply raises_only_throw. intros w. by eexists.
Qed.

Lemma raises_only_mkdir_parents (r : string) (rtail : list string) :
  raises_only os_error (mkdir_parents E r rtail).
Proof.
  induction rtail as [|x rparent IH]; simpl;
    (apply raises_only_try; [apply raises_only_os_mkdir|]);
    intros n; destruct n; try apply raises_only_found_dir.
  - apply raises_only_throw. intros w. by eexists.
  - apply raises_only_bind; [exact IH|]. intros _.
    apply raises_only_mkdir_leaf.
Qed.

(** Making a directory raises errors of the operating system only. *)
Lemma raises_only_mkdir (d : Path) : raises_only os_error (mkdir E d).
Proof. apply raises_only_mkdir_parents. Qed.

(** Starting a program raises errors of the operating system only: the
    exit status is never raised. *)
Lemma raises_only_sp_run (args : list string) (cwd : option Path)
    (capture : bool) :
  raises_only os_error (sp_run E args cwd capture).
Proof.
  intros w e w'. unfold sp_run.
  destruct (program E args cwd capture _) as [[rc out|n] m];
    destruct cwd as [d|]; try done;
    try (intros [= <- <-]; by eexists);
    destruct (stat E d w) as [[|x]|]; try done;
    intros [= <- <-]; by eexists.
Qed.

Lemma raises_only_call (args : list string) (cwd : option Path) :
  raises_only os_error (sp_run E args cwd false ≫= fun _ => mret tt).
Proof.
  apply raises_only_bind; [apply raises_only_sp_run|].
  intros _. apply raises_only_ret.
Qed.

Lemma raises_only_clone (p : Project) : raises_only os_error (clone E p).
Proof.
  unfold clone. apply raises_only_bind; [apply raises_only_exists|].
  intros []; [apply raises_only_print|].
  apply raises_only_bind; [apply raises_only_print|]. intros _.
  apply raises_only_call.
Qed.

Lemma raises_only_checkout (p : Project) : raises_only os_error (checkout E p).
Proof.
  unfold checkout. apply raises_only_bind; [apply raises_only_print|].
  intros _. apply raises_only_call.
Qed.

Lemma raises_only_dump_deps (p : Project) :
  raises_only os_error (dump_deps E p).
Proof.
  unfold dump_deps. apply raises_only_bind; [apply raises_only_exists|].
  intros []; [apply raises_only_print|].
  apply raises_only_bind; [apply raises_only_print|]. intros _.
  apply raises_only_bind; [apply raises_only_mkdir|]. intros _.
  apply raises_only_call.
Qed.

Lemma raises_only_dump_cochange_db (p : Project) :
  raises_only os_error (dump_cochange_db E p).
Proof.
  unfold dump_cochange_db. apply raises_only_bind; [apply raises_only_exists|].
  intros []; [apply raises_only_print|].
  apply raises_only_bind; [apply raises_only_print|]. intros _.
  apply raises_only_bind; [apply raises_only_mkdir|]. intros _.
  apply raises_only_call.
Qed.

Lemma raises_only_dereference_rev (p : Project) :
  raises_only loop_error (dereference_rev E p).
Proof.
  intros w e w'. unfold dereference_rev. rewrite bind_unfold.
  pose proof (sp_run_trace E (dereference_rev_args p)
                (Some (get_project_path (name p))) true w) as Htr.
  destruct (sp_run E _ _ true w) as [[res|e0] w1] eqn:Hrun.
  - assert (Hafter : after_resolution w1).
    { exists p. simpl in Htr. rewrite Htr. apply last_snoc. }
    rewrite bind_unfold. unfold check_returncode.
    case_decide as Hrc.
    + simpl. destruct (utf8_decode E _); [done|]. by intros [= <- <-].
    + by intros [= <- <-].
  - intros [= <- <-]. apply os_error_loop_error.
    by eapply raises_only_sp_run.
Qed.

Lemma raises_only_add_deps_to_db (p : Project) :
  raises_only loop_error (add_deps_to_db E p).
Proof.
  unfold add_deps_to_db.
  apply raises_only_bind; [apply raises_only_print|]. intros _.
  apply raises_only_bind.
  { eapply raises_only_impl; [apply os_error_loop_error|].
    apply raises_only_mkdir. }
  intros _. apply raises_only_bind; [apply raises_only_dereference_rev|].
  intros commit. eapply raises_only_impl; [apply os_error_loop_error|].
  apply raises_only_call.
Qed.

Lemma raises_only_stages (p : Project) : raises_only loop_error (stages E p).
Proof.
  unfold stages.
  apply raises_only_bind.
  { eapply raises_only_impl; [apply os_error_loop_error|].
    apply raises_only_clone. }
  intros _. apply raises_only_bind.
  { eapply raises_only_impl; [apply os_error_loop_error|].
    apply raises_only_checkout. }
  intros _. apply raises_only_bind.
  { eapply raises_only_impl; [apply os_error_loop_error|].
    apply raises_only_dump_deps. }
  intros _. apply raises_only_bind.
  { eapply raises_only_impl; [apply os_error_loop_error|].
    apply raises_only_dump_cochange_db. }
  intros _. apply raises_only_add_deps_to_db.
Qed.

Lemma raises_only_for_each (ps : list Project) :
  raises_only loop_error (for_each E ps).
Proof.
  induction ps as [|p ps IH]; [apply raises_only_ret|].
  simpl. apply raises_only_bind; [apply raises_only_stages | by intros _].
Qed.

(** The load leaves the world as it was, whatever it gives. *)
Lemma load_projects_world (w : World) : snd (load_projects E w) = w.
Proof.
  unfold load_projects. rewrite bind_unfold. unfold open_read.
  destruct (stat E PROJECTS_CSV w) as [[|text]|]; try done.
  generalize (csv_reader E text). intros rows.
  induction rows as [|r rs IH]; [done|]. simpl. rewrite bind_unfold.
  destruct r as [|a [|b [|c r]]]; try done. simpl.
  rewrite bind_unfold. by destruct (comprehension Project_of_row rs w) as [[]].
Qed.

Lemma raises_only_getitem (r : list string) (i : nat) :
  raises_only table_error (getitem r i).
Proof.
  unfold getitem. destruct (r !! i); [apply raises_only_ret|].
  apply raises_only_throw. by left.
Qed.

Lemma raises_only_comprehension (rows : list (list string)) :
  raises_only table_error (comprehension Project_of_row rows).
Proof.
  induction rows as [|r rs IH]; simpl; [apply raises_only_ret|].
  apply raises_only_bind.
  { unfold Project_of_row.
    repeat (apply raises_only_bind; [apply raises_only_getitem|]; intros ?).
    apply raises_only_ret. }
  intros x. apply raises_only_bind; [exact IH|]. intros xs.
  apply raises_only_ret.
Qed.

Lemma raises_only_load_projects : raises_only table_error (load_projects E).
Proof.
  unfold load_projects. apply raises_only_bind.
  - intros w e w'. unfold open_read.
    destruct (stat E PROJECTS_CSV w) as [[|text]|]; try done;
      intros [= <- <-]; right; by eexists.
  - intros text. apply raises_only_comprehension.
Qed.

(** X9: where two of the exceptions of a run come from.  An
    [IndexError] comes from the table only: the run that raises it has
    printed nothing, started nothing and changed nothing.  A
    [CalledProcessError] comes from the resolution of a revision only: it
    carries a status other than 0, and the last event before it is the
    rev-list call of some project; so the status of a clone, checkout,
    extractor, dump or add-deps program is never raised. *)
Theorem index_and_status_errors (w w' : World) (e : Exc) :
  main E w = (Raise e, w') ->
  (e = IndexError -> w' = w)
  /\ (forall rc,
        e = CalledProcessError rc -> rc <> 0%Z /\ after_resolution w').
Proof.
  unfold main. rewrite bind_unfold.
  pose proof (load_projects_world w) as Hw.
  destruct (load_projects E w) as [[ps|e0] w0] eqn:Hload; simpl in Hw.
  - intros Hrun. apply raises_only_for_each in Hrun.
    split; [by intros ->|]. by intros rc ->.
  - intros [= <- <-]. split; [done|]. intros rc ->.
    by destruct (raises_only_load_projects w _ w0 Hload) as [? | [n ?]].
Qed.

End Exceptions.

Lemma index_and_status_errors_demo :
  fst (main Demo.env (Demo.w0 "acme,https://example.test/acme.git,nope"))
  = Raise (CalledProcessError 128)
  /\ after_resolution
       (snd (main Demo.env
               (Demo.w0 "acme,https://example.test/acme.git,nope"))).
Proof.
  assert (fst (main Demo.env
                 (Demo.w0 "acme,https://example.test/acme.git,nope"))
          = Raise (CalledProcessError 128)) as Hfst by (by vm_compute).
  split; [exact Hfst|].
  destruct (main Demo.env (Demo.w0 "acme,https://example.test/acme.git,nope"))
    as [r w'] eqn:Hm.
  simpl in Hfst. subst r.
  exact (proj2 (proj2 (index_and_status_errors Demo.env _ _ _ Hm) 128%Z
                  eq_refl)).
Defined.

(** ** The commit handed to add-deps *)

Lemma lstrip_head (s : string) :
  lstrip s = "" \/ exists c r, lstrip s = String c r /\ isspace c = false.
Proof.
  induction s as [|c s IH]; simpl; [by left|].
  destruct (isspace c) eqn:Hc; [done|]. right. by exists c, s.
Qed.

Lemma lstrip_fixed (c : ascii) (r : string) :
  isspace c = false -> lstrip (String c r) = String c r.
Proof. intros Hc. simpl. by rewrite Hc. Qed.

Lemma rstrip_head (c : ascii) (r : string) :
  isspace c = false -> exists r', rstrip (String c r) = String c r'.
Proof.
  intros Hc. simpl. destruct (rstrip r); [rewrite Hc|]; by eexists.
Qed.

Lemma rstrip_rstrip (s : string) : rstrip (rstrip s) = rstrip s.
Proof.
  induction s as [|c s IH]; simpl; [done|].
  destruct (rstrip s) as [|d r] eqn:Hr.
  - destruct (isspace c) eqn:Hc; simpl; [done|]. by rewrite Hc.
  - change (rstrip (String c (String d r)))
      with (match rstrip (String d r) with
            | "" => if isspace c then "" else String c ""
            | r' => String c r'
            end).
    by rewrite IH.
Qed.

(** What [strip] returns has no white space at either end. *)
Lemma strip_fixed (s : string) :
  lstrip (strip s) = strip s /\ rstrip (strip s) = strip s.
Proof.
  unfold strip. split; [|apply rstrip_rstrip].
  destruct (lstrip_head s) as [-> | (c & r & -> & Hc)]; [done|].
  destruct (rstrip_head c r Hc) as [r' ->]. by apply lstrip_fixed.
Qed.

Lemma lstrip_all_space (s : string) : all_space s = true -> lstrip s = "".
Proof.
  induction s as [|c s IH]; simpl; [done|].
  intros [-> Hs]%andb_prop. by apply IH.
Qed.

Section Commit.

Context (E : Env).

(** X10: a commit that [dereference_rev] returns has no white space at
    either end, so stripping it again changes nothing. *)
Theorem dereference_rev_stripped (p : Project) (w w' : World)
    (commit : string) :
  dereference_rev E p w = (Ok commit, w') ->
  strip commit = commit /\ lstrip commit = commit /\ rstrip commit = commit.
Proof.
  unfold dereference_rev. rewrite bind_unfold.
  destruct (sp_run E _ _ true w) as [[res|e] w1]; [|done].
  rewrite bind_unfold. unfold check_returncode. case_decide; [|done].
  simpl. destruct (utf8_decode E _) as [s|]; [|done].
  intros [= <- <-]. destruct (strip_fixed s) as [Hl Hr].
  split; [|done]. unfold strip at 1. by rewrite Hl, Hr.
Qed.

(** X11: the commit is not checked.  When the resolution exits with status
    0 and its output is white space only, [dereference_rev] returns the
    empty string and the merge stage calls add-deps with an empty
    commit. *)
Theorem empty_commit_passed_on (p : Project) (w : World)
    (out : list Byte.byte) (s : string) (m : gmap Path Node) :
  let wc := get_project_path (name p) in
  let w1 := merge_ready E p w in
  succeeds (mkdir E (parent (get_db_path (name p)))) w = true ->
  cwd_ok E (Some wc) w1 = true ->
  program E (dereference_rev_args p) (Some wc) true
    (called (dereference_rev_args p) (Some wc) w1) = (Exited 0 out, m) ->
  utf8_decode E out = Some s ->
  all_space s = true ->
  fst (dereference_rev E p w1) = Ok ""
  /\ events (add_deps_to_db E p) w
     = [ Print ("Adding deps to the db of " +:+ name p +:+ "...");
         Run (dereference_rev_args p) (Some wc);
         Run (add_deps_args E p "") None ].
Proof.
  intros wc w1 Hmk Hcwd Hp Hs Hspace.
  assert (Hd : fst (dereference_rev E p w1) = Ok "").
  { rewrite (dereference_rev_started E p w1 0 out m Hcwd Hp), Hs. simpl.
    unfold strip. by rewrite lstrip_all_space. }
  split; [done|].
  rewrite add_deps_to_db_events, Hmk. fold w1. by rewrite Hd.
Qed.

End Commit.

Lemma dereference_rev_stripped_demo :
  dereference_rev Demo.env Demo.acme demo_second
  = (Ok "c0ffee-v1.0", snd (dereference_rev Demo.env Demo.acme demo_second))
  /\ strip "c0ffee-v1.0" = "c0ffee-v1.0".
Proof.
  split; [reflexivity|].
  by destruct (dereference_rev_stripped Demo.env Demo.acme demo_second
                 (snd (dereference_rev Demo.env Demo.acme demo_second))
                 "c0ffee-v1.0" eq_refl) as (H & _).
Defined.

Lemma empty_commit_passed_on_demo :
  succeeds (mkdir demo_blank (parent (get_db_path "acme"))) demo_cloned = true
  /\ all_space (String "010" "") = true
  /\ events (add_deps_to_db demo_blank Demo.acme) demo_cloned
     = [ Print "Adding deps to the db of acme...";
         Run ["git"; "rev-list"; "-n"; "1"; "v1.0"]
           (Some (get_project_path "acme"));
         Run [ "/work/cochange-tool"; "add-deps"; "--db"; "dbs/acme.db";
               "--commit"; ""; "--dep-file";
               "deps/acme-deps-structure.json" ] None ].
Proof.
  destruct (empty_commit_passed_on demo_blank Demo.acme demo_cloned
              (String.list_byte_of_string (String "010" ""))
              (String "010" "")
              (fs (merge_ready demo_blank Demo.acme demo_cloned))
              eq_refl eq_refl eq_refl eq_refl eq_refl) as (_ & Hev).
  split; [reflexivity|]. split; [reflexivity|]. exact Hev.
Defined.

(** ** A regular file where a directory is needed *)

Section Blocked.

Context (E : Env).

(** [mkdir] cannot turn a regular file into a directory: it raises an error
    of the operating system and leaves the file. *)
Lemma mkdir_blocked (d : Path) (w : World) (x : string) :
  stat E d w = Some (File x) ->
  exists n, fst (mkdir E d w) = Raise (OSError n).
Proof.
  intros Hs. destruct (mkdir E d w) as [[[]|e] w'] eqn:Hm.
  - pose proof (mkdir_ok E d w w' Hm) as Hdir.
    pose proof (fs_grows_subseteq (mkdir E d) w (fs_grows_mkdir E d)) as Hsub.
    rewrite Hm in Hsub.
    rewrite (stat_subseteq E d w w' (File x) Hsub Hs) in Hdir. done.
  - destruct (raises_only_mkdir E d w e w' Hm) as [n ->]. by exists n.
Qed.

Lemma succeeds_blocked (d : Path) (w : World) (x : string) :
  stat E d w = Some (File x) -> succeeds (mkdir E d) w = false.
Proof.
  intros Hs. unfold succeeds. by destruct (mkdir_blocked d w x Hs) as [n ->].
Qed.

(** X12: when a regular file stands where a stage needs its directory, the
    stage prints its line, raises an error of the operating system and
    starts no program: the extract stage for the dependency directory, the
    initialise and merge stages for the directory of the database. *)
Theorem blocked_by_file (p : Project) (w : World) (x : string) :
  (present E (get_dep_path (name p)) w = false ->
   stat E (absolute E DEPS_DIR) w = Some (File x) ->
   (exists n, fst (dump_deps E p w) = Raise (OSError n))
   /\ events (dump_deps E p) w
      = [Print ("Extracting dependency info from " +:+ name p)])
  /\ (present E (get_db_path (name p)) w = false ->
      stat E (parent (get_db_path (name p))) w = Some (File x) ->
      (exists n, fst (dump_cochange_db E p w) = Raise (OSError n))
      /\ events (dump_cochange_db E p) w
         = [Print ("Dumping cochange info into db for " +:+ name p +:+ "...")])
  /\ (stat E (parent (get_db_path (name p))) w = Some (File x) ->
      (exists n, fst (add_deps_to_db E p w) = Raise (OSError n))
      /\ events (add_deps_to_db E p) w
         = [Print ("Adding deps to the db of " +:+ name p +:+ "...")]).
Proof.
  split; [|split].
  - intros Hp Hs. split.
    + destruct (mkdir_blocked _ w x Hs) as [n Hn]. exists n.
      unfold dump_deps. rewrite bind_unfold, exists_run, Hp.
      rewrite bind_unfold, print_run, bind_unfold, mkdir_after_print.
      by rewrite Hn.
    + by rewrite dump_deps_events, Hp, (succeeds_blocked _ w x Hs).
  - intros Hp Hs. split.
    + destruct (mkdir_blocked _ w x Hs) as [n Hn]. exists n.
      unfold dump_cochange_db. rewrite bind_unfold, exists_run, Hp.
      rewrite bind_unfold, print_run, bind_unfold, mkdir_after_print.
      by rewrite Hn.
    + by rewrite dump_cochange_db_events, Hp, (succeeds_blocked _ w x Hs).
  - intros Hs. split.
    + destruct (mkdir_blocked _ w x Hs) as [n Hn]. exists n.
      rewrite add_deps_to_db_resolve, bind_unfold, resolve_in_merge_run.
      by rewrite Hn.
    + by rewrite add_deps_to_db_events, (succeeds_blocked _ w x Hs).
Qed.

(** X13: add-deps is called exactly when the merge stage has a commit.
    When the stage's resolution returns one, the stage's events are those
    of the resolution followed by the add-deps call with that commit; when
    it raises, whatever the error, the stage raises the same from the same
    world and calls no add-deps. *)
Theorem add_deps_needs_commit (p : Project) (w : World) :
  match resolve_in_merge E p w with
  | (Ok commit, w2) =>
      events (add_deps_to_db E p) w
      = events (resolve_in_merge E p) w ++ [Run (add_deps_args E p commit) None]
      /\ invocations AddDeps (events (add_deps_to_db E p) w) = 1
  | (Raise e, w2) =>
      add_deps_to_db E p w = (Raise e, w2)
      /\ invocations AddDeps (events (add_deps_to_db E p) w) = 0
  end.
Proof.
  assert (Hg : grows (resolve_in_merge E p))
    by (unfold resolve_in_merge; solve_grows).
  assert (Hev : events (add_deps_to_db E p) w
                = events (resolve_in_merge E p) w
                  ++ match resolve_in_merge E p w with
                     | (Ok commit, w2) => [Run (add_deps_args E p commit) None]
                     | (Raise _, _) => []
                     end).
  { transitivity
      (events (resolve_in_merge E p ≫= fun commit =>
                 sp_run E (add_deps_args E p commit) None false
                 ≫= fun _ => mret tt) w).
    { unfold events. by rewrite add_deps_to_db_resolve. }
    rewrite events_bind by (done || intros; solve_grows).
    destruct (resolve_in_merge E p w) as [[commit|e] w2]; [|done].
    repeat events_step. case_run; by repeat events_step. }
  pose proof (add_deps_to_db_invocations E AddDeps p w) as Hinv.
  pose proof (resolve_in_merge_run E p w) as Hrun.
  pose proof (add_deps_to_db_resolve E p w) as Hres.
  rewrite bind_unfold in Hres.
  destruct (resolve_in_merge E p w) as [[commit|e] w2].
  - split; [done|]. rewrite Hinv. unfold succeeds.
    destruct (fst (mkdir E _ w)); [|done]. by rewrite <- Hrun.
  - split; [done|]. rewrite Hinv. unfold succeeds.
    destruct (fst (mkdir E _ w)); [|done]. by rewrite <- Hrun.
Qed.

End Blocked.

Lemma blocked_by_file_demo :
  present Demo.env (get_dep_path "acme") demo_deps_is_file = false
  /\ stat Demo.env (absolute Demo.env DEPS_DIR) demo_deps_is_file
     = Some (File "")
  /\ fst (dump_deps Demo.env Demo.acme demo_deps_is_file)
     = Raise FileExistsError
  /\ events (dump_deps Demo.env Demo.acme) demo_deps_is_file
     = [Print "Extracting dependency info from acme"].
Proof.
  destruct (blocked_by_file Demo.env Demo.acme demo_deps_is_file "")
    as (Hdeps & _).
  destruct (Hdeps eq_refl eq_refl) as (_ & Hev).
  split; [reflexivity|]. split; [reflexivity|]. split; [reflexivity|].
  exact Hev.
Defined.

(** ** Nothing is removed *)

Lemma fs_mono_ret {A} (a : A) : fs_mono (mret a : M A).
Proof. by intros w. Qed.

Lemma fs_mono_throw {A} (e : Exc) : fs_mono (mthrow e : M A).
Proof. by intros w. Qed.

Lemma fs_mono_bind {A B} (c : M A) (k : A -> M B) :
  fs_mono c -> (forall a, fs_mono (k a)) -> fs_mono (c ≫= k).
Proof.
  intros Hc Hk w. rewrite bind_unfold. specialize (Hc w).
  destruct (c w) as [[a|e] w']; [|done]. etrans; [exact Hc | apply Hk].
Qed.

Lemma fs_mono_fs_grows {A} (c : M A) : fs_grows c -> fs_mono c.
Proof. intros Hc w. by apply fs_grows_subseteq. Qed.

Lemma fs_mono_print (msg : string) : fs_mono (print msg).
Proof. by intros w. Qed.

Section Monotone.

Context (E : Env).

(** The programs lose no node and change none. *)
Hypothesis Hprogram :
  forall args cwd capture w, fs w ⊆ snd (program E args cwd capture w).

Lemma fs_mono_sp_run (args : list string) (cwd : option Path)
    (capture : bool) :
  fs_mono (sp_run E args cwd capture).
Proof.
  intros w. pose proof (Hprogram args cwd capture (called args cwd w)) as H.
  unfold sp_run, called in *.
  destruct (program E args cwd capture _) as [[rc out|n] m];
    destruct cwd as [d|]; try done;
    by destruct (stat E d w) as [[|x]|].
Qed.

Lemma fs_mono_call (args : list string) (cwd : option Path) :
  fs_mono (sp_run E args cwd false ≫= fun _ => mret tt).
Proof.
  apply fs_mono_bind; [apply fs_mono_sp_run | intros _; apply fs_mono_ret].
Qed.

Lemma fs_mono_stages (p : Project) : fs_mono (stages E p).
Proof.
  unfold stages, clone, checkout, dump_deps, dump_cochange_db, add_deps_to_db,
    dereference_rev, check_returncode.
  repeat first
    [ apply fs_mono_call
    | apply fs_mono_ret
    | apply fs_mono_throw
    | apply fs_mono_print
    | apply fs_mono_sp_run
    | apply fs_mono_fs_grows, fs_grows_exists
    | apply fs_mono_fs_grows, fs_grows_mkdir
    | apply fs_mono_bind; [|intros ?]
    | match goal with
      | |- fs_mono (if ?b then _ else _) => destruct b
      | |- fs_mono (match ?x with _ => _ end) => destruct x
      end ].
Qed.

Lemma fs_mono_for_each (ps : list Project) : fs_mono (for_each E ps).
Proof.
  induction ps as [|p ps IH]; [apply fs_mono_ret|].
  simpl. apply fs_mono_bind; [apply fs_mono_stages | by intros _].
Qed.

Lemma fs_mono_main : fs_mono (main E).
Proof.
  intros w. unfold main. rewrite bind_unfold.
  pose proof (load_projects_world E w) as Hw.
  destruct (load_projects E w) as [[ps|e] w0]; simpl in Hw; subst w0;
    [apply fs_mono_for_each | done].
Qed.

End Monotone.

(** X14: the script itself removes and overwrites nothing.  When no
    program it starts loses or changes a node of the file system, every
    node there before the run is there after it, unchanged. *)
Theorem run_removes_nothing (E : Env) (w : World) :
  (forall args cwd capture w0, fs w0 ⊆ snd (program E args cwd capture w0)) ->
  fs w ⊆ fs (snd (main E w))
  /\ forall p n, stat E p w = Some n -> stat E p (snd (main E w)) = Some n.
Proof.
  intros Hprogram. pose proof (fs_mono_main E Hprogram w) as Hsub.
  split; [done|]. intros p n. by apply stat_subseteq.
Qed.

Lemma run_removes_nothing_demo :
  fs (Demo.w0 Demo.acme_csv) ⊆ fs (snd (main Demo.env (Demo.w0 Demo.acme_csv)))
  /\ stat Demo.env PROJECTS_CSV (snd (main Demo.env (Demo.w0 Demo.acme_csv)))
     = Some (File Demo.acme_csv).
Proof.
  destruct (run_removes_nothing Demo.env (Demo.w0 Demo.acme_csv)
              demo_program_subseteq) as (Hsub & Hstat).
  split; [exact Hsub|]. by apply Hstat.
Defined.

(** ** What the programs find when they start *)

Section Ready.

Context (E : Env).

Lemma prepared_dir (d : Path) (msg : string) (w : World) :
  succeeds (mkdir E d) w = true -> stat E d (prepared E d msg w) = Some Dir.
Proof.
  unfold succeeds. destruct (mkdir E d w) as [[[]|e] w1] eqn:Hm; [|done].
  intros _. rewrite <- (mkdir_ok E d w w1 Hm). apply stat_fs.
  unfold prepared. by rewrite Hm.
Qed.

(** X15: the extractor and the dump are started only once their directory
    is in place.  When the artifact is absent and the directory could be
    made, the stage is its call, started in a world where the dependency
    directory (the directory of the database) is a directory. *)
Theorem directory_in_place (p : Project) (w : World) :
  (present E (get_dep_path (name p)) w = false ->
   succeeds (mkdir E (absolute E DEPS_DIR)) w = true ->
   let w1 := prepared E (absolute E DEPS_DIR)
               ("Extracting dependency info from " +:+ name p) w in
   stat E (absolute E DEPS_DIR) w1 = Some Dir
   /\ dump_deps E p w
      = (sp_run E (dump_deps_args E p) (Some (get_project_path (name p))) false
         ≫= fun _ => mret tt) w1)
  /\ (present E (get_db_path (name p)) w = false ->
      succeeds (mkdir E (parent (get_db_path (name p)))) w = true ->
      let w1 := prepared E (parent (get_db_path (name p)))
                  ("Dumping cochange info into db for " +:+ name p +:+ "...")
                  w in
      stat E (parent (get_db_path (name p))) w1 = Some Dir
      /\ dump_cochange_db E p w
         = (sp_run E (dump_cochange_db_args E p) None false
            ≫= fun _ => mret tt) w1).
Proof.
  split.
  - intros Hp Hmk w1. split; [by apply prepared_dir|].
    unfold dump_deps. rewrite bind_unfold, exists_run, Hp.
    rewrite bind_unfold, print_run, bind_unfold, mkdir_after_print.
    unfold succeeds in Hmk. by destruct (fst (mkdir E _ w)) as [[]|e].
  - intros Hp Hmk w1. split; [by apply prepared_dir|].
    unfold dump_cochange_db. rewrite bind_unfold, exists_run, Hp.
    rewrite bind_unfold, print_run, bind_unfold, mkdir_after_print.
    unfold succeeds in Hmk. by destruct (fst (mkdir E _ w)) as [[]|e].
Qed.

Lemma startswith_sep_append (a b : string) :
  startswith_sep a = true -> startswith_sep (a +:+ b) = true.
Proof. by destruct a. Qed.

(** The text of a path parsed from a text that begins with a slash begins
    with a slash. *)
Lemma str_parse_absolute (s : string) :
  startswith_sep s = true -> startswith_sep (str (parse_path s)) = true.
Proof.
  destruct s as [|c1 r1]; [done|]. simpl. intros Hc.
  unfold parse_path, splitroot. rewrite Hc.
  destruct r1 as [|c2 r2]; [done|].
  destruct (is_sep c2); [destruct (startswith_sep r2)|]; done.
Qed.

Lemma str_relative (p : Path) :
  normal p -> root p = "" -> startswith_sep (str p) = false.
Proof.
  destruct p as [r l]. intros [_ Hl] Hr. simpl in Hl, Hr. subst r.
  unfold str. cbn [root tail].
  destruct l as [|x xs]; [done|]. apply Forall_cons in Hl as [Hx _].
  destruct (join_sep_head x xs Hx) as (c & s & Hj & Hc).
  rewrite Hj. change ("" +:+ String c s) with (String c s).
  rewrite text_of_nonempty. simpl. by rewrite Hc.
Qed.

(** [absolute] gives a path whose text begins with a slash when the
    working directory does. *)
Lemma absolute_is_absolute (p : Path) :
  normal p -> startswith_sep (getcwd E) = true ->
  startswith_sep (str (absolute E p)) = true.
Proof.
  intros Hn Hcwd. unfold absolute, is_absolute.
  destruct (String.eqb (root p) "") eqn:Hr; simpl.
  - apply String.eqb_eq in Hr.
    unfold Path_, posix_join. simpl. apply str_parse_absolute.
    unfold posix_join2. rewrite (str_relative p Hn Hr).
    destruct (_ || _); by apply startswith_sep_append.
  - destruct p as [r l]. destruct Hn as [Hin _]. simpl in *. unfold str. simpl.
    repeat (apply elem_of_cons in Hin as [->|Hin]);
      [done|done|done|by apply elem_of_nil in Hin].
Qed.

Lemma absolute_word (word : string) :
  startswith_sep (getcwd E) = true ->
  startswith_sep (str (absolute E (Path_ [word]))) = true.
Proof. intros Hcwd. by apply absolute_is_absolute; [apply parse_path_normal|]. Qed.

(** X16: when the working directory of the process is absolute, the paths
    of the jar and of the output directory given to the extractor, which
    runs inside the working copy, are absolute, and so is the path of the
    co-change tool in the dump and add-deps calls. *)
Theorem absolute_arguments (p : Project) (commit : string) :
  startswith_sep (getcwd E) = true ->
  (exists jar dir,
     dump_deps_args E p !! 3 = Some jar
     /\ dump_deps_args E p !! 7 = Some ("--dir=" +:+ dir)
     /\ startswith_sep jar = true /\ startswith_sep dir = true)
  /\ (exists tool,
        dump_cochange_db_args E p !! 0 = Some tool
        /\ add_deps_args E p commit !! 0 = Some tool
        /\ startswith_sep tool = true).
Proof.
  intros Hcwd. split.
  - exists (str (absolute E DEPENDS_JAR)), (str (absolute E DEPS_DIR)).
    repeat split; by apply absolute_word.
  - exists (str (absolute E COCHANGE_TOOL_BIN)).
    repeat split; by apply absolute_word.
Qed.

End Ready.

Lemma directory_in_place_demo :
  present Demo.env (get_dep_path "acme") demo_cloned = false
  /\ succeeds (mkdir Demo.env (absolute Demo.env DEPS_DIR)) demo_cloned = true
  /\ stat Demo.env (absolute Demo.env DEPS_DIR)
       (prepared Demo.env (absolute Demo.env DEPS_DIR)
          "Extracting dependency info from acme" demo_cloned) = Some Dir.
Proof.
  destruct (directory_in_place Demo.env Demo.acme demo_cloned) as (Hdeps & _).
  destruct (Hdeps eq_refl eq_refl) as (Hdir & _).
  split; [reflexivity|]. split; [reflexivity|]. exact Hdir.
Defined.

Lemma absolute_arguments_demo :
  startswith_sep (getcwd Demo.env) = true
  /\ exists tool,
       dump_cochange_db_args Demo.env Demo.acme !! 0 = Some tool
       /\ add_deps_args Demo.env Demo.acme "c0ffee" !! 0 = Some tool
       /\ startswith_sep tool = true.
Proof.
  destruct (absolute_arguments Demo.env Demo.acme "c0ffee" eq_refl)
    as (_ & Htool).
  split; [reflexivity | exact Htool].
Defined.
